(** * The eth/66 sensor connection of polygon-cli (package p2p)

    A shallow embedding of the per-peer connection code: the status
    exchange, the dispatch loop, the message handlers, the request
    tracker and the backfill policy.  Each Go function becomes a
    computation in a state-and-error monad over the connection record;
    the two collaborators the code talks to through interfaces (the
    devp2p message stream and the database) are type classes. *)

From Stdlib Require Import ZArith List Bool Lia String Sorted FinFun.
Import ListNotations.
Open Scope Z_scope.

(** ** Machine integers *)

(** uint64 arithmetic wraps modulo 2^64 (requestNum++). *)
Definition MaxUint64 : Z := 18446744073709551615.
Definition wrap64 (z : Z) : Z := z mod 2 ^ 64.
Definition incr64 (n : Z) : Z := wrap64 (n + 1).

(** int32 arithmetic wraps into [-2^31, 2^31): the conversion
    int32(len(x)) and atomic.AddInt32. *)
Definition MinInt32 : Z := -2147483648.
Definition MaxInt32 : Z := 2147483647.
Definition Int32 (z : Z) : Z := (z + 2 ^ 31) mod 2 ^ 32 - 2 ^ 31.
Definition AddInt32 (addr delta : Z) : Z := Int32 (addr + delta).
Definition IsInt32 (z : Z) : Prop := MinInt32 <= z <= MaxInt32.

(** math/big: Int.Cmp returns -1, 0 or +1; Int.Uint64 returns the low
    64 bits of the magnitude. *)
Definition Cmp (x y : Z) : Z :=
  match x ?= y with Lt => -1 | Eq => 0 | Gt => 1 end.
Definition Uint64 (x : Z) : Z := Z.land (Z.abs x) MaxUint64.

(** len of a slice, as a Go int. *)
Definition len {A} (l : list A) : Z := Z.of_nat (List.length l).

(** Go errors a connection can return: what the transport reports, a
    failed msg.Decode, the error statusExchange creates with errors.New,
    and ethp2p.DiscUselessPeer. *)
Inductive error :=
| ErrIO (what : string)
| ErrDecode
| ErrExpectedStatus
| DiscUselessPeer.

(** A Go call returning (value, error). *)
Inductive Res (A : Type) :=
| Ok (a : A)
| Err (e : error).
Arguments Ok {A} a.
Arguments Err {A} e.

(** ** Types of go-ethereum, one module per Go package *)

Module common.
(** common.Hash, 32 bytes, read as a number below 2^256. *)
Definition Hash := N.
End common.

Module enode.
(** enode.Node, by its identifier. *)
Definition Node := N.
End enode.

Module types.
(** types.Transaction, opaque to the connection code. *)
Definition Transaction := N.

(** types.Header.  The connection code reads ParentHash and Number
    (a big.Int) only; the remaining fields travel in Rest. *)
Record Header := {
  ParentHash : common.Hash;
  Number : Z;
  Rest : N
}.

(** types.Block.  Hash is the value of Block.Hash(), the digest of the
    header that go-ethereum computes; Number() is the header's. *)
Record Block := {
  header : Header;
  Hash : common.Hash;
  Transactions : list Transaction;
  Uncles : list Header
}.

Definition BlockNumber (b : Block) : Z := Number (header b).
End types.

Module forkid.
(** forkid.ID *)
Record ID := {
  Hash : Z;
  Next : Z
}.

(** forkid.NewID, a function of the chain configuration, the genesis
    hash and the head number. *)
Class Forks (Config : Type) := {
  NewID : Config -> common.Hash -> Z -> ID
}.
End forkid.

Module eth.
(** eth.StatusPacket *)
Record StatusPacket := {
  ProtocolVersion : Z;
  NetworkID : Z;
  TD : Z;
  Head : common.Hash;
  Genesis : common.Hash;
  ForkID : forkid.ID
}.

(** eth.HashOrNumber *)
Record HashOrNumber := {
  Hash : common.Hash;
  Number : Z
}.

(** eth.BlockBody *)
Record BlockBody := {
  Transactions : list types.Transaction;
  Uncles : list types.Header
}.

(** The payload of a message as msg.Decode reads it: one constructor
    per packet type the connection decodes or sends (the request
    wrappers GetBlockHeaders and GetBlockBodies of package p2p encode
    as the eth/66 packets), and Undecodable for bytes that the packet
    type of their message code does not accept. *)
Inductive Packet :=
| Status (s : StatusPacket)
| NewBlockHashesPacket (p : list (common.Hash * Z))
| TransactionsPacket (txs : list types.Transaction)
| GetBlockHeadersPacket66 (RequestId : Z) (Origin : HashOrNumber)
    (Amount Skip : Z) (Reverse : bool)
| BlockHeadersPacket66 (RequestId : Z) (headers : list types.Header)
| GetBlockBodiesPacket66 (RequestId : Z) (hashes : list common.Hash)
| BlockBodiesPacket66 (RequestId : Z) (bodies : list BlockBody)
| NewBlockPacket (Block : types.Block) (TD : Z)
| NewPooledTransactionHashesPacket (hashes : list common.Hash)
| GetPooledTransactionsPacket66 (RequestId : Z) (hashes : list common.Hash)
| PooledTransactionsPacket66 (RequestId : Z) (txs : list types.Transaction)
| GetReceiptsPacket66 (RequestId : Z) (hashes : list common.Hash)
| ReceiptsPacket66 (RequestId : Z)
| Undecodable.

(** Message codes of eth/66. *)
Definition StatusMsg : Z := 0.
Definition NewBlockHashesMsg : Z := 1.
Definition TransactionsMsg : Z := 2.
Definition GetBlockHeadersMsg : Z := 3.
Definition BlockHeadersMsg : Z := 4.
Definition GetBlockBodiesMsg : Z := 5.
Definition BlockBodiesMsg : Z := 6.
Definition NewBlockMsg : Z := 7.
Definition NewPooledTransactionHashesMsg : Z := 8.
Definition GetPooledTransactionsMsg : Z := 9.
Definition PooledTransactionsMsg : Z := 10.
Definition GetReceiptsMsg : Z := 15.
Definition ReceiptsMsg : Z := 16.
End eth.

Module ethp2p.
(** ethp2p.Msg: the code, the payload, and what msg.Discard() will
    return once the handler is done with the message. *)
Record Msg := {
  Code : Z;
  Payload : eth.Packet;
  Discard : option error
}.

(** ethp2p.MsgReadWriter: a stream that hands over the next message or
    an error, and accepts or refuses a message to write. *)
Class MsgReadWriter (RW : Type) := {
  ReadMsg : RW -> Res Msg * RW;
  WriteMsg : RW -> Z -> eth.Packet -> option error * RW
}.
End ethp2p.

Module database.
(** database.Database: the capability queries, the existence query and
    the writes (the context argument is left out). *)
Class Database (DB : Type) := {
  ShouldWriteBlocks : DB -> bool;
  ShouldWriteBlockEvents : DB -> bool;
  ShouldWriteTransactions : DB -> bool;
  ShouldWriteTransactionEvents : DB -> bool;
  HasBlock : DB -> common.Hash -> bool;
  WriteBlock : DB -> enode.Node -> types.Block -> Z -> DB;
  WriteBlockHeaders : DB -> list types.Header -> DB;
  WriteBlockBody : DB -> eth.BlockBody -> common.Hash -> DB;
  WriteBlockHashes : DB -> enode.Node -> list common.Hash -> DB;
  WriteTransactions : DB -> enode.Node -> list types.Transaction -> DB
}.
End database.

(** ** Session and connection state (package p2p) *)

(** HeadBlock *)
Record HeadBlock := {
  Hash : common.Hash;
  TotalDifficulty : Z;
  Number : Z
}.

(** Modelled from the spec: the declaration of MessageCount is in
    another file of package p2p; its fields are the int32 counters the
    handlers pass to atomic.AddInt32. *)
Record MessageCount := {
  BlockHashes : Z;
  Transactions : Z;
  BlockHeaderRequests : Z;
  BlockHeaders : Z;
  BlockBodiesRequests : Z;
  BlockBodies : Z;
  Blocks : Z;
  TransactionRequests : Z;
  TransactionHashes : Z
}.

(** Modelled from the spec: the declaration of request is in another
    file of package p2p; getBlockData builds it from a uint64 request
    identifier and a block hash. *)
Record request := {
  requestID : Z;
  hash : common.Hash
}.

(** What the loggers are told. *)
Inductive LogLine :=
| LogNewPeer (status : eth.StatusPacket)
| LogSettingOldestBlock (block : types.Header)
| LogFetchingParent (h : common.Hash) (number : Z)
| LogNoBlockHash
| LogSettingHead (h : HeadBlock)
| LogError (e : error)
| LogTrace (m : ethp2p.Msg).

(** The effects of a connection, in the order they happen: messages
    handed to ethp2p.Send with what Send returned, results of ReadMsg,
    nodes sent to the Peers channel, log lines and database writes. *)
Inductive Event :=
| EvSend (code : Z) (p : eth.Packet) (r : option error)
| EvRead (r : Res ethp2p.Msg)
| EvPeer (n : enode.Node)
| EvLog (l : LogLine)
| EvWriteBlockHashes (n : enode.Node) (hashes : list common.Hash)
| EvWriteTransactions (n : enode.Node) (txs : list types.Transaction)
| EvWriteBlockHeaders (headers : list types.Header)
| EvWriteBlockBody (body : eth.BlockBody) (h : common.Hash)
| EvWriteBlock (n : enode.Node) (b : types.Block) (td : Z).

(** conn, with the objects its pointers lead to held in place: head and
    count are the session's shared head and counters, rw and db the
    states of the two collaborators.  requests is the container/list of
    pending requests, front first; getBlockData is the only code that
    pushes to it, so every element is a request.  events is the record
    of effects so far, oldest first.  The logger and the head mutex have
    no state of their own here: one connection runs sequentially. *)
Record conn {RW DB : Type} := {
  sensorID : string;
  node : enode.Node;
  rw : RW;
  db : DB;
  head : HeadBlock;
  count : MessageCount;
  requests : list request;
  requestNum : Z;
  oldestBlock : option types.Header;
  events : list Event
}.
Arguments conn : clear implicits.

(** Eth66ProtocolOptions.  Head and Count are the shared objects the
    pointers lead to; the Peers channel shows as EvPeer events; Context
    and HeadMutex are left out. *)
Record Eth66ProtocolOptions {DB Config : Type} := {
  Database : DB;
  Genesis : Config;
  GenesisHash : common.Hash;
  RPC : string;
  SensorID : string;
  NetworkID : Z;
  Count : MessageCount;
  Head : HeadBlock
}.
Arguments Eth66ProtocolOptions : clear implicits.

(** ** The monad of connection code *)

Section Monad.

Context {RW DB : Type}.

(** A method of conn: it runs on the connection, changes it, and returns
    a value or an error.  What it changed before the error stays. *)
Definition M (A : Type) : Type := conn RW DB -> Res A * conn RW DB.

Definition ret {A} (a : A) : M A := fun c => (Ok a, c).

Definition bind {A B} (m : M A) (k : A -> M B) : M B :=
  fun c =>
    match m c with
    | (Ok a, c') => k a c'
    | (Err e, c') => (Err e, c')
    end.

Definition throw {A} (e : error) : M A := fun c => (Err e, c).
Definition gets {A} (f : conn RW DB -> A) : M A := fun c => (Ok (f c), c).
Definition modify (f : conn RW DB -> conn RW DB) : M unit :=
  fun c => (Ok tt, f c).

Definition set_rw (x : RW) (c : conn RW DB) : conn RW DB :=
  {| sensorID := sensorID c; node := node c; rw := x; db := db c;
     head := head c; count := count c; requests := requests c;
     requestNum := requestNum c; oldestBlock := oldestBlock c;
     events := events c |}.

Definition set_db (x : DB) (c : conn RW DB) : conn RW DB :=
  {| sensorID := sensorID c; node := node c; rw := rw c; db := x;
     head := head c; count := count c; requests := requests c;
     requestNum := requestNum c; oldestBlock := oldestBlock c;
     events := events c |}.

Definition set_head (x : HeadBlock) (c : conn RW DB) : conn RW DB :=
  {| sensorID := sensorID c; node := node c; rw := rw c; db := db c;
     head := x; count := count c; requests := requests c;
     requestNum := requestNum c; oldestBlock := oldestBlock c;
     events := events c |}.

Definition set_count (x : MessageCount) (c : conn RW DB) : conn RW DB :=
  {| sensorID := sensorID c; node := node c; rw := rw c; db := db c;
     head := head c; count := x; requests := requests c;
     requestNum := requestNum c; oldestBlock := oldestBlock c;
     events := events c |}.

Definition set_requests (x : list request) (c : conn RW DB) : conn RW DB :=
  {| sensorID := sensorID c; node := node c; rw := rw c; db := db c;
     head := head c; count := count c; requests := x;
     requestNum := requestNum c; oldestBlock := oldestBlock c;
     events := events c |}.

Definition set_requestNum (x : Z) (c : conn RW DB) : conn RW DB :=
  {| sensorID := sensorID c; node := node c; rw := rw c; db := db c;
     head := head c; count := count c; requests := requests c;
     requestNum := x; oldestBlock := oldestBlock c;
     events := events c |}.

Definition set_oldestBlock (x : option types.Header) (c : conn RW DB)
  : conn RW DB :=
  {| sensorID := sensorID c; node := node c; rw := rw c; db := db c;
     head := head c; count := count c; requests := requests c;
     requestNum := requestNum c; oldestBlock := x;
     events := events c |}.

Definition emit (e : Event) (c : conn RW DB) : conn RW DB :=
  {| sensorID := sensorID c; node := node c; rw := rw c; db := db c;
     head := head c; count := count c; requests := requests c;
     requestNum := requestNum c; oldestBlock := oldestBlock c;
     events := events c ++ [e] |}.

End Monad.

Arguments M : clear implicits.

Notation "x <- m ;; k" := (bind m (fun x => k))
  (at level 61, m at next level, right associativity).
Notation "m ;; k" := (bind m (fun _ => k))
  (at level 61, right associativity).

(** ** The connection *)

Section Connection.

Context {RW DB Config : Type}.
Context `{ethp2p.MsgReadWriter RW} `{database.Database DB}
  `{forkid.Forks Config}.

Local Abbreviation conn := (conn RW DB).
Local Abbreviation M := (M RW DB).

(** ethp2p.Send(c.rw, code, data) *)
Definition Send (code : Z) (data : eth.Packet) : M unit :=
  fun c =>
    let '(r, rw') := ethp2p.WriteMsg (rw c) code data in
    let c' := emit (EvSend code data r) (set_rw rw' c) in
    match r with
    | None => (Ok tt, c')
    | Some e => (Err e, c')
    end.

(** c.rw.ReadMsg() *)
Definition ReadMsg : M ethp2p.Msg :=
  fun c =>
    let '(r, rw') := ethp2p.ReadMsg (rw c) in
    (r, emit (EvRead r) (set_rw rw' c)).

Definition logger (l : LogLine) : M unit := modify (emit (EvLog l)).

(** A write to the database collaborator. *)
Definition dbWrite (f : DB -> DB) (e : Event) : M unit :=
  modify (fun c => emit e (set_db (f (db c)) c)).

(** atomic.AddInt32 on one field of the shared counters. *)
Definition add_BlockHashes (d : Z) (m : MessageCount) : MessageCount :=
  {| BlockHashes := AddInt32 (BlockHashes m) d;
     Transactions := Transactions m;
     BlockHeaderRequests := BlockHeaderRequests m;
     BlockHeaders := BlockHeaders m;
     BlockBodiesRequests := BlockBodiesRequests m;
     BlockBodies := BlockBodies m;
     Blocks := Blocks m;
     TransactionRequests := TransactionRequests m;
     TransactionHashes := TransactionHashes m |}.

Definition add_Transactions (d : Z) (m : MessageCount) : MessageCount :=
  {| BlockHashes := BlockHashes m;
     Transactions := AddInt32 (Transactions m) d;
     BlockHeaderRequests := BlockHeaderRequests m;
     BlockHeaders := BlockHeaders m;
     BlockBodiesRequests := BlockBodiesRequests m;
     BlockBodies := BlockBodies m;
     Blocks := Blocks m;
     TransactionRequests := TransactionRequests m;
     TransactionHashes := TransactionHashes m |}.

Definition add_BlockHeaderRequests (d : Z) (m : MessageCount)
  : MessageCount :=
  {| BlockHashes := BlockHashes m;
     Transactions := Transactions m;
     BlockHeaderRequests := AddInt32 (BlockHeaderRequests m) d;
     BlockHeaders := BlockHeaders m;
     BlockBodiesRequests := BlockBodiesRequests m;
     BlockBodies := BlockBodies m;
     Blocks := Blocks m;
     TransactionRequests := TransactionRequests m;
     TransactionHashes := TransactionHashes m |}.

Definition add_BlockHeaders (d : Z) (m : MessageCount) : MessageCount :=
  {| BlockHashes := BlockHashes m;
     Transactions := Transactions m;
     BlockHeaderRequests := BlockHeaderRequests m;
     BlockHeaders := AddInt32 (BlockHeaders m) d;
     BlockBodiesRequests := BlockBodiesRequests m;
     BlockBodies := BlockBodies m;
     Blocks := Blocks m;
     TransactionRequests := TransactionRequests m;
     TransactionHashes := TransactionHashes m |}.

Definition add_BlockBodiesRequests (d : Z) (m : MessageCount)
  : MessageCount :=
  {| BlockHashes := BlockHashes m;
     Transactions := Transactions m;
     BlockHeaderRequests := BlockHeaderRequests m;
     BlockHeaders := BlockHeaders m;
     BlockBodiesRequests := AddInt32 (BlockBodiesRequests m) d;
     BlockBodies := BlockBodies m;
     Blocks := Blocks m;
     TransactionRequests := TransactionRequests m;
     TransactionHashes := TransactionHashes m |}.

Definition add_BlockBodies (d : Z) (m : MessageCount) : MessageCount :=
  {| BlockHashes := BlockHashes m;
     Transactions := Transactions m;
     BlockHeaderRequests := BlockHeaderRequests m;
     BlockHeaders := BlockHeaders m;
     BlockBodiesRequests := BlockBodiesRequests m;
     BlockBodies := AddInt32 (BlockBodies m) d;
     Blocks := Blocks m;
     TransactionRequests := TransactionRequests m;
     TransactionHashes := TransactionHashes m |}.

Definition add_Blocks (d : Z) (m : MessageCount) : MessageCount :=
  {| BlockHashes := BlockHashes m;
     Transactions := Transactions m;
     BlockHeaderRequests := BlockHeaderRequests m;
     BlockHeaders := BlockHeaders m;
     BlockBodiesRequests := BlockBodiesRequests m;
     BlockBodies := BlockBodies m;
     Blocks := AddInt32 (Blocks m) d;
     TransactionRequests := TransactionRequests m;
     TransactionHashes := TransactionHashes m |}.

Definition add_TransactionRequests (d : Z) (m : MessageCount)
  : MessageCount :=
  {| BlockHashes := BlockHashes m;
     Transactions := Transactions m;
     BlockHeaderRequests := BlockHeaderRequests m;
     BlockHeaders := BlockHeaders m;
     BlockBodiesRequests := BlockBodiesRequests m;
     BlockBodies := BlockBodies m;
     Blocks := Blocks m;
     TransactionRequests := AddInt32 (TransactionRequests m) d;
     TransactionHashes := TransactionHashes m |}.

Definition add_TransactionHashes (d : Z) (m : MessageCount)
  : MessageCount :=
  {| BlockHashes := BlockHashes m;
     Transactions := Transactions m;
     BlockHeaderRequests := BlockHeaderRequests m;
     BlockHeaders := BlockHeaders m;
     BlockBodiesRequests := BlockBodiesRequests m;
     BlockBodies := BlockBodies m;
     Blocks := Blocks m;
     TransactionRequests := TransactionRequests m;
     TransactionHashes := AddInt32 (TransactionHashes m) d |}.

Definition atomicAdd (field : Z -> MessageCount -> MessageCount)
  (delta : Z) : M unit :=
  modify (fun c => set_count (field delta (count c)) c).

(** *** statusExchange *)

Definition statusExchange (packet : eth.StatusPacket) : M unit :=
  Send eth.StatusMsg (eth.Status packet) ;;
  msg <- ReadMsg ;;
  if negb (ethp2p.Code msg =? eth.StatusMsg) then throw ErrExpectedStatus
  else
    match ethp2p.Payload msg with
    | eth.Status status =>
        if negb (eth.NetworkID status =? eth.NetworkID packet)
        then throw DiscUselessPeer
        else logger (LogNewPeer status)
    | _ => throw ErrDecode
    end.

(** *** getBlockData *)

Definition getBlockData (hash : common.Hash) : M unit :=
  let headersRequest :=
    eth.GetBlockHeadersPacket66 0
      {| eth.Hash := hash; eth.Number := 0 |} 1 0 false in
  Send eth.GetBlockHeadersMsg headersRequest ;;
  modify (fun c => set_requestNum (incr64 (requestNum c)) c) ;;
  modify (fun c =>
    set_requests
      (requests c ++ [{| requestID := requestNum c; hash := hash |}]) c) ;;
  n <- gets requestNum ;;
  let bodiesRequest := eth.GetBlockBodiesPacket66 n [hash] in
  Send eth.GetBlockBodiesMsg bodiesRequest.

(** *** getParentBlock *)

Definition getParentBlock (header : types.Header) : M unit :=
  d <- gets db ;;
  if negb (database.ShouldWriteBlocks d)
     || negb (database.ShouldWriteBlockEvents d)
  then ret tt
  else
    oldest <- gets oldestBlock ;;
    match oldest with
    | None =>
        logger (LogSettingOldestBlock header) ;;
        modify (set_oldestBlock (Some header))
    | Some oldest =>
        if database.HasBlock d (types.ParentHash header)
           || negb (Cmp (types.Number header) (types.Number oldest) =? 1)
        then ret tt
        else
          logger (LogFetchingParent (types.ParentHash header)
                    (types.Number header - 1)) ;;
          getBlockData (types.ParentHash header)
    end.

(** *** The handlers *)

(** The loop of handleNewBlockHashes over the packet: hashes collects
    the announced hashes, and a failed getBlockData returns at once. *)
Fixpoint rangeNewBlockHashes (packet : list (common.Hash * Z))
  (hashes : list common.Hash) : M (list common.Hash) :=
  match packet with
  | [] => ret hashes
  | hash :: rest =>
      getBlockData (fst hash) ;;
      rangeNewBlockHashes rest (hashes ++ [fst hash])
  end.

Definition handleNewBlockHashes (msg : ethp2p.Msg) : M unit :=
  match ethp2p.Payload msg with
  | eth.NewBlockHashesPacket packet =>
      atomicAdd add_BlockHashes (Int32 (len packet)) ;;
      hashes <- rangeNewBlockHashes packet [] ;;
      n <- gets node ;;
      dbWrite (fun d => database.WriteBlockHashes d n hashes)
        (EvWriteBlockHashes n hashes)
  | _ => throw ErrDecode
  end.

Definition handleTransactions (msg : ethp2p.Msg) : M unit :=
  match ethp2p.Payload msg with
  | eth.TransactionsPacket txs =>
      atomicAdd add_Transactions (Int32 (len txs)) ;;
      n <- gets node ;;
      dbWrite (fun d => database.WriteTransactions d n txs)
        (EvWriteTransactions n txs)
  | _ => throw ErrDecode
  end.

Definition handleGetBlockHeaders (msg : ethp2p.Msg) : M unit :=
  match ethp2p.Payload msg with
  | eth.GetBlockHeadersPacket66 RequestId _ _ _ _ =>
      atomicAdd add_BlockHeaderRequests 1 ;;
      Send eth.BlockHeadersMsg (eth.BlockHeadersPacket66 RequestId [])
  | _ => throw ErrDecode
  end.

(** The loop of handleBlockHeaders over the headers. *)
Fixpoint rangeHeaders (headers : list types.Header) : M unit :=
  match headers with
  | [] => ret tt
  | header :: rest => getParentBlock header ;; rangeHeaders rest
  end.

Definition handleBlockHeaders (msg : ethp2p.Msg) : M unit :=
  match ethp2p.Payload msg with
  | eth.BlockHeadersPacket66 _ headers =>
      atomicAdd add_BlockHeaders (Int32 (len headers)) ;;
      rangeHeaders headers ;;
      dbWrite (fun d => database.WriteBlockHeaders d headers)
        (EvWriteBlockHeaders headers)
  | _ => throw ErrDecode
  end.

Definition handleGetBlockBodies (msg : ethp2p.Msg) : M unit :=
  match ethp2p.Payload msg with
  | eth.GetBlockBodiesPacket66 RequestId hashes =>
      atomicAdd add_BlockBodiesRequests (Int32 (len hashes)) ;;
      Send eth.BlockBodiesMsg (eth.BlockBodiesPacket66 RequestId [])
  | _ => throw ErrDecode
  end.

(** The loop of handleBlockBodies over c.requests, from the front: the
    hash of the first request with the identifier, if there is one, and
    the list with that element removed. *)
Fixpoint scanRequests (RequestId : Z) (l : list request)
  : option common.Hash * list request :=
  match l with
  | [] => (None, [])
  | r :: rest =>
      if requestID r =? RequestId then (Some (hash r), rest)
      else
        let '(found, rest') := scanRequests RequestId rest in
        (found, r :: rest')
  end.

Definition handleBlockBodies (msg : ethp2p.Msg) : M unit :=
  match ethp2p.Payload msg with
  | eth.BlockBodiesPacket66 RequestId bodies =>
      match bodies with
      | [] => ret tt
      | body0 :: _ =>
          atomicAdd add_BlockBodies (Int32 (len bodies)) ;;
          l <- gets requests ;;
          let '(found, l') := scanRequests RequestId l in
          modify (set_requests l') ;;
          match found with
          | None => logger LogNoBlockHash
          | Some h =>
              dbWrite (fun d => database.WriteBlockBody d body0 h)
                (EvWriteBlockBody body0 h)
          end
      end
  | _ => throw ErrDecode
  end.

Definition handleNewBlock (msg : ethp2p.Msg) : M unit :=
  match ethp2p.Payload msg with
  | eth.NewBlockPacket block td =>
      atomicAdd add_Blocks 1 ;;
      cur <- gets head ;;
      (if (Uint64 (types.BlockNumber block) >? Number cur)
          && (Cmp td (TotalDifficulty cur) =? 1)
       then
         modify (set_head
           {| Hash := types.Hash block;
              TotalDifficulty := td;
              Number := Uint64 (types.BlockNumber block) |}) ;;
         new <- gets head ;;
         logger (LogSettingHead new)
       else ret tt) ;;
      getParentBlock (types.header block) ;;
      n <- gets node ;;
      dbWrite (fun d => database.WriteBlock d n block td)
        (EvWriteBlock n block td)
  | _ => throw ErrDecode
  end.

Definition handleGetPooledTransactions (msg : ethp2p.Msg) : M unit :=
  match ethp2p.Payload msg with
  | eth.GetPooledTransactionsPacket66 RequestId hashes =>
      atomicAdd add_TransactionRequests (Int32 (len hashes)) ;;
      Send eth.PooledTransactionsMsg
        (eth.PooledTransactionsPacket66 RequestId [])
  | _ => throw ErrDecode
  end.

Definition handleNewPooledTransactionHashes (msg : ethp2p.Msg) : M unit :=
  match ethp2p.Payload msg with
  | eth.NewPooledTransactionHashesPacket txs =>
      atomicAdd add_TransactionHashes (Int32 (len txs)) ;;
      d <- gets db ;;
      if negb (database.ShouldWriteTransactions d)
         || negb (database.ShouldWriteTransactionEvents d)
      then ret tt
      else
        Send eth.GetPooledTransactionsMsg
          (eth.GetPooledTransactionsPacket66 0 txs)
  | _ => throw ErrDecode
  end.

Definition handlePooledTransactions (msg : ethp2p.Msg) : M unit :=
  match ethp2p.Payload msg with
  | eth.PooledTransactionsPacket66 _ txs =>
      atomicAdd add_Transactions (Int32 (len txs)) ;;
      n <- gets node ;;
      dbWrite (fun d => database.WriteTransactions d n txs)
        (EvWriteTransactions n txs)
  | _ => throw ErrDecode
  end.

Definition handleGetReceipts (msg : ethp2p.Msg) : M unit :=
  match ethp2p.Payload msg with
  | eth.GetReceiptsPacket66 RequestId _ =>
      Send eth.ReceiptsMsg (eth.ReceiptsPacket66 RequestId)
  | _ => throw ErrDecode
  end.

(** *** The protocol's Run function *)

(** The switch on msg.Code. *)
Definition dispatch (msg : ethp2p.Msg) : M unit :=
  let code := ethp2p.Code msg in
  if code =? eth.NewBlockHashesMsg then handleNewBlockHashes msg
  else if code =? eth.TransactionsMsg then handleTransactions msg
  else if code =? eth.GetBlockHeadersMsg then handleGetBlockHeaders msg
  else if code =? eth.BlockHeadersMsg then handleBlockHeaders msg
  else if code =? eth.GetBlockBodiesMsg then handleGetBlockBodies msg
  else if code =? eth.BlockBodiesMsg then handleBlockBodies msg
  else if code =? eth.NewBlockMsg then handleNewBlock msg
  else if code =? eth.NewPooledTransactionHashesMsg
       then handleNewPooledTransactionHashes msg
  else if code =? eth.GetPooledTransactionsMsg
       then handleGetPooledTransactions msg
  else if code =? eth.PooledTransactionsMsg
       then handlePooledTransactions msg
  else if code =? eth.GetReceiptsMsg then handleGetReceipts msg
  else logger (LogTrace msg).

(** One turn of the for loop: read, dispatch, log and return a handler's
    error, discard the rest of the message. *)
Definition iteration : M unit :=
  msg <- ReadMsg ;;
  (fun c =>
     match dispatch msg c with
     | (Err e, c') => (Err e, emit (EvLog (LogError e)) c')
     | (Ok a, c') => (Ok a, c')
     end) ;;
  match ethp2p.Discard msg with
  | Some e => throw e
  | None => ret tt
  end.

(** The for loop, which only an error ends: the error it returned, or
    None while it is still running after fuel turns. *)
Fixpoint loop (fuel : nat) (c : conn) : option error * conn :=
  match fuel with
  | O => (None, c)
  | S fuel' =>
      match iteration c with
      | (Err e, c') => (Some e, c')
      | (Ok _, c') => loop fuel' c'
      end
  end.

(** The connection Run starts with. *)
Definition newConn (opts : Eth66ProtocolOptions DB Config)
  (p : enode.Node) (rw0 : RW) : conn :=
  {| sensorID := SensorID opts;
     node := p;
     rw := rw0;
     db := Database opts;
     head := Head opts;
     count := Count opts;
     requests := [];
     requestNum := 0;
     oldestBlock := None;
     events := [] |}.

(** The status packet Run sends. *)
Definition localStatus (opts : Eth66ProtocolOptions DB Config)
  : eth.StatusPacket :=
  {| eth.ProtocolVersion := 66;
     eth.NetworkID := NetworkID opts;
     eth.Genesis := GenesisHash opts;
     eth.ForkID :=
       forkid.NewID (Genesis opts) (GenesisHash opts) (Number (Head opts));
     eth.Head := Hash (Head opts);
     eth.TD := TotalDifficulty (Head opts) |}.

(** Run of the protocol NewEth66Protocol returns, for peer p on stream
    rw0. *)
Definition Run (opts : Eth66ProtocolOptions DB Config) (p : enode.Node)
  (rw0 : RW) (fuel : nat) : option error * conn :=
  let c := newConn opts p rw0 in
  let status := localStatus opts in
  match statusExchange status c with
  | (Err err, c') => (Some err, c')
  | (Ok _, c') => loop fuel (emit (EvPeer p) c')
  end.

End Connection.

(** The get-headers and get-bodies requests of getBlockData. *)
Definition headersRequest (h : common.Hash) : eth.Packet :=
  eth.GetBlockHeadersPacket66 0 {| eth.Hash := h; eth.Number := 0 |} 1 0 false.

Definition bodiesRequest (id : Z) (h : common.Hash) : eth.Packet :=
  eth.GetBlockBodiesPacket66 id [h].

(** The error a call returned, as the result of a method. *)
Definition result (r : option error) : Res unit :=
  match r with
  | None => Ok tt
  | Some e => Err e
  end.

(** ** Executions of a connection *)

Section Executions.

Context {RW DB : Type}.
Context `{ethp2p.MsgReadWriter RW} `{database.Database DB}.

(** What the other connections of the session can do to this one: the
    database, the head and the counters are shared with them. *)
Definition interfere (d : DB) (h : HeadBlock) (k : MessageCount)
  (c : conn RW DB) : conn RW DB :=
  set_db d (set_head h (set_count k c)).

(** The states a connection goes through in its dispatch loop: each
    step handles one message, or is a change the other connections make
    to the shared objects.  A handler's error ends the loop; the
    relation goes on after it, so it covers more than the loop can
    reach. *)
Inductive Steps : conn RW DB -> conn RW DB -> Prop :=
| Steps_refl (c : conn RW DB) : Steps c c
| Steps_handle (c c1 : conn RW DB) (msg : ethp2p.Msg) :
    Steps c c1 -> Steps c (snd (dispatch msg c1))
| Steps_interfere (c c1 : conn RW DB) (d : DB) (h : HeadBlock)
    (k : MessageCount) :
    Steps c c1 -> Steps c (interfere d h k c1).

End Executions.

(** ** Reading the record of effects *)

(** The backfill requests in a record: the parent hash and the block
    number getParentBlock logs when it fetches a missing parent. *)
Fixpoint backfills (evs : list Event) : list (common.Hash * Z) :=
  match evs with
  | [] => []
  | EvLog (LogFetchingParent h n) :: rest => (h, n) :: backfills rest
  | _ :: rest => backfills rest
  end.

(** The messages handed to ethp2p.Send, with their codes. *)
Fixpoint sent (evs : list Event) : list (Z * eth.Packet) :=
  match evs with
  | [] => []
  | EvSend code p _ :: rest => (code, p) :: sent rest
  | _ :: rest => sent rest
  end.

(** The request identifiers given out: those of the get-bodies requests
    handed to ethp2p.Send, in order. *)
Fixpoint allocated (evs : list Event) : list Z :=
  match evs with
  | [] => []
  | EvSend code (eth.GetBlockBodiesPacket66 id _) _ :: rest =>
      if code =? eth.GetBlockBodiesMsg then id :: allocated rest
      else allocated rest
  | _ :: rest => allocated rest
  end.

(** The fetches the peer's stream took: the hashes of the get-headers
    requests that ethp2p.Send accepted, in order. *)
Fixpoint fetched (evs : list Event) : list common.Hash :=
  match evs with
  | [] => []
  | EvSend code (eth.GetBlockHeadersPacket66 _ origin _ _ _) None :: rest =>
      if code =? eth.GetBlockHeadersMsg
      then eth.Hash origin :: fetched rest
      else fetched rest
  | _ :: rest => fetched rest
  end.

(** The nodes sent to the Peers channel. *)
Fixpoint published (evs : list Event) : list enode.Node :=
  match evs with
  | [] => []
  | EvPeer n :: rest => n :: published rest
  | _ :: rest => published rest
  end.

(** The results of ReadMsg. *)
Fixpoint reads (evs : list Event) : list (Res ethp2p.Msg) :=
  match evs with
  | [] => []
  | EvRead r :: rest => r :: reads rest
  | _ :: rest => reads rest
  end.

(** The bodies written to the database, with the hashes they were
    written under. *)
Fixpoint bodiesWritten (evs : list Event)
  : list (eth.BlockBody * common.Hash) :=
  match evs with
  | [] => []
  | EvWriteBlockBody b h :: rest => (b, h) :: bodiesWritten rest
  | _ :: rest => bodiesWritten rest
  end.

(** The candidate head a new-block message proposes: what handleNewBlock
    would store. *)
Definition candidate (block : types.Block) (td : Z) : HeadBlock :=
  {| Hash := types.Hash block;
     TotalDifficulty := td;
     Number := Uint64 (types.BlockNumber block) |}.

(** The counters of MessageCount, by name. *)
Inductive Counter :=
| CBlockHashes
| CTransactions
| CBlockHeaderRequests
| CBlockHeaders
| CBlockBodiesRequests
| CBlockBodies
| CBlocks
| CTransactionRequests
| CTransactionHashes.

Definition counter (k : Counter) (m : MessageCount) : Z :=
  match k with
  | CBlockHashes => BlockHashes m
  | CTransactions => Transactions m
  | CBlockHeaderRequests => BlockHeaderRequests m
  | CBlockHeaders => BlockHeaders m
  | CBlockBodiesRequests => BlockBodiesRequests m
  | CBlockBodies => BlockBodies m
  | CBlocks => Blocks m
  | CTransactionRequests => TransactionRequests m
  | CTransactionHashes => TransactionHashes m
  end.

Definition Counter_eqb (a b : Counter) : bool :=
  match a, b with
  | CBlockHashes, CBlockHashes
  | CTransactions, CTransactions
  | CBlockHeaderRequests, CBlockHeaderRequests
  | CBlockHeaders, CBlockHeaders
  | CBlockBodiesRequests, CBlockBodiesRequests
  | CBlockBodies, CBlockBodies
  | CBlocks, CBlocks
  | CTransactionRequests, CTransactionRequests
  | CTransactionHashes, CTransactionHashes => true
  | _, _ => false
  end.

(** The items a message carries, in the words of the specification: a
    message of a counted category that decodes carries N items of that
    category (hashes, transactions, headers, bodies, one block, one
    header request, requested bodies or transactions).  Any other
    message carries nothing. *)
Definition carried (msg : ethp2p.Msg) : option (Counter * Z) :=
  let code := ethp2p.Code msg in
  match ethp2p.Payload msg with
  | eth.NewBlockHashesPacket p =>
      if code =? eth.NewBlockHashesMsg then Some (CBlockHashes, len p)
      else None
  | eth.TransactionsPacket txs =>
      if code =? eth.TransactionsMsg then Some (CTransactions, len txs)
      else None
  | eth.PooledTransactionsPacket66 _ txs =>
      if code =? eth.PooledTransactionsMsg
      then Some (CTransactions, len txs) else None
  | eth.BlockHeadersPacket66 _ headers =>
      if code =? eth.BlockHeadersMsg then Some (CBlockHeaders, len headers)
      else None
  | eth.BlockBodiesPacket66 _ bodies =>
      if code =? eth.BlockBodiesMsg then Some (CBlockBodies, len bodies)
      else None
  | eth.NewBlockPacket _ _ =>
      if code =? eth.NewBlockMsg then Some (CBlocks, 1) else None
  | eth.GetBlockHeadersPacket66 _ _ _ _ _ =>
      if code =? eth.GetBlockHeadersMsg then Some (CBlockHeaderRequests, 1)
      else None
  | eth.GetBlockBodiesPacket66 _ hashes =>
      if code =? eth.GetBlockBodiesMsg
      then Some (CBlockBodiesRequests, len hashes) else None
  | eth.GetPooledTransactionsPacket66 _ hashes =>
      if code =? eth.GetPooledTransactionsMsg
      then Some (CTransactionRequests, len hashes) else None
  | eth.NewPooledTransactionHashesPacket hashes =>
      if code =? eth.NewPooledTransactionHashesMsg
      then Some (CTransactionHashes, len hashes) else None
  | _ => None
  end.

(** The number of items of counter k that a message carries. *)
Definition carriedBy (k : Counter) (msg : ethp2p.Msg) : Z :=
  match carried msg with
  | Some (k', n) => if Counter_eqb k k' then n else 0
  | None => 0
  end.

(** ** Two collaborators to run the code on *)

Module script.

(** A message stream that plays a script: ReadMsg hands over the next
    entry of inbox (end of stream when there is none), WriteMsg returns
    the next entry of outcomes (success when there is none). *)
Record RW := {
  inbox : list (Res ethp2p.Msg);
  outcomes : list (option error)
}.

Definition ReadMsg (s : RW) : Res ethp2p.Msg * RW :=
  match inbox s with
  | [] => (Err (ErrIO "EOF"), s)
  | r :: rest => (r, {| inbox := rest; outcomes := outcomes s |})
  end.

Definition WriteMsg (s : RW) (code : Z) (data : eth.Packet)
  : option error * RW :=
  match outcomes s with
  | [] => (None, s)
  | r :: rest => (r, {| inbox := inbox s; outcomes := rest |})
  end.

End script.

#[global] Instance script_MsgReadWriter : ethp2p.MsgReadWriter script.RW :=
  {| ethp2p.ReadMsg := script.ReadMsg; ethp2p.WriteMsg := script.WriteMsg |}.

Module memdb.

(** A database in memory: four capability flags and the hashes of the
    blocks written so far. *)
Record DB := {
  writeBlocks : bool;
  writeBlockEvents : bool;
  writeTransactions : bool;
  writeTransactionEvents : bool;
  blocks : list common.Hash
}.

Definition HasBlock (d : DB) (h : common.Hash) : bool :=
  existsb (N.eqb h) (blocks d).

Definition WriteBlock (d : DB) (n : enode.Node) (b : types.Block) (td : Z)
  : DB :=
  {| writeBlocks := writeBlocks d;
     writeBlockEvents := writeBlockEvents d;
     writeTransactions := writeTransactions d;
     writeTransactionEvents := writeTransactionEvents d;
     blocks := types.Hash b :: blocks d |}.

End memdb.

#[global] Instance memdb_Database : database.Database memdb.DB :=
  {| database.ShouldWriteBlocks := memdb.writeBlocks;
     database.ShouldWriteBlockEvents := memdb.writeBlockEvents;
     database.ShouldWriteTransactions := memdb.writeTransactions;
     database.ShouldWriteTransactionEvents := memdb.writeTransactionEvents;
     database.HasBlock := memdb.HasBlock;
     database.WriteBlock := memdb.WriteBlock;
     database.WriteBlockHeaders := fun d _ => d;
     database.WriteBlockBody := fun d _ _ => d;
     database.WriteBlockHashes := fun d _ _ => d;
     database.WriteTransactions := fun d _ _ => d |}.

(** A chain configuration without forks. *)
#[global] Instance unit_Forks : forkid.Forks unit :=
  {| forkid.NewID := fun _ _ _ => {| forkid.Hash := 0; forkid.Next := 0 |} |}.

(** A database that stores blocks and block events and holds none yet,
    a stream on which every write succeeds and nothing arrives, and a
    connection over them. *)
Definition emptyDB : memdb.DB :=
  {| memdb.writeBlocks := true; memdb.writeBlockEvents := true;
     memdb.writeTransactions := true; memdb.writeTransactionEvents := true;
     memdb.blocks := [] |}.

Definition quietRW : script.RW :=
  {| script.inbox := []; script.outcomes := [] |}.

Definition testOpts : Eth66ProtocolOptions memdb.DB unit :=
  {| Database := emptyDB; Genesis := tt; GenesisHash := 7%N;
     RPC := "rpc"; SensorID := "sensor"; NetworkID := 137;
     Count := {| BlockHashes := 0; Transactions := 0;
                 BlockHeaderRequests := 0; BlockHeaders := 0;
                 BlockBodiesRequests := 0; BlockBodies := 0; Blocks := 0;
                 TransactionRequests := 0; TransactionHashes := 0 |};
     Head := {| Hash := 7%N; TotalDifficulty := 100; Number := 10 |} |}.

Definition testConn : conn script.RW memdb.DB := newConn testOpts 1%N quietRW.

(** The test connection over a stream whose writes return outcomes. *)
Definition refusing (outcomes : list (option error))
  : conn script.RW memdb.DB :=
  set_rw {| script.inbox := []; script.outcomes := outcomes |} testConn.

(** The test connection with three requests pending, the last under the
    identifier of the first. *)
Definition pendingConn : conn script.RW memdb.DB :=
  set_requests
    [{| requestID := 1; hash := 11%N |};
     {| requestID := 2; hash := 12%N |};
     {| requestID := 1; hash := 13%N |}] testConn.

(** A body with one transaction, and a block-bodies response. *)
Definition body (tx : N) : eth.BlockBody :=
  {| eth.Transactions := [tx]; eth.Uncles := [] |}.

Definition bodiesMsg (id : Z) (bodies : list eth.BlockBody) : ethp2p.Msg :=
  {| ethp2p.Code := eth.BlockBodiesMsg;
     ethp2p.Payload := eth.BlockBodiesPacket66 id bodies;
     ethp2p.Discard := None |}.

(** A header numbered n whose parent has hash n - 1. *)
Definition headerAt (n : Z) : types.Header :=
  {| types.ParentHash := Z.to_N (n - 1); types.Number := n; types.Rest := 0 |}.

(** The test connection after it has seen header 1000. *)
Definition floorConn : conn script.RW memdb.DB :=
  snd (getParentBlock (headerAt 1000) testConn).

(** A block-headers response carrying the given headers. *)
Definition headersMsg (headers : list types.Header) : ethp2p.Msg :=
  {| ethp2p.Code := eth.BlockHeadersMsg;
     ethp2p.Payload := eth.BlockHeadersPacket66 0 headers;
     ethp2p.Discard := None |}.

(** A new-block message for a block numbered n with total difficulty
    td. *)
Definition blockAt (n : Z) : types.Block :=
  {| types.header := headerAt n; types.Hash := Z.to_N n;
     types.Transactions := []; types.Uncles := [] |}.

Definition newBlockMsg (n td : Z) : ethp2p.Msg :=
  {| ethp2p.Code := eth.NewBlockMsg;
     ethp2p.Payload := eth.NewBlockPacket (blockAt n) td;
     ethp2p.Discard := None |}.

(** An announcement of the given block hashes. *)
Definition hashesMsg (hashes : list common.Hash) : ethp2p.Msg :=
  {| ethp2p.Code := eth.NewBlockHashesMsg;
     ethp2p.Payload :=
       eth.NewBlockHashesPacket (map (fun h => (h, 0)) hashes);
     ethp2p.Discard := None |}.

(** The peer's status packet, with the given network id. *)
Definition statusMsg (networkID : Z) : ethp2p.Msg :=
  {| ethp2p.Code := eth.StatusMsg;
     ethp2p.Payload :=
       eth.Status
         {| eth.ProtocolVersion := 66; eth.NetworkID := networkID;
            eth.TD := 100; eth.Head := 7%N; eth.Genesis := 7%N;
            eth.ForkID := {| forkid.Hash := 0; forkid.Next := 0 |} |};
     ethp2p.Discard := None |}.

(** A stream on which that status packet is the first message to
    arrive, followed by the given messages, and every write succeeds. *)
Definition peerRW (networkID : Z) (msgs : list ethp2p.Msg) : script.RW :=
  {| script.inbox := map Ok (statusMsg networkID :: msgs);
     script.outcomes := [] |}.

(** The test connection with the counter of blocks at the largest
    int32. *)
Definition fullCount : MessageCount :=
  {| BlockHashes := 0; Transactions := 0; BlockHeaderRequests := 0;
     BlockHeaders := 0; BlockBodiesRequests := 0; BlockBodies := 0;
     Blocks := MaxInt32; TransactionRequests := 0; TransactionHashes := 0 |}.

Definition fullConn : conn script.RW memdb.DB := set_count fullCount testConn.

(** k fetches of the same hash in a row, keeping the connection. *)
Definition fetches {RW DB : Type} `{ethp2p.MsgReadWriter RW} (k : N)
  (h : common.Hash) (c : conn RW DB) : conn RW DB :=
  N.iter k (fun c' => snd (getBlockData h c')) c.

(** ** What a computation leaves alone, and what it keeps *)

Section Frames.

Context {RW DB : Type}.

(** m leaves the part proj of the connection as it was. *)
Definition Preserves {A X : Type} (proj : conn RW DB -> X) (m : M RW DB A)
  : Prop :=
  forall c, proj (snd (m c)) = proj c.

(** m keeps the invariant I of the connection. *)
Definition Keeps {A : Type} (I : conn RW DB -> Prop) (m : M RW DB A) : Prop :=
  forall c, I c -> I (snd (m c)).

End Frames.

Section Invariants.

Context {RW DB : Type}.
Context `{ethp2p.MsgReadWriter RW} `{database.Database DB}.

(** An event that is neither a node sent to the Peers channel, nor a
    request of getBlockData, nor the log line of a backfill. *)
Definition quiet (e : Event) : Prop :=
  published [e] = [] /\ allocated [e] = [] /\ backfills [e] = [] /\
  fetched [e] = [].

(** An invariant of the dispatch loop: no update of the collaborators,
    the shared objects or the pending sequence breaks it, no quiet event
    does, and getBlockData and getParentBlock keep it. *)
Record Invariant (I : conn RW DB -> Prop) : Prop := {
  inv_rw : forall x c, I c -> I (set_rw x c);
  inv_db : forall x c, I c -> I (set_db x c);
  inv_head : forall x c, I c -> I (set_head x c);
  inv_count : forall x c, I c -> I (set_count x c);
  inv_requests : forall x c, I c -> I (set_requests x c);
  inv_emit : forall e c, quiet e -> I c -> I (emit e c);
  inv_getBlockData : forall h, Keeps I (getBlockData h);
  inv_getParentBlock : forall header, Keeps I (getParentBlock header)
}.

(** Every backfill logged in the events is for a block numbered F or
    more. *)
Definition fromFloor (F : Z) (e : Event) : Prop :=
  match e with
  | EvLog (LogFetchingParent _ n) => F <= n
  | _ => True
  end.

(** The floor of the connection is f, and since the record was evs0 no
    backfill went below it. *)
Definition Floor (f : types.Header) (evs0 : list Event) (c : conn RW DB)
  : Prop :=
  oldestBlock c = Some f /\
  exists new,
    events c = evs0 ++ new /\ Forall (fromFloor (types.Number f)) new.

(** Nothing has been sent to the Peers channel since the record was
    evs0. *)
Definition Published (evs0 : list Event) (c : conn RW DB) : Prop :=
  exists new, events c = evs0 ++ new /\ published new = [].

(** The i-th identifier after n0, i = 1, 2, ... *)
Definition nextID (n0 : Z) (i : nat) : Z := wrap64 (n0 + Z.of_nat i).

(** The k numbers that follow n0. *)
Definition consecutive (n0 : Z) (k : nat) : list Z :=
  map (fun i => n0 + Z.of_nat i) (seq 1 k).

(** Since the request counter was n0 and the record was evs0, k fetches
    were taken, for some k, and the identifiers given out are the k that
    follow n0, in order. *)
Definition Ids (n0 : Z) (evs0 : list Event) (c : conn RW DB) : Prop :=
  exists k : nat,
    requestNum c = wrap64 (n0 + Z.of_nat k) /\
    List.length (fetched (events c)) = (List.length (fetched evs0) + k)%nat /\
    allocated (events c) = allocated evs0 ++ map (nextID n0) (seq 1 k).

End Invariants.


(** ** The handshake, from the peer's side *)

(** The test stream whose first message is the given one. *)
Definition answering (msg : ethp2p.Msg) : script.RW :=
  {| script.inbox := [Ok msg]; script.outcomes := [] |}.

(** A peer of the sensor's network that runs another protocol version on
    another chain: only the network id is the sensor's. *)
Definition foreignStatus : ethp2p.Msg :=
  {| ethp2p.Code := eth.StatusMsg;
     ethp2p.Payload :=
       eth.Status
         {| eth.ProtocolVersion := 65; eth.NetworkID := 137;
            eth.TD := 0; eth.Head := 99%N; eth.Genesis := 98%N;
            eth.ForkID := {| forkid.Hash := 5; forkid.Next := 6 |} |};
     ethp2p.Discard := None |}.

(** ** The shared head across a session *)

Section Session.

Context {RW DB : Type}.
Context `{ethp2p.MsgReadWriter RW} `{database.Database DB}.

(** The values the shared head goes through: at each step some
    connection of the session, whatever its own state, handles one
    message on the head as it then stands (handleNewBlock reads and
    writes it under the head mutex). *)
Inductive HeadSteps : HeadBlock -> HeadBlock -> Prop :=
| HeadSteps_refl (h : HeadBlock) : HeadSteps h h
| HeadSteps_handle (h : HeadBlock) (c : conn RW DB) (msg : ethp2p.Msg) :
    HeadSteps h (head c) -> HeadSteps h (head (snd (dispatch msg c))).

End Session.

(** ** The database writes of a handler *)

(** The database writes in a record of effects. *)
Fixpoint writes (evs : list Event) : list Event :=
  match evs with
  | [] => []
  | EvWriteBlockHashes n hashes :: rest =>
      EvWriteBlockHashes n hashes :: writes rest
  | EvWriteTransactions n txs :: rest => EvWriteTransactions n txs :: writes rest
  | EvWriteBlockHeaders headers :: rest =>
      EvWriteBlockHeaders headers :: writes rest
  | EvWriteBlockBody body h :: rest => EvWriteBlockBody body h :: writes rest
  | EvWriteBlock n b td :: rest => EvWriteBlock n b td :: writes rest
  | _ :: rest => writes rest
  end.

(** The connection has database d, node n and the database writes w in
    its record. *)
Definition Unwritten {RW DB : Type} (d : DB) (n : enode.Node)
  (w : list Event) (c : conn RW DB) : Prop :=
  db c = d /\ node c = n /\ writes (events c) = w.

(** The test connection with its floor at header 1000, on a stream
    that refuses the next write. *)
Definition fetchFailing : conn script.RW memdb.DB :=
  set_rw {| script.inbox := []; script.outcomes := [Some (ErrIO "closed")] |}
    floorConn.

(** ** The request tracker over an execution *)

(** l is l' with some elements left out. *)
Inductive Subseq {A : Type} : list A -> list A -> Prop :=
| Subseq_nil : Subseq [] []
| Subseq_skip (x : A) (l l' : list A) : Subseq l l' -> Subseq l (x :: l')
| Subseq_take (x : A) (l l' : list A) : Subseq l l' -> Subseq (x :: l) (x :: l').


(** The identifiers of the pending requests, front first. *)
Definition pendingIDs {RW DB : Type} (c : conn RW DB) : list Z :=
  map requestID (requests c).


(** ** Messages as the dispatch loop sees them *)

(** The message codes the switch of the dispatch loop has a case for. *)
Definition handled (code : Z) : bool :=
  existsb (Z.eqb code)
    [eth.NewBlockHashesMsg; eth.TransactionsMsg; eth.GetBlockHeadersMsg;
     eth.BlockHeadersMsg; eth.GetBlockBodiesMsg; eth.BlockBodiesMsg;
     eth.NewBlockMsg; eth.NewPooledTransactionHashesMsg;
     eth.GetPooledTransactionsMsg; eth.PooledTransactionsMsg;
     eth.GetReceiptsMsg].

(** The payload is of the packet type that the handler of the message's
    code decodes. *)
Definition decodes (msg : ethp2p.Msg) : bool :=
  let code := ethp2p.Code msg in
  match ethp2p.Payload msg with
  | eth.NewBlockHashesPacket _ => code =? eth.NewBlockHashesMsg
  | eth.TransactionsPacket _ => code =? eth.TransactionsMsg
  | eth.GetBlockHeadersPacket66 _ _ _ _ _ => code =? eth.GetBlockHeadersMsg
  | eth.BlockHeadersPacket66 _ _ => code =? eth.BlockHeadersMsg
  | eth.GetBlockBodiesPacket66 _ _ => code =? eth.GetBlockBodiesMsg
  | eth.BlockBodiesPacket66 _ _ => code =? eth.BlockBodiesMsg
  | eth.NewBlockPacket _ _ => code =? eth.NewBlockMsg
  | eth.NewPooledTransactionHashesPacket _ =>
      code =? eth.NewPooledTransactionHashesMsg
  | eth.GetPooledTransactionsPacket66 _ _ =>
      code =? eth.GetPooledTransactionsMsg
  | eth.PooledTransactionsPacket66 _ _ => code =? eth.PooledTransactionsMsg
  | eth.GetReceiptsPacket66 _ _ => code =? eth.GetReceiptsMsg
  | _ => false
  end.

(** A block-bodies message whose payload is garbage, and the test
    connection about to read a given message. *)
Definition garbledMsg : ethp2p.Msg :=
  {| ethp2p.Code := eth.BlockBodiesMsg;
     ethp2p.Payload := eth.Undecodable;
     ethp2p.Discard := None |}.

Definition reading (msg : ethp2p.Msg) : conn script.RW memdb.DB :=
  set_rw (answering msg) pendingConn.

(** The response to a request of the peer: the response message of the
    request's kind with the request's identifier and nothing in it. *)
Definition reply (msg : ethp2p.Msg) : option (Z * eth.Packet) :=
  let code := ethp2p.Code msg in
  match ethp2p.Payload msg with
  | eth.GetBlockHeadersPacket66 id _ _ _ _ =>
      if code =? eth.GetBlockHeadersMsg
      then Some (eth.BlockHeadersMsg, eth.BlockHeadersPacket66 id [])
      else None
  | eth.GetBlockBodiesPacket66 id _ =>
      if code =? eth.GetBlockBodiesMsg
      then Some (eth.BlockBodiesMsg, eth.BlockBodiesPacket66 id [])
      else None
  | eth.GetPooledTransactionsPacket66 id _ =>
      if code =? eth.GetPooledTransactionsMsg
      then Some (eth.PooledTransactionsMsg,
                 eth.PooledTransactionsPacket66 id [])
      else None
  | eth.GetReceiptsPacket66 id _ =>
      if code =? eth.GetReceiptsMsg
      then Some (eth.ReceiptsMsg, eth.ReceiptsPacket66 id)
      else None
  | _ => None
  end.

(** Nothing was sent and nothing fetched: the messages sent are s, the
    stream is r and the request counter n. *)
Definition Silent {RW DB : Type} (s : list (Z * eth.Packet)) (r : RW)
  (n : Z) (c : conn RW DB) : Prop :=
  sent (events c) = s /\ rw c = r /\ requestNum c = n.

(** A request for the bodies of two blocks, and announcements of pooled
    transactions. *)
Definition getBodiesMsg (id : Z) : ethp2p.Msg :=
  {| ethp2p.Code := eth.GetBlockBodiesMsg;
     ethp2p.Payload := eth.GetBlockBodiesPacket66 id [5%N; 6%N];
     ethp2p.Discard := None |}.

Definition pooledHashesMsg (hashes : list common.Hash) : ethp2p.Msg :=
  {| ethp2p.Code := eth.NewPooledTransactionHashesMsg;
     ethp2p.Payload := eth.NewPooledTransactionHashesPacket hashes;
     ethp2p.Discard := None |}.

Definition transactionsMsg (txs : list types.Transaction) : ethp2p.Msg :=
  {| ethp2p.Code := eth.TransactionsMsg;
     ethp2p.Payload := eth.TransactionsPacket txs;
     ethp2p.Discard := None |}.

(** The test connection on a database that stores blocks only. *)
Definition blocksOnlyConn : conn script.RW memdb.DB :=
  set_db
    {| memdb.writeBlocks := true; memdb.writeBlockEvents := true;
       memdb.writeTransactions := false;
       memdb.writeTransactionEvents := true; memdb.blocks := [] |}
    testConn.

(** ** The counters over the dispatch loop *)

(** The items of counter k carried by the messages read. *)
Fixpoint tally (k : Counter) (rs : list (Res ethp2p.Msg)) : Z :=
  match rs with
  | [] => 0
  | Ok msg :: rest => carriedBy k msg + tally k rest
  | Err _ :: rest => tally k rest
  end.

(** Nothing has been read from the stream since the record was evs0. *)
Definition Unread {RW DB : Type} (evs0 : list Event) (c : conn RW DB)
  : Prop :=
  exists new, events c = evs0 ++ new /\ reads new = [].

(** The test connection about to read an announcement of two hashes, a
    message that does not decode and one more announcement. *)
Definition busyConn : conn script.RW memdb.DB :=
  set_rw
    {| script.inbox :=
         [Ok (hashesMsg [5%N; 6%N]); Ok garbledMsg; Ok (hashesMsg [7%N])];
       script.outcomes := [] |}
    testConn.

(** ** The backfills of a response *)

(** The block a backfill for this header asks for: its parent, by hash
    and number. *)
Definition parentOf (header : types.Header) : common.Hash * Z :=
  (types.ParentHash header, types.Number header - 1).

(** The requests of fetches of the hashes hs in a row when every send is
    accepted and the request counter is n at the start: for each hash
    the get-headers request of getBlockData, then its get-bodies
    request, under the next identifier. *)
Fixpoint fetchRequests (n : Z) (hs : list common.Hash)
  : list (Z * eth.Packet) :=
  match hs with
  | [] => []
  | h :: rest =>
      (eth.GetBlockHeadersMsg, headersRequest h)
      :: (eth.GetBlockBodiesMsg, bodiesRequest (incr64 n) h)
      :: fetchRequests (incr64 n) rest
  end.

(** s is l, or l without its last element: what is left of a row of
    sends when the last one may be missing. *)
Definition UpToLast {A : Type} (s l : list A) : Prop :=
  s = l \/ exists x, l = s ++ [x].

(** What the backfill policy did from c to c' on account of the headers,
    with the floor numbered F: the backfills logged are for parents of
    the headers, in their order, none numbered below F; and the messages
    handed to ethp2p.Send are the requests of the fetches of those
    parents and nothing else, the last request missing when the
    get-headers request of the last fetch was refused. *)
Definition Backfilled {RW DB : Type} (F : Z) (headers : list types.Header)
  (c c' : conn RW DB) : Prop :=
  exists l,
    backfills (events c') = backfills (events c) ++ l /\
    Subseq l (map parentOf headers) /\
    Forall (fun b => F <= snd b) l /\
    (exists s,
       sent (events c') = sent (events c) ++ s /\
       UpToLast s (fetchRequests (requestNum c) (map fst l))) /\
    (exists g,
       fetched (events c') = fetched (events c) ++ g /\
       UpToLast g (map fst l)).

(** The connection with its floor at header 1000 after a block-headers
    response carrying headers 1005 and 990. *)
Definition backfilledConn : conn script.RW memdb.DB :=
  snd (dispatch (headersMsg [headerAt 1005; headerAt 990]) floorConn).

(** * Properties *)

(** ** Machine integers *)

Lemma Int32_small (z : Z) : IsInt32 z -> Int32 z = z.
Proof.
  unfold IsInt32, MinInt32, MaxInt32, Int32. intros Hz.
  rewrite Z.mod_small; lia.
Qed.

Lemma Uint64_mod (z : Z) : Uint64 z = Z.abs z mod 2 ^ 64.
Proof.
  unfold Uint64. change MaxUint64 with (Z.ones 64).
  apply Z.land_ones. lia.
Qed.

Lemma Uint64_small (z : Z) : 0 <= z <= MaxUint64 -> Uint64 z = z.
Proof.
  intros Hz. unfold MaxUint64 in Hz. rewrite Uint64_mod, Z.abs_eq by lia.
  apply Z.mod_small. lia.
Qed.

Lemma Cmp_is_1 (x y : Z) : (Cmp x y =? 1) = (y <? x).
Proof.
  unfold Cmp, Z.ltb. rewrite (Z.compare_antisym y x).
  destruct (y ?= x); reflexivity.
Qed.

Lemma len_nonneg {A : Type} (l : list A) : 0 <= len l.
Proof. unfold len. lia. Qed.

Lemma len_cons {A : Type} (a : A) (l : list A) : len (a :: l) = 1 + len l.
Proof. unfold len. cbn [List.length]. lia. Qed.

(** ** The monad *)

Section FrameRules.

Context {RW DB : Type}.
Context `{ethp2p.MsgReadWriter RW} `{database.Database DB}.

Local Abbreviation conn := (conn RW DB).
Local Abbreviation M := (M RW DB).

Lemma bind_run {A B : Type} (m : M A) (k : A -> M B) (c : conn) :
  bind m k c =
    match fst (m c) with
    | Ok a => k a (snd (m c))
    | Err e => (Err e, snd (m c))
    end.
Proof. unfold bind. destruct (m c) as [[a | e] c']; reflexivity. Qed.

Section Preserving.

Context {X : Type} (proj : conn -> X).

Lemma Preserves_ret {A : Type} (a : A) : Preserves proj (ret a).
Proof. intro c. reflexivity. Qed.

Lemma Preserves_throw {A : Type} (e : error) : Preserves proj (@throw _ _ A e).
Proof. intro c. reflexivity. Qed.

Lemma Preserves_gets {A : Type} (f : conn -> A) : Preserves proj (gets f).
Proof. intro c. reflexivity. Qed.

Lemma Preserves_bind {A B : Type} (m : M A) (k : A -> M B) :
  Preserves proj m -> (forall a, Preserves proj (k a)) ->
  Preserves proj (bind m k).
Proof.
  intros Hm Hk c. rewrite bind_run. specialize (Hm c).
  destruct (fst (m c)) as [a | e]; simpl.
  - rewrite Hk. exact Hm.
  - exact Hm.
Qed.

Lemma Preserves_tail {A B : Type} (m : M A) (k : A -> M B) (c : conn) :
  (forall a, Preserves proj (k a)) ->
  proj (snd (bind m k c)) = proj (snd (m c)).
Proof.
  intros Hk. rewrite bind_run.
  destruct (fst (m c)) as [a | e]; simpl; [apply Hk | reflexivity].
Qed.

Lemma Preserves_modify (f : conn -> conn) :
  (forall c, proj (f c) = proj c) -> Preserves proj (modify f).
Proof. intros Hf c. apply Hf. Qed.

Lemma Preserves_Send (code : Z) (data : eth.Packet) :
  (forall c x e, proj (emit e (set_rw x c)) = proj c) ->
  Preserves proj (Send code data).
Proof.
  intros Hp c. unfold Send.
  destruct (ethp2p.WriteMsg (rw c) code data) as [[e |] rw']; apply Hp.
Qed.

Lemma Preserves_ReadMsg :
  (forall c x e, proj (emit e (set_rw x c)) = proj c) ->
  Preserves proj ReadMsg.
Proof.
  intros Hp c. unfold ReadMsg.
  destruct (ethp2p.ReadMsg (rw c)) as [r rw']. apply Hp.
Qed.

End Preserving.

Section Keeping.

Context (I : conn -> Prop).

Lemma Keeps_ret {A : Type} (a : A) : Keeps I (ret a).
Proof. intros c Hc. exact Hc. Qed.

Lemma Keeps_throw {A : Type} (e : error) : Keeps I (@throw _ _ A e).
Proof. intros c Hc. exact Hc. Qed.

Lemma Keeps_gets {A : Type} (f : conn -> A) : Keeps I (gets f).
Proof. intros c Hc. exact Hc. Qed.

Lemma Keeps_bind {A B : Type} (m : M A) (k : A -> M B) :
  Keeps I m -> (forall a, Keeps I (k a)) -> Keeps I (bind m k).
Proof.
  intros Hm Hk c Hc. rewrite bind_run. specialize (Hm c Hc).
  destruct (fst (m c)) as [a | e]; simpl; [apply Hk |]; exact Hm.
Qed.

Lemma Keeps_modify (f : conn -> conn) :
  (forall c, I c -> I (f c)) -> Keeps I (modify f).
Proof. intros Hf c Hc. apply Hf, Hc. Qed.

Lemma Keeps_Send (code : Z) (data : eth.Packet) :
  (forall c x r, I c -> I (emit (EvSend code data r) (set_rw x c))) ->
  Keeps I (Send code data).
Proof.
  intros Hp c Hc. unfold Send.
  destruct (ethp2p.WriteMsg (rw c) code data) as [[e |] rw']; apply Hp, Hc.
Qed.

Lemma Keeps_ReadMsg :
  (forall c x r, I c -> I (emit (EvRead r) (set_rw x c))) ->
  Keeps I ReadMsg.
Proof.
  intros Hp c Hc. unfold ReadMsg.
  destruct (ethp2p.ReadMsg (rw c)) as [r rw']. apply Hp, Hc.
Qed.

End Keeping.

End FrameRules.

(** Decomposes a frame goal along the structure of the computation. *)
Ltac frame :=
  unfold logger, dbWrite, atomicAdd;
  repeat lazymatch goal with
    | |- Preserves _ (match ?x with _ => _ end) => destruct x
    | |- Preserves _ (ret _) => apply Preserves_ret
    | |- Preserves _ (throw _) => apply Preserves_throw
    | |- Preserves _ (gets _) => apply Preserves_gets
    | |- Preserves _ (bind _ _) => apply Preserves_bind; [ | intro ]
    | |- Preserves _ (modify _) => apply Preserves_modify; intros; reflexivity
    | |- Preserves _ (Send _ _) => apply Preserves_Send; intros; reflexivity
    | |- Preserves _ ReadMsg => apply Preserves_ReadMsg; intros; reflexivity
    end.

(** The same for an invariant; known applies what is already proved
    about the computations called, step proves that the invariant
    survives one update of the connection. *)
Ltac keeps known step :=
  unfold logger, dbWrite, atomicAdd;
  repeat lazymatch goal with
    | |- Keeps _ (match ?x with _ => _ end) => destruct x
    | |- Keeps _ (ret _) => apply Keeps_ret
    | |- Keeps _ (throw _) => apply Keeps_throw
    | |- Keeps _ (gets _) => apply Keeps_gets
    | |- Keeps _ (bind _ _) => apply Keeps_bind; [ | intro ]
    | |- Keeps _ (modify _) => apply Keeps_modify; intros ? ?; step
    | |- Keeps _ (Send _ _) => apply Keeps_Send; intros ? ? ? ?; step
    | |- Keeps _ ReadMsg => apply Keeps_ReadMsg; intros ? ? ? ?; step
    | |- Keeps _ _ => known
    end.

(** ** Reading the record *)

Lemma backfills_app (l1 l2 : list Event) :
  backfills (l1 ++ l2) = backfills l1 ++ backfills l2.
Proof.
  induction l1 as [| e l1 IH]; [reflexivity |].
  destruct e as [| | | [] | | | | |]; simpl; rewrite IH; reflexivity.
Qed.

Lemma sent_app (l1 l2 : list Event) : sent (l1 ++ l2) = sent l1 ++ sent l2.
Proof.
  induction l1 as [| e l1 IH]; [reflexivity |].
  destruct e; simpl; rewrite IH; reflexivity.
Qed.

Lemma allocated_app (l1 l2 : list Event) :
  allocated (l1 ++ l2) = allocated l1 ++ allocated l2.
Proof.
  induction l1 as [| e l1 IH]; [reflexivity |].
  destruct e as [code [] r | | | | | | | |]; simpl; try exact IH.
  destruct (code =? eth.GetBlockBodiesMsg); simpl; rewrite IH; reflexivity.
Qed.

Lemma fetched_app (l1 l2 : list Event) :
  fetched (l1 ++ l2) = fetched l1 ++ fetched l2.
Proof.
  induction l1 as [| e l1 IH]; [reflexivity |].
  destruct e as [code [] [] | | | | | | | |]; simpl; try exact IH.
  destruct (code =? eth.GetBlockHeadersMsg); simpl; rewrite IH; reflexivity.
Qed.

Lemma published_app (l1 l2 : list Event) :
  published (l1 ++ l2) = published l1 ++ published l2.
Proof.
  induction l1 as [| e l1 IH]; [reflexivity |].
  destruct e; simpl; rewrite IH; reflexivity.
Qed.

Lemma bodiesWritten_app (l1 l2 : list Event) :
  bodiesWritten (l1 ++ l2) = bodiesWritten l1 ++ bodiesWritten l2.
Proof.
  induction l1 as [| e l1 IH]; [reflexivity |].
  destruct e; simpl; rewrite IH; reflexivity.
Qed.

Lemma allocated_app_other (l new : list Event) :
  allocated new = [] -> allocated (l ++ new) = allocated l.
Proof. intros E. rewrite allocated_app, E. apply app_nil_r. Qed.

(** ** getBlockData and getParentBlock *)

Section Fetching.

Context {RW DB : Type}.
Context `{ethp2p.MsgReadWriter RW} `{database.Database DB}.

Local Abbreviation conn := (conn RW DB).
Local Abbreviation M := (M RW DB).

(** getBlockData, step by step. *)
Lemma getBlockData_run (h : common.Hash) (c : conn) :
  getBlockData h c =
    match ethp2p.WriteMsg (rw c) eth.GetBlockHeadersMsg (headersRequest h) with
    | (Some e, rw1) =>
        (Err e,
         emit (EvSend eth.GetBlockHeadersMsg (headersRequest h) (Some e))
           (set_rw rw1 c))
    | (None, rw1) =>
        let id := incr64 (requestNum c) in
        match
          ethp2p.WriteMsg rw1 eth.GetBlockBodiesMsg (bodiesRequest id h)
        with
        | (r, rw2) =>
            (result r,
             emit (EvSend eth.GetBlockBodiesMsg (bodiesRequest id h) r)
               (set_rw rw2
                  (set_requests
                     (requests c ++ [{| requestID := id; hash := h |}])
                     (set_requestNum id
                        (emit
                           (EvSend eth.GetBlockHeadersMsg (headersRequest h)
                              None)
                           (set_rw rw1 c))))))
        end
    end.
Proof.
  unfold getBlockData, bind, Send, modify, gets, headersRequest,
    bodiesRequest.
  destruct (ethp2p.WriteMsg (rw c) eth.GetBlockHeadersMsg _)
    as [[e |] rw1]; [reflexivity |].
  cbn -[incr64].
  destruct (ethp2p.WriteMsg rw1 eth.GetBlockBodiesMsg _) as [[e |] rw2];
    reflexivity.
Qed.

Lemma getBlockData_count (h : common.Hash) :
  Preserves count (getBlockData h : M unit).
Proof. unfold getBlockData. frame. Qed.

Lemma getParentBlock_head (header : types.Header) :
  Preserves head (getParentBlock header : M unit).
Proof. unfold getParentBlock, getBlockData. frame. Qed.

Lemma getParentBlock_count (header : types.Header) :
  Preserves count (getParentBlock header : M unit).
Proof. unfold getParentBlock, getBlockData. frame. Qed.

(** C10: when the get-headers send of getBlockData fails, the error is
    returned and neither the request counter nor the pending sequence
    has changed; when it succeeds, the next identifier is taken and the
    entry is appended before the get-bodies send, so the entry is in the
    pending sequence whether that second send succeeds or fails, and the
    call returns what the second send returned. *)
Theorem getBlockData_send_failures (h : common.Hash) (c : conn) :
  (forall e rw1,
     ethp2p.WriteMsg (rw c) eth.GetBlockHeadersMsg (headersRequest h)
       = (Some e, rw1) ->
     fst (getBlockData h c) = Err e /\
     requestNum (snd (getBlockData h c)) = requestNum c /\
     requests (snd (getBlockData h c)) = requests c /\
     allocated (events (snd (getBlockData h c))) = allocated (events c)) /\
  (forall rw1 r rw2,
     ethp2p.WriteMsg (rw c) eth.GetBlockHeadersMsg (headersRequest h)
       = (None, rw1) ->
     ethp2p.WriteMsg rw1 eth.GetBlockBodiesMsg
       (bodiesRequest (incr64 (requestNum c)) h) = (r, rw2) ->
     fst (getBlockData h c) = result r /\
     requestNum (snd (getBlockData h c)) = incr64 (requestNum c) /\
     requests (snd (getBlockData h c)) =
       requests c ++ [{| requestID := incr64 (requestNum c); hash := h |}] /\
     events (snd (getBlockData h c)) =
       events c ++
       [EvSend eth.GetBlockHeadersMsg (headersRequest h) None;
        EvSend eth.GetBlockBodiesMsg
          (bodiesRequest (incr64 (requestNum c)) h) r]).
Proof.
  split.
  - intros e rw1 E1. rewrite getBlockData_run, E1. simpl.
    repeat split. apply allocated_app_other. reflexivity.
  - intros rw1 r rw2 E1 E2. rewrite getBlockData_run, E1. cbn zeta.
    rewrite E2. simpl. rewrite <- app_assoc. repeat split.
Qed.

End Fetching.

(** On a stream that refuses the first write nothing is allocated; on
    one that refuses the second write the new entry stays pending. *)
Lemma getBlockData_send_failures_witness :
  (fst (getBlockData 5%N (refusing [Some (ErrIO "closed")]))
     = Err (ErrIO "closed") /\
   requestNum (snd (getBlockData 5%N (refusing [Some (ErrIO "closed")]))) = 0 /\
   requests (snd (getBlockData 5%N (refusing [Some (ErrIO "closed")]))) = []) /\
  (fst (getBlockData 5%N (refusing [None; Some (ErrIO "closed")]))
     = Err (ErrIO "closed") /\
   requests (snd (getBlockData 5%N (refusing [None; Some (ErrIO "closed")])))
     = [{| requestID := 1; hash := 5%N |}]).
Proof.
  split.
  - destruct
      (getBlockData_send_failures 5%N (refusing [Some (ErrIO "closed")]))
      as [Hfail _].
    destruct (Hfail _ _ eq_refl) as (R & N & Q & _).
    exact (conj R (conj N Q)).
  - destruct
      (getBlockData_send_failures 5%N
         (refusing [None; Some (ErrIO "closed")]))
      as [_ Hsent].
    destruct (Hsent _ _ _ eq_refl eq_refl) as (R & _ & Q & _).
    exact (conj R Q).
Defined.

(** ** The handlers *)

Section Handlers.

Context {RW DB : Type}.
Context `{ethp2p.MsgReadWriter RW} `{database.Database DB}.

Local Abbreviation conn := (conn RW DB).
Local Abbreviation M := (M RW DB).

(** C7: a block-bodies response with an empty payload returns success
    and changes nothing: no counter, not the pending sequence, nor any
    other part of the connection. *)
Theorem handleBlockBodies_empty (code id : Z) (d : option error) (c : conn) :
  let msg :=
    {| ethp2p.Code := code;
       ethp2p.Payload := eth.BlockBodiesPacket66 id [];
       ethp2p.Discard := d |} in
  fst (handleBlockBodies msg c) = Ok tt /\
  count (snd (handleBlockBodies msg c)) = count c /\
  requests (snd (handleBlockBodies msg c)) = requests c /\
  snd (handleBlockBodies msg c) = c.
Proof. repeat split. Qed.

(** The head after handleNewBlock is decided by the two comparisons
    alone: neither the backfill nor the database write touches it. *)
Lemma handleNewBlock_head (code : Z) (block : types.Block) (td : Z)
  (d : option error) (c : conn) :
  head (snd (handleNewBlock
               {| ethp2p.Code := code;
                  ethp2p.Payload := eth.NewBlockPacket block td;
                  ethp2p.Discard := d |} c)) =
    if (Number (head c) <? Number (candidate block td))
       && (TotalDifficulty (head c) <? td)
    then candidate block td
    else head c.
Proof.
  unfold handleNewBlock. cbn [ethp2p.Payload].
  replace ((Number (head c) <? Number (candidate block td))
           && (TotalDifficulty (head c) <? td))
    with ((Uint64 (types.BlockNumber block) >? Number (head c))
          && (Cmp td (TotalDifficulty (head c)) =? 1))
    by (rewrite Cmp_is_1, Z.gtb_ltb; reflexivity).
  rewrite bind_run. cbn [atomicAdd modify fst snd].
  rewrite bind_run. cbn [gets fst snd].
  rewrite Preserves_tail.
  2:{ intros _. apply Preserves_bind; [apply getParentBlock_head | intro].
      frame. }
  cbn [head set_count].
  destruct ((Uint64 (types.BlockNumber block) >? Number (head c))
            && (Cmp td (TotalDifficulty (head c)) =? 1));
    reflexivity.
Qed.

(** C1, amended: handling a new-block message replaces the shared head
    exactly when the candidate's number is strictly greater than the
    head's and the candidate's total difficulty is strictly greater than
    the head's, the total difficulty compared as an exact integer; it is
    then replaced by the whole candidate record, and otherwise the
    record is the one it was.  The candidate's number is not the block's
    number but Number().Uint64() of it, the low 64 bits of its absolute
    value: the number the comparison uses and the head record stores.
    For a block number from 0 to 2^64-1 the two are the same, and the
    head is replaced exactly when the block's own number and total
    difficulty are both strictly greater. *)
Theorem handleNewBlock_replaces_head (code : Z) (block : types.Block)
  (td : Z) (d : option error) (c : conn) :
  let msg :=
    {| ethp2p.Code := code;
       ethp2p.Payload := eth.NewBlockPacket block td;
       ethp2p.Discard := d |} in
  let c' := snd (handleNewBlock msg c) in
  let better :=
    Number (head c) < Number (candidate block td) /\
    TotalDifficulty (head c) < TotalDifficulty (candidate block td) in
  (better -> head c' = candidate block td) /\
  (~ better -> head c' = head c) /\
  (head c' <> head c <-> better) /\
  (0 <= types.BlockNumber block <= MaxUint64 ->
   Number (candidate block td) = types.BlockNumber block) /\
  (0 <= types.BlockNumber block <= MaxUint64 ->
   (head c' <> head c <->
    Number (head c) < types.BlockNumber block /\
    TotalDifficulty (head c) < td)).
Proof.
  intros msg c' better. subst msg c' better.
  rewrite handleNewBlock_head. cbn [TotalDifficulty candidate Number].
  assert (Hfit : 0 <= types.BlockNumber block <= MaxUint64 ->
                 Uint64 (types.BlockNumber block) = types.BlockNumber block)
    by apply Uint64_small.
  destruct (Z.ltb_spec (Number (head c)) (Uint64 (types.BlockNumber block)))
    as [Hn | Hn];
    destruct (Z.ltb_spec (TotalDifficulty (head c)) td) as [Ht | Ht];
    cbn [andb].
  - assert (D : candidate block td <> head c).
    { intros E. rewrite <- E in Hn. cbn [Number candidate] in Hn. lia. }
    split; [reflexivity |].
    split; [intros Hnot; exfalso; apply Hnot; split; assumption |].
    split; [split; [split; assumption | intros _; exact D] |].
    split; [exact Hfit |].
    intros Hr. rewrite (Hfit Hr) in Hn.
    split; [split; assumption | intros _; exact D].
  - split; [lia |]. split; [reflexivity |].
    split; [split; [intros D; exfalso; apply D; reflexivity | lia] |].
    split; [exact Hfit |]. intros _.
    split; [intros D; exfalso; apply D; reflexivity | lia].
  - split; [lia |]. split; [reflexivity |].
    split; [split; [intros D; exfalso; apply D; reflexivity | lia] |].
    split; [exact Hfit |]. intros Hr. rewrite (Hfit Hr) in Hn.
    split; [intros D; exfalso; apply D; reflexivity | lia].
  - split; [lia |]. split; [reflexivity |].
    split; [split; [intros D; exfalso; apply D; reflexivity | lia] |].
    split; [exact Hfit |]. intros _.
    split; [intros D; exfalso; apply D; reflexivity | lia].
Qed.

(** The loop over the pending requests stops at the first request with
    the identifier and removes it. *)
Lemma scanRequests_found (id : Z) (l1 l2 : list request) (r : request) :
  requestID r = id ->
  (forall r', In r' l1 -> requestID r' <> id) ->
  scanRequests id (l1 ++ r :: l2) = (Some (hash r), l1 ++ l2).
Proof.
  intros Hr. induction l1 as [| r1 l1 IH]; intros Hl1; simpl.
  - apply Z.eqb_eq in Hr. rewrite Hr. reflexivity.
  - destruct (Z.eqb_spec (requestID r1) id) as [E | _].
    + exfalso. apply (Hl1 r1); [left; reflexivity | exact E].
    + rewrite IH; [reflexivity |]. intros r' Hin. apply Hl1. right. exact Hin.
Qed.

(** Without such a request the loop leaves the list as it is. *)
Lemma scanRequests_missing (id : Z) (l : list request) :
  (forall r, In r l -> requestID r <> id) -> scanRequests id l = (None, l).
Proof.
  induction l as [| r l IH]; intros Hl; simpl; [reflexivity |].
  destruct (Z.eqb_spec (requestID r) id) as [E | _].
  - exfalso. apply (Hl r); [left; reflexivity | exact E].
  - rewrite IH; [reflexivity |]. intros r' Hin. apply Hl. right. exact Hin.
Qed.

(** handleBlockBodies on a non-empty payload, step by step. *)
Lemma handleBlockBodies_run (code id : Z) (body0 : eth.BlockBody)
  (more : list eth.BlockBody) (d : option error) (c : conn) :
  handleBlockBodies
    {| ethp2p.Code := code;
       ethp2p.Payload := eth.BlockBodiesPacket66 id (body0 :: more);
       ethp2p.Discard := d |} c =
    let c1 :=
      set_count (add_BlockBodies (Int32 (len (body0 :: more))) (count c)) c in
    match scanRequests id (requests c) with
    | (None, l') => (Ok tt, emit (EvLog LogNoBlockHash) (set_requests l' c1))
    | (Some h, l') =>
        (Ok tt,
         emit (EvWriteBlockBody body0 h)
           (set_db (database.WriteBlockBody (db c) body0 h)
              (set_requests l' c1)))
    end.
Proof.
  unfold handleBlockBodies. cbn [ethp2p.Payload].
  unfold bind, atomicAdd, modify, gets, logger, dbWrite.
  cbn [requests set_count].
  destruct (scanRequests id (requests c)) as [[h |] l']; reflexivity.
Qed.

(** C3: for a non-empty block-bodies response the handler returns
    success; if the pending sequence, read from the front, has a first
    entry with the response's identifier, exactly that entry is removed
    and the first body of the response is written to the database under
    the hash the entry recorded; if no entry has the identifier, the
    pending sequence and the database stay as they were and the only
    effect is the warning. *)
Theorem handleBlockBodies_correlation (code id : Z) (body0 : eth.BlockBody)
  (more : list eth.BlockBody) (d : option error) (c : conn) :
  let msg :=
    {| ethp2p.Code := code;
       ethp2p.Payload := eth.BlockBodiesPacket66 id (body0 :: more);
       ethp2p.Discard := d |} in
  let c' := snd (handleBlockBodies msg c) in
  fst (handleBlockBodies msg c) = Ok tt /\
  (forall l1 r l2,
     requests c = l1 ++ r :: l2 ->
     requestID r = id ->
     (forall r', In r' l1 -> requestID r' <> id) ->
     requests c' = l1 ++ l2 /\
     events c' = events c ++ [EvWriteBlockBody body0 (hash r)] /\
     db c' = database.WriteBlockBody (db c) body0 (hash r)) /\
  ((forall r, In r (requests c) -> requestID r <> id) ->
   requests c' = requests c /\
   events c' = events c ++ [EvLog LogNoBlockHash] /\
   db c' = db c).
Proof.
  intros msg c'. subst msg c'. rewrite handleBlockBodies_run. cbn zeta.
  split; [| split].
  - destruct (scanRequests id (requests c)) as [[h |] l']; reflexivity.
  - intros l1 r l2 E Hr Hl1.
    rewrite E, (scanRequests_found id l1 l2 r Hr Hl1). repeat split.
  - intros Hl. rewrite (scanRequests_missing id (requests c) Hl).
    repeat split.
Qed.

End Handlers.

(** Identifier 1 is pending twice: the response removes the first of the
    two entries and resolves to its hash.  Identifier 9 is not pending:
    the sequence stays as it was. *)
Lemma handleBlockBodies_correlation_witness :
  (requests (snd (handleBlockBodies (bodiesMsg 1 [body 21; body 22])
                    pendingConn)) =
     [{| requestID := 2; hash := 12%N |}; {| requestID := 1; hash := 13%N |}] /\
   bodiesWritten
     (events (snd (handleBlockBodies (bodiesMsg 1 [body 21; body 22])
                     pendingConn))) = [(body 21, 11%N)]) /\
  (requests (snd (handleBlockBodies (bodiesMsg 9 [body 21]) pendingConn)) =
     requests pendingConn /\
   events (snd (handleBlockBodies (bodiesMsg 9 [body 21]) pendingConn)) =
     [EvLog LogNoBlockHash]).
Proof.
  split.
  - destruct
      (handleBlockBodies_correlation eth.BlockBodiesMsg 1 (body 21) [body 22]
         None pendingConn) as (_ & Hfound & _).
    destruct
      (Hfound [] {| requestID := 1; hash := 11%N |}
         [{| requestID := 2; hash := 12%N |};
          {| requestID := 1; hash := 13%N |}]
         eq_refl eq_refl (fun r' (F : In r' []) => match F with end))
      as (Q & E & _).
    split; [exact Q |].
    unfold bodiesMsg. rewrite E. reflexivity.
  - destruct
      (handleBlockBodies_correlation eth.BlockBodiesMsg 9 (body 21) []
         None pendingConn) as (_ & _ & Hmissing).
    assert (Hl : forall r, In r (requests pendingConn) -> requestID r <> 9).
    { intros r [E | [E | [E | []]]]; subst r; discriminate. }
    destruct (Hmissing Hl) as (Q & E & _).
    split; [exact Q | exact E].
Defined.

(** ** Invariants of the dispatch loop *)

Section Dispatching.

Context {RW DB : Type}.
Context `{ethp2p.MsgReadWriter RW} `{database.Database DB}.
Context (I : conn RW DB -> Prop) (HI : Invariant I).

Local Abbreviation conn := (conn RW DB).
Local Abbreviation M := (M RW DB).

(** One update of the connection by a handler. *)
Ltac inv_step :=
  repeat first
    [ assumption
    | apply (inv_rw I HI)
    | apply (inv_db I HI)
    | apply (inv_head I HI)
    | apply (inv_count I HI)
    | apply (inv_requests I HI)
    | apply (inv_emit I HI); [ repeat split; reflexivity | ] ].

Lemma rangeNewBlockHashes_keeps (packet : list (common.Hash * Z))
  (hashes : list common.Hash) :
  Keeps I (rangeNewBlockHashes packet hashes).
Proof.
  revert hashes. induction packet as [| hash rest IH]; intros hashes; simpl.
  - apply Keeps_ret.
  - apply Keeps_bind; [apply (inv_getBlockData I HI) | intros _; apply IH].
Qed.

Lemma rangeHeaders_keeps (headers : list types.Header) :
  Keeps I (rangeHeaders headers).
Proof.
  induction headers as [| header rest IH]; simpl.
  - apply Keeps_ret.
  - apply Keeps_bind; [apply (inv_getParentBlock I HI) | intros _; apply IH].
Qed.

Ltac inv_known :=
  first
    [ apply (inv_getBlockData I HI)
    | apply (inv_getParentBlock I HI)
    | apply rangeNewBlockHashes_keeps
    | apply rangeHeaders_keeps ].

Lemma dispatch_keeps (msg : ethp2p.Msg) : Keeps I (dispatch msg).
Proof.
  unfold dispatch, handleNewBlockHashes, handleTransactions,
    handleGetBlockHeaders, handleBlockHeaders, handleGetBlockBodies,
    handleBlockBodies, handleNewBlock, handleNewPooledTransactionHashes,
    handleGetPooledTransactions, handlePooledTransactions, handleGetReceipts.
  cbn zeta.
  repeat match goal with
         | |- Keeps _ (if ?b then _ else _) => destruct b
         end;
    keeps inv_known inv_step.
Qed.

Lemma iteration_keeps : Keeps I iteration.
Proof.
  unfold iteration.
  apply Keeps_bind; [apply Keeps_ReadMsg; intros; inv_step | intros msg].
  apply Keeps_bind.
  - intros c Hc. pose proof (dispatch_keeps msg c Hc) as Hd.
    destruct (dispatch msg c) as [[a | e] c']; simpl in *; [exact Hd |].
    inv_step.
  - intros _. destruct (ethp2p.Discard msg);
      [apply Keeps_throw | apply Keeps_ret].
Qed.

Lemma loop_keeps (fuel : nat) (c : conn) : I c -> I (snd (loop fuel c)).
Proof.
  revert c. induction fuel as [| fuel IH]; intros c Hc; simpl; [exact Hc |].
  pose proof (iteration_keeps c Hc) as Hi.
  destruct (iteration c) as [[a | e] c']; simpl in *; [apply IH |]; exact Hi.
Qed.

Lemma Steps_keeps (c c' : conn) : Steps c c' -> I c -> I c'.
Proof.
  intros HS Hc. induction HS as [c | c c1 msg HS IH | c c1 d h k HS IH].
  - exact Hc.
  - apply dispatch_keeps, IH, Hc.
  - unfold interfere. specialize (IH Hc). inv_step.
Qed.

End Dispatching.

(** ** The three invariants *)

Section TheInvariants.

Context {RW DB : Type}.
Context `{ethp2p.MsgReadWriter RW} `{database.Database DB}.

Local Abbreviation conn := (conn RW DB).
Local Abbreviation M := (M RW DB).

(** getParentBlock, case by case. *)
Lemma getParentBlock_run (header : types.Header) (c : conn) :
  getParentBlock header c =
    if negb (database.ShouldWriteBlocks (db c))
       || negb (database.ShouldWriteBlockEvents (db c))
    then (Ok tt, c)
    else
      match oldestBlock c with
      | None =>
          (Ok tt,
           set_oldestBlock (Some header)
             (emit (EvLog (LogSettingOldestBlock header)) c))
      | Some oldest =>
          if database.HasBlock (db c) (types.ParentHash header)
             || negb (types.Number oldest <? types.Number header)
          then (Ok tt, c)
          else
            getBlockData (types.ParentHash header)
              (emit
                 (EvLog
                    (LogFetchingParent (types.ParentHash header)
                       (types.Number header - 1))) c)
      end.
Proof.
  unfold getParentBlock. rewrite bind_run. cbn [gets fst snd].
  destruct (negb (database.ShouldWriteBlocks (db c))
            || negb (database.ShouldWriteBlockEvents (db c)));
    [reflexivity |].
  rewrite bind_run. cbn [gets fst snd].
  destruct (oldestBlock c) as [oldest |]; [| reflexivity].
  rewrite Cmp_is_1.
  destruct (database.HasBlock (db c) (types.ParentHash header)
            || negb (types.Number oldest <? types.Number header));
    reflexivity.
Qed.

(** *** The floor *)

Lemma Floor_emit (f : types.Header) (evs0 : list Event) (e : Event)
  (c : conn) :
  fromFloor (types.Number f) e -> Floor f evs0 c -> Floor f evs0 (emit e c).
Proof.
  intros He (Hf & new & E & F). split; [exact Hf |].
  exists (new ++ [e]). cbn [events emit]. rewrite E, app_assoc.
  split; [reflexivity |]. apply Forall_app. split; [exact F | auto].
Qed.

Lemma quiet_fromFloor (F : Z) (e : Event) : quiet e -> fromFloor F e.
Proof.
  intros (_ & _ & Hb & _). destruct e as [| | | [] | | | | |]; simpl; trivial.
  discriminate Hb.
Qed.

Lemma getBlockData_Floor (f : types.Header) (evs0 : list Event)
  (h : common.Hash) :
  Keeps (Floor f evs0) (getBlockData h : M unit).
Proof.
  unfold getBlockData.
  keeps idtac
    ltac:(first [assumption | apply Floor_emit; [exact I | assumption]]).
Qed.

Lemma getParentBlock_Floor (f : types.Header) (evs0 : list Event)
  (header : types.Header) :
  Keeps (Floor f evs0) (getParentBlock header : M unit).
Proof.
  intros c Hc. rewrite getParentBlock_run.
  destruct (negb (database.ShouldWriteBlocks (db c))
            || negb (database.ShouldWriteBlockEvents (db c)));
    [exact Hc |].
  pose proof Hc as (Hf & _). rewrite Hf.
  destruct (database.HasBlock (db c) (types.ParentHash header));
    [exact Hc |].
  destruct (Z.ltb_spec (types.Number f) (types.Number header)) as [Hlt | _];
    [| exact Hc].
  cbn [negb orb]. apply getBlockData_Floor, Floor_emit; [| exact Hc].
  simpl. lia.
Qed.

Lemma Floor_Invariant (f : types.Header) (evs0 : list Event) :
  Invariant (Floor f evs0 : conn -> Prop).
Proof.
  constructor; try (intros x c Hc; exact Hc).
  - intros e c He. apply Floor_emit, quiet_fromFloor, He.
  - apply getBlockData_Floor.
  - apply getParentBlock_Floor.
Qed.

Lemma backfills_fromFloor (F : Z) (new : list Event) :
  Forall (fromFloor F) new ->
  forall h n, In (h, n) (backfills new) -> F <= n.
Proof.
  induction 1 as [| e new He _ IH]; intros h n Hin; [destruct Hin |].
  destruct e as [| | | [] | | | | |]; simpl in Hin; try (apply (IH h n Hin)).
  destruct Hin as [E | Hin]; [| apply (IH h n Hin)].
  inversion E; subst. exact He.
Qed.

(** C4: getParentBlock does nothing when the database does not store
    blocks and block events; otherwise the first header becomes the
    floor and nothing is requested; otherwise nothing happens when the
    parent is in the database or the header's number is not above the
    floor's; otherwise the call is one getBlockData for the parent hash,
    logged as a backfill for the parent's number, which hands over one
    get-headers request for that hash followed, if that is accepted, by
    one get-bodies request. *)
Theorem getParentBlock_policy (header : types.Header) (c : conn) :
  let c' := snd (getParentBlock header c) in
  let wanted :=
    database.ShouldWriteBlocks (db c) = true /\
    database.ShouldWriteBlockEvents (db c) = true in
  let parent := types.ParentHash header in
  (~ wanted -> getParentBlock header c = (Ok tt, c)) /\
  (wanted -> oldestBlock c = None ->
   fst (getParentBlock header c) = Ok tt /\
   oldestBlock c' = Some header /\
   sent (events c') = sent (events c) /\
   backfills (events c') = backfills (events c) /\
   requests c' = requests c /\ requestNum c' = requestNum c) /\
  (forall oldest,
     wanted -> oldestBlock c = Some oldest ->
     database.HasBlock (db c) parent = true \/
     types.Number header <= types.Number oldest ->
     getParentBlock header c = (Ok tt, c)) /\
  (forall oldest,
     wanted -> oldestBlock c = Some oldest ->
     database.HasBlock (db c) parent = false ->
     types.Number oldest < types.Number header ->
     getParentBlock header c =
       getBlockData parent
         (emit (EvLog (LogFetchingParent parent (types.Number header - 1)))
            c) /\
     backfills (events c') =
       backfills (events c) ++ [(parent, types.Number header - 1)] /\
     exists rest,
       sent (events c') =
         sent (events c) ++
         (eth.GetBlockHeadersMsg, headersRequest parent) :: rest /\
       (rest = [] \/
        rest = [(eth.GetBlockBodiesMsg,
                 bodiesRequest (incr64 (requestNum c)) parent)])).
Proof.
  intros c' wanted parent. subst c' wanted parent.
  rewrite getParentBlock_run.
  split; [| split; [| split]].
  - intros Hnot.
    destruct (database.ShouldWriteBlocks (db c));
      destruct (database.ShouldWriteBlockEvents (db c)); try reflexivity.
    exfalso. apply Hnot. split; reflexivity.
  - intros [W1 W2] Hnone. rewrite W1, W2, Hnone. cbn [negb orb fst snd].
    cbn [oldestBlock set_oldestBlock events emit requests requestNum].
    rewrite sent_app, backfills_app. simpl. rewrite !app_nil_r.
    repeat split.
  - intros oldest [W1 W2] Hsome Hstop. rewrite W1, W2, Hsome.
    cbn [negb orb].
    destruct Hstop as [Hhas | Hle].
    + rewrite Hhas. reflexivity.
    + destruct (Z.ltb_spec (types.Number oldest) (types.Number header));
        [lia |].
      rewrite orb_true_r. reflexivity.
  - intros oldest [W1 W2] Hsome Hnew Hlt. rewrite W1, W2, Hsome, Hnew.
    apply Z.ltb_lt in Hlt. rewrite Hlt. cbn [negb orb].
    split; [reflexivity |].
    rewrite getBlockData_run. cbn [rw emit].
    destruct (ethp2p.WriteMsg (rw c) eth.GetBlockHeadersMsg _)
      as [[e |] rw1].
    + cbn [snd events emit set_rw]. rewrite <- !app_assoc.
      rewrite backfills_app, sent_app. simpl. split; [reflexivity |].
      exists []. split; [reflexivity | left; reflexivity].
    + cbn zeta. cbn [requestNum emit].
      destruct (ethp2p.WriteMsg rw1 eth.GetBlockBodiesMsg _) as [r rw2].
      cbn [snd events emit set_rw set_requests set_requestNum].
      rewrite <- !app_assoc. rewrite backfills_app, sent_app. simpl.
      split; [reflexivity |].
      eexists. split; [reflexivity | right; reflexivity].
Qed.

End TheInvariants.

(** C2 as stated fails at the floor itself: with the floor at header
    1000, header 1001 with a parent unknown to the database makes the
    connection request that parent, the block numbered 1000. *)
Lemma backfill_at_floor :
  oldestBlock floorConn = Some (headerAt 1000) /\
  backfills (events (snd (getParentBlock (headerAt 1001) floorConn))) =
    [(1000%N, 1000)] /\
  sent (events (snd (getParentBlock (headerAt 1001) floorConn))) =
    [(eth.GetBlockHeadersMsg, headersRequest 1000%N);
     (eth.GetBlockBodiesMsg, bodiesRequest 1 1000%N)] /\
  1000 <= types.Number (headerAt 1000).
Proof. repeat split. discriminate. Qed.

(** Scenario A: header 1000 comes first and becomes the floor without a
    request; header 1005, whose parent the database does not have, then
    brings one fetch, of the hash of block 1004. *)
Lemma getParentBlock_policy_witness :
  (oldestBlock (snd (getParentBlock (headerAt 1000) testConn)) =
     Some (headerAt 1000) /\
   sent (events (snd (getParentBlock (headerAt 1000) testConn))) = []) /\
  sent (events (snd (getParentBlock (headerAt 1005) floorConn))) =
    [(eth.GetBlockHeadersMsg, headersRequest 1004%N);
     (eth.GetBlockBodiesMsg, bodiesRequest 1 1004%N)].
Proof.
  split.
  - destruct (getParentBlock_policy (headerAt 1000) testConn)
      as (_ & Hfirst & _ & _).
    destruct (Hfirst (conj eq_refl eq_refl) eq_refl) as (_ & O & S & _).
    exact (conj O S).
  - destruct (getParentBlock_policy (headerAt 1005) floorConn)
      as (_ & _ & _ & Hfetch).
    destruct
      (Hfetch (headerAt 1000) (conj eq_refl eq_refl) eq_refl eq_refl
         (eq_refl : (1000 ?= 1005) = Lt))
      as (E & _).
    rewrite E. reflexivity.
Defined.

(** Scenario C: the head is block 10 with total difficulty 100.  Block
    12 with total difficulty 90 does not replace it; block 12 with total
    difficulty 200 does. *)
Lemma handleNewBlock_replaces_head_witness :
  head (snd (handleNewBlock (newBlockMsg 12 90) testConn)) = head testConn /\
  head (snd (handleNewBlock (newBlockMsg 12 200) testConn)) =
    {| Hash := 12%N; TotalDifficulty := 200; Number := 12 |}.
Proof.
  split.
  - destruct
      (handleNewBlock_replaces_head eth.NewBlockMsg (blockAt 12) 90 None
         testConn) as (_ & Hkeep & _).
    apply Hkeep. intros [_ Htd]. discriminate Htd.
  - destruct
      (handleNewBlock_replaces_head eth.NewBlockMsg (blockAt 12) 200 None
         testConn) as (Hreplace & _).
    apply Hreplace. split; reflexivity.
Defined.

(** C1 as stated fails for a block whose number does not fit 64 bits:
    with the head at block 10 and total difficulty 100, the block
    numbered 2^64 + 5 with total difficulty 200 has the greater number
    and the greater total difficulty, and the head is left as it was,
    because Number().Uint64() of that block is 5. *)
Lemma large_number_keeps_head :
  head testConn = {| Hash := 7%N; TotalDifficulty := 100; Number := 10 |} /\
  types.BlockNumber (blockAt (2 ^ 64 + 5)) = 18446744073709551621 /\
  Number (head testConn) < types.BlockNumber (blockAt (2 ^ 64 + 5)) /\
  TotalDifficulty (head testConn) < 200 /\
  Uint64 (types.BlockNumber (blockAt (2 ^ 64 + 5))) = 5 /\
  head (snd (handleNewBlock (newBlockMsg (2 ^ 64 + 5) 200) testConn)) =
    head testConn.
Proof. repeat split. Qed.

Section Bodies.

Context {RW DB : Type}.
Context `{ethp2p.MsgReadWriter RW} `{database.Database DB}.

Local Abbreviation conn := (conn RW DB).

(** C9: when a non-empty block-bodies response matches a pending
    request, the one body written to the database is the first of the
    response, under the hash of the request; the counter of bodies
    grows by the number of all the bodies in the response; and the
    database and the record of effects end up as they would had the
    response carried the first body alone. *)
Theorem handleBlockBodies_first_body_only (code id : Z)
  (body0 : eth.BlockBody) (more : list eth.BlockBody) (d : option error)
  (c : conn) (l1 l2 : list request) (r : request) :
  requests c = l1 ++ r :: l2 ->
  requestID r = id ->
  (forall r', In r' l1 -> requestID r' <> id) ->
  let respond bodies :=
    snd (handleBlockBodies
           {| ethp2p.Code := code;
              ethp2p.Payload := eth.BlockBodiesPacket66 id bodies;
              ethp2p.Discard := d |} c) in
  let c' := respond (body0 :: more) in
  bodiesWritten (events c') = bodiesWritten (events c) ++ [(body0, hash r)] /\
  db c' = database.WriteBlockBody (db c) body0 (hash r) /\
  BlockBodies (count c') =
    AddInt32 (BlockBodies (count c)) (Int32 (1 + len more)) /\
  db c' = db (respond [body0]) /\
  events c' = events (respond [body0]).
Proof.
  intros E Hr Hl1 respond c'. subst respond c'. cbv beta.
  rewrite !handleBlockBodies_run. cbn zeta.
  rewrite E, (scanRequests_found id l1 l2 r Hr Hl1).
  cbn [snd events db count emit set_db set_requests set_count BlockBodies
       add_BlockBodies].
  rewrite bodiesWritten_app, len_cons. repeat split.
Qed.

End Bodies.

(** A response with three bodies to the request pending under identifier
    2: the first body is written under that request's hash, the counter
    grows by three. *)
Lemma handleBlockBodies_first_body_only_witness :
  bodiesWritten
    (events (snd (handleBlockBodies (bodiesMsg 2 [body 21; body 22; body 23])
                    pendingConn))) = [(body 21, 12%N)] /\
  BlockBodies
    (count (snd (handleBlockBodies (bodiesMsg 2 [body 21; body 22; body 23])
                   pendingConn))) = 3.
Proof.
  destruct
    (handleBlockBodies_first_body_only eth.BlockBodiesMsg 2 (body 21)
       [body 22; body 23] None pendingConn
       [{| requestID := 1; hash := 11%N |}]
       [{| requestID := 1; hash := 13%N |}]
       {| requestID := 2; hash := 12%N |} eq_refl eq_refl)
    as (W & _ & K & _).
  - intros r' [E | []]. subst r'. discriminate.
  - split; [exact W | exact K].
Defined.

(** ** Request identifiers *)

Section Identifiers.

Context {RW DB : Type}.
Context `{ethp2p.MsgReadWriter RW} `{database.Database DB}.

Local Abbreviation conn := (conn RW DB).
Local Abbreviation M := (M RW DB).

Lemma Ids_emit (n0 : Z) (evs0 : list Event) (e : Event) (c : conn) :
  allocated [e] = [] -> fetched [e] = [] ->
  Ids n0 evs0 c -> Ids n0 evs0 (emit e c).
Proof.
  intros He Hf (k & Hn & Hl & Ha). exists k. split; [exact Hn |].
  cbn [events emit]. rewrite allocated_app, fetched_app, He, Hf, !app_nil_r.
  split; [exact Hl | exact Ha].
Qed.

Lemma incr64_wrap64 (z : Z) : incr64 (wrap64 z) = wrap64 (z + 1).
Proof. unfold incr64, wrap64. apply Z.add_mod_idemp_l. discriminate. Qed.

Lemma getBlockData_Ids (n0 : Z) (evs0 : list Event) (h : common.Hash) :
  Keeps (Ids n0 evs0) (getBlockData h : M unit).
Proof.
  intros c (k & Hn & Hl & Ha). rewrite getBlockData_run.
  destruct (ethp2p.WriteMsg (rw c) eth.GetBlockHeadersMsg _) as [[e |] rw1].
  - exists k. split; [exact Hn |].
    cbn [snd events emit set_rw]. rewrite allocated_app, fetched_app.
    cbn [allocated fetched headersRequest]. rewrite !app_nil_r.
    split; [exact Hl | exact Ha].
  - cbn zeta.
    destruct (ethp2p.WriteMsg rw1 eth.GetBlockBodiesMsg _) as [r rw2].
    exists (S k).
    cbn [snd events emit set_rw set_requests set_requestNum requestNum].
    rewrite Hn, incr64_wrap64. split; [f_equal; lia |]. split.
    + rewrite !fetched_app, !length_app, Hl.
      cbn [fetched bodiesRequest headersRequest]. rewrite Z.eqb_refl.
      cbn [List.length]. lia.
    + rewrite !allocated_app, Ha. cbn [allocated bodiesRequest headersRequest].
      rewrite Z.eqb_refl, app_nil_r, <- app_assoc. f_equal.
      rewrite seq_S, map_app. cbn [map]. unfold nextID at 3.
      do 3 f_equal. lia.
Qed.

Lemma getParentBlock_Ids (n0 : Z) (evs0 : list Event)
  (header : types.Header) :
  Keeps (Ids n0 evs0) (getParentBlock header : M unit).
Proof.
  unfold getParentBlock.
  keeps ltac:(apply getBlockData_Ids)
    ltac:(first
            [ assumption
            | apply Ids_emit; [reflexivity | reflexivity | assumption] ]).
Qed.

Lemma Ids_Invariant (n0 : Z) (evs0 : list Event) :
  Invariant (Ids n0 evs0 : conn -> Prop).
Proof.
  constructor; try (intros x c Hc; exact Hc).
  - intros e c (_ & He & _ & Hf). apply Ids_emit; assumption.
  - apply getBlockData_Ids.
  - apply getParentBlock_Ids.
Qed.

Lemma nextID_small (n0 : Z) (k i : nat) :
  0 <= n0 -> n0 + Z.of_nat k <= MaxUint64 -> (i <= k)%nat ->
  nextID n0 i = n0 + Z.of_nat i.
Proof.
  unfold nextID, wrap64, MaxUint64. intros H0n Hk Hi.
  apply Z.mod_small. lia.
Qed.

Lemma nextID_consecutive (n0 : Z) (k : nat) :
  0 <= n0 -> n0 + Z.of_nat k <= MaxUint64 ->
  map (nextID n0) (seq 1 k) = consecutive n0 k.
Proof.
  intros H0n Hk. apply map_ext_in. intros i Hi. apply in_seq in Hi.
  apply (nextID_small n0 k); [assumption | assumption | lia].
Qed.

Lemma consecutive_sorted (n0 : Z) (a k : nat) :
  StronglySorted Z.lt (map (fun i => n0 + Z.of_nat i) (seq a k)).
Proof.
  revert a. induction k as [| k IH]; intros a; simpl; constructor.
  - apply IH.
  - apply Forall_forall. intros z Hz. apply in_map_iff in Hz.
    destruct Hz as (i & <- & Hi). apply in_seq in Hi. lia.
Qed.

Lemma consecutive_NoDup (n0 : Z) (k : nat) : NoDup (consecutive n0 k).
Proof.
  apply Injective_map_NoDup; [| apply seq_NoDup].
  intros i j E. lia.
Qed.

Lemma consecutive_above (n0 : Z) (k : nat) (id : Z) :
  In id (consecutive n0 k) -> n0 < id <= n0 + Z.of_nat k.
Proof.
  intros Hin. apply in_map_iff in Hin. destruct Hin as (i & <- & Hi).
  apply in_seq in Hi. lia.
Qed.

(** C5, amended: along any execution of a connection whose request
    counter stands at n0, every fetch of getBlockData that the stream
    takes is given one identifier, and the k identifiers given out are
    the k numbers that follow n0 modulo 2^64, in order; as long as the
    counter stays within 64 bits they are n0 + 1, ..., n0 + k, strictly
    increasing, pairwise distinct and above n0.  A new connection starts
    with n0 = 0, so at 1. *)
Theorem request_ids_consecutive (c c' : conn) :
  0 <= requestNum c <= MaxUint64 ->
  Steps c c' ->
  exists k : nat,
    List.length (fetched (events c')) =
      (List.length (fetched (events c)) + k)%nat /\
    allocated (events c') =
      allocated (events c) ++ map (nextID (requestNum c)) (seq 1 k) /\
    requestNum c' = nextID (requestNum c) k /\
    (requestNum c + Z.of_nat k <= MaxUint64 ->
     allocated (events c') =
       allocated (events c) ++ consecutive (requestNum c) k /\
     StronglySorted Z.lt (consecutive (requestNum c) k) /\
     NoDup (consecutive (requestNum c) k) /\
     forall id, In id (consecutive (requestNum c) k) -> requestNum c < id).
Proof.
  intros Hn HS.
  assert (H0c : Ids (requestNum c) (events c) c).
  { exists O. split; [| split; [lia | simpl; rewrite app_nil_r; reflexivity]].
    unfold wrap64, MaxUint64 in *. rewrite Z.mod_small; lia. }
  destruct (Steps_keeps _ (Ids_Invariant (requestNum c) (events c)) c c' HS
              H0c) as (k & Hk & Hl & Ha).
  exists k. split; [exact Hl | split; [exact Ha | split; [exact Hk |]]].
  intros Hfit. rewrite Ha, nextID_consecutive by lia.
  split; [reflexivity |]. split; [apply consecutive_sorted |].
  split; [apply consecutive_NoDup |].
  intros id Hin. apply consecutive_above in Hin. lia.
Qed.

End Identifiers.

(** A new connection that handles an announcement of three hashes makes
    three fetches and gives out the identifiers 1, 2 and 3. *)
Lemma request_ids_consecutive_witness :
  fetched (events (snd (dispatch (hashesMsg [5%N; 6%N; 5%N]) testConn))) =
    [5%N; 6%N; 5%N] /\
  allocated (events (snd (dispatch (hashesMsg [5%N; 6%N; 5%N]) testConn))) =
    [1; 2; 3] /\
  exists k : nat,
    allocated (events (snd (dispatch (hashesMsg [5%N; 6%N; 5%N]) testConn))) =
      map (nextID 0) (seq 1 k) /\
    requestNum (snd (dispatch (hashesMsg [5%N; 6%N; 5%N]) testConn)) =
      nextID 0 k.
Proof.
  split; [reflexivity |]. split; [reflexivity |].
  destruct
    (request_ids_consecutive testConn
       (snd (dispatch (hashesMsg [5%N; 6%N; 5%N]) testConn)))
    as (k & _ & Ha & Hk & _).
  - split; discriminate.
  - apply Steps_handle, Steps_refl.
  - exists k. split; [exact Ha | exact Hk].
Defined.

(** On a stream that accepts every write, k fetches leave the request
    counter at k modulo 2^64. *)
Lemma fetches_succ {RW DB : Type} `{ethp2p.MsgReadWriter RW} (k : N)
  (h : common.Hash) (c : conn RW DB) :
  fetches (N.succ k) h c = snd (getBlockData h (fetches k h c)).
Proof. unfold fetches. apply N.iter_succ. Qed.

Lemma getBlockData_accepted {DB : Type} (h : common.Hash)
  (c : conn script.RW DB) :
  script.outcomes (rw c) = [] ->
  getBlockData h c =
    (Ok tt,
     emit
       (EvSend eth.GetBlockBodiesMsg (bodiesRequest (incr64 (requestNum c)) h)
          None)
       (set_requests
          (requests c ++ [{| requestID := incr64 (requestNum c); hash := h |}])
          (set_requestNum (incr64 (requestNum c))
             (emit (EvSend eth.GetBlockHeadersMsg (headersRequest h) None)
                c)))).
Proof.
  intros Hq. rewrite getBlockData_run. destruct c. cbn [rw] in *.
  cbn [ethp2p.WriteMsg script_MsgReadWriter]. unfold script.WriteMsg.
  rewrite Hq. cbv beta iota zeta. rewrite Hq. reflexivity.
Qed.

Lemma fetches_accepted {DB : Type} (h : common.Hash) (k : N)
  (c : conn script.RW DB) :
  script.outcomes (rw c) = [] ->
  0 <= requestNum c <= MaxUint64 ->
  script.outcomes (rw (fetches k h c)) = [] /\
  requestNum (fetches k h c) = wrap64 (requestNum c + Z.of_N k).
Proof.
  intros Hq Hn. induction k as [| k IH] using N.peano_ind.
  - split; [exact Hq |]. cbn [fetches N.iter Z.of_N].
    unfold wrap64, MaxUint64 in *. rewrite Z.mod_small; lia.
  - destruct IH as [Hqk Hnk].
    rewrite fetches_succ, (getBlockData_accepted h _ Hqk).
    cbn [snd rw requestNum emit set_requests set_requestNum].
    split; [exact Hqk |].
    rewrite Hnk, incr64_wrap64, N2Z.inj_succ. f_equal. lia.
Qed.

(** C5 as stated fails once the 64-bit counter wraps: on a new
    connection the first fetch is given identifier 1, after 2^64 fetches
    the counter is back at 0, and the next fetch is given identifier 1
    again.  And a fetch whose get-headers request the stream refuses is
    given no identifier at all. *)
Lemma request_id_reused :
  events (fetches 1 5%N testConn) =
    [EvSend eth.GetBlockHeadersMsg (headersRequest 5%N) None;
     EvSend eth.GetBlockBodiesMsg (bodiesRequest 1 5%N) None] /\
  requestNum (fetches (2 ^ 64) 5%N testConn) = 0 /\
  (exists evs,
     events (fetches (2 ^ 64 + 1) 5%N testConn) =
       evs ++
       [EvSend eth.GetBlockHeadersMsg (headersRequest 5%N) None;
        EvSend eth.GetBlockBodiesMsg (bodiesRequest 1 5%N) None]) /\
  allocated
    (events (snd (getBlockData 5%N (refusing [Some (ErrIO "closed")])))) = [].
Proof.
  split; [reflexivity |].
  destruct (fetches_accepted 5%N (2 ^ 64) testConn eq_refl) as [Hq Hn];
    [split; discriminate |].
  assert (E0 : wrap64 (requestNum testConn + Z.of_N (2 ^ 64)) = 0)
    by reflexivity.
  rewrite E0 in Hn. clear E0. split; [exact Hn |].
  split; [| reflexivity].
  replace (2 ^ 64 + 1)%N with (N.succ (2 ^ 64)) by reflexivity.
  rewrite fetches_succ.
  set (c64 := fetches (2 ^ 64) 5%N testConn) in *. clearbody c64.
  rewrite (getBlockData_accepted 5%N c64 Hq), Hn.
  exists (events c64). cbn [snd events emit set_requests set_requestNum].
  rewrite <- app_assoc. reflexivity.
Qed.

(** ** The handshake and the Peers channel *)

Section Handshake.

Context {RW DB Config : Type}.
Context `{ethp2p.MsgReadWriter RW} `{database.Database DB}
  `{forkid.Forks Config}.

Local Abbreviation conn := (conn RW DB).
Local Abbreviation M := (M RW DB).

Lemma Published_emit (evs0 : list Event) (e : Event) (c : conn) :
  published [e] = [] -> Published evs0 c -> Published evs0 (emit e c).
Proof.
  intros He (new & E & P). exists (new ++ [e]). cbn [events emit].
  rewrite E, app_assoc, published_app, P, He. split; reflexivity.
Qed.

Ltac published_step :=
  first [assumption | apply Published_emit; [reflexivity | assumption]].

Lemma getBlockData_Published (evs0 : list Event) (h : common.Hash) :
  Keeps (Published evs0) (getBlockData h : M unit).
Proof. unfold getBlockData. keeps idtac published_step. Qed.

Lemma getParentBlock_Published (evs0 : list Event) (header : types.Header) :
  Keeps (Published evs0) (getParentBlock header : M unit).
Proof.
  unfold getParentBlock.
  keeps ltac:(apply getBlockData_Published) published_step.
Qed.

Lemma statusExchange_Published (evs0 : list Event)
  (packet : eth.StatusPacket) :
  Keeps (Published evs0) (statusExchange packet : M unit).
Proof. unfold statusExchange. keeps idtac published_step. Qed.

Lemma Published_Invariant (evs0 : list Event) :
  Invariant (Published evs0 : conn -> Prop).
Proof.
  constructor; try (intros x c Hc; exact Hc).
  - intros e c (He & _). apply Published_emit, He.
  - apply getBlockData_Published.
  - apply getParentBlock_Published.
Qed.

Lemma Published_refl (c : conn) : Published (events c) c.
Proof. exists []. rewrite app_nil_r. split; reflexivity. Qed.

(** C6: Run sends the peer's node to the Peers channel once, after the
    whole status exchange and only if it succeeded; if the exchange
    fails, Run returns its error with the connection as the exchange
    left it and nothing is sent to the channel.  In particular a status
    packet with another network id makes Run return DiscUselessPeer
    after the one read of the handshake: the dispatch loop reads
    nothing. *)
Theorem Run_publishes_once (opts : Eth66ProtocolOptions DB Config)
  (p : enode.Node) (rw0 : RW) (fuel : nat) :
  let exchange := statusExchange (localStatus opts) (newConn opts p rw0) in
  let c' := snd (Run opts p rw0 fuel) in
  published (events (snd exchange)) = [] /\
  (fst exchange = Ok tt ->
   published (events c') = [p] /\
   exists later,
     events c' = events (snd exchange) ++ EvPeer p :: later /\
     published later = []) /\
  (forall e,
     fst exchange = Err e ->
     Run opts p rw0 fuel = (Some e, snd exchange) /\
     published (events c') = []) /\
  (forall rw1 msg rw2 status,
     ethp2p.WriteMsg rw0 eth.StatusMsg (eth.Status (localStatus opts))
       = (None, rw1) ->
     ethp2p.ReadMsg rw1 = (Ok msg, rw2) ->
     ethp2p.Code msg = eth.StatusMsg ->
     ethp2p.Payload msg = eth.Status status ->
     eth.NetworkID status <> NetworkID opts ->
     fst (Run opts p rw0 fuel) = Some DiscUselessPeer /\
     published (events c') = [] /\
     reads (events c') = [Ok msg]).
Proof.
  intros exchange c'.
  assert (Hex : published (events (snd exchange)) = []).
  { destruct (statusExchange_Published [] (localStatus opts)
                (newConn opts p rw0) (Published_refl _)) as (new & E & P).
    fold exchange in E. rewrite E. exact P. }
  split; [exact Hex |]. split; [| split].
  - intros Hok. subst c'. unfold Run. fold exchange.
    destruct exchange as [[[] | e] c1]; [| discriminate Hok].
    cbn [snd] in *.
    destruct (loop_keeps _ (Published_Invariant (events c1 ++ [EvPeer p]))
                fuel (emit (EvPeer p) c1))
      as (later & E & P).
    { exists []. cbn [events emit]. rewrite app_nil_r. split; reflexivity. }
    rewrite <- app_assoc in E. cbn [app] in E.
    split; [| exists later; split; assumption].
    rewrite E, published_app, Hex. cbn [published app]. rewrite P.
    reflexivity.
  - intros e Herr. subst c'. unfold Run. fold exchange.
    destruct exchange as [[[] | e'] c1]; [discriminate Herr |].
    cbn [fst snd] in *. injection Herr as ->. split; [reflexivity | exact Hex].
  - intros rw1 msg rw2 status Hw Hr Hcode Hpay Hnet.
    assert (Hrun : exchange =
      (Err DiscUselessPeer,
       emit (EvRead (Ok msg))
         (set_rw rw2
            (emit (EvSend eth.StatusMsg (eth.Status (localStatus opts)) None)
               (set_rw rw1 (newConn opts p rw0)))))).
    { subst exchange. unfold statusExchange, bind, Send, ReadMsg.
      cbn [rw newConn]. rewrite Hw. cbn [rw emit set_rw]. rewrite Hr.
      rewrite Hcode, Z.eqb_refl, Hpay. cbn [negb].
      destruct (Z.eqb_spec (eth.NetworkID status)
                  (eth.NetworkID (localStatus opts))) as [E | _];
        [| reflexivity].
      exfalso. apply Hnet. exact E. }
    subst c'. unfold Run. fold exchange. rewrite Hrun in *.
    cbn [fst snd] in *. split; [reflexivity |]. split; [exact Hex |].
    reflexivity.
Qed.

End Handshake.

(** The peer answers with network id 1 where the sensor has 137: Run
    ends with DiscUselessPeer, before the message that follows is read
    and with nothing sent to the Peers channel.  With network id 137 the
    node is sent once. *)
Lemma Run_publishes_once_witness :
  (fst (Run testOpts 1%N (peerRW 1 [newBlockMsg 12 200]) 5) =
     Some DiscUselessPeer /\
   published (events (snd (Run testOpts 1%N (peerRW 1 [newBlockMsg 12 200]) 5)))
     = [] /\
   reads (events (snd (Run testOpts 1%N (peerRW 1 [newBlockMsg 12 200]) 5)))
     = [Ok (statusMsg 1)]) /\
  published
    (events (snd (Run testOpts 1%N (peerRW 137 [newBlockMsg 12 200]) 5)))
    = [1%N].
Proof.
  split.
  - destruct
      (Run_publishes_once testOpts 1%N (peerRW 1 [newBlockMsg 12 200]) 5)
      as (_ & _ & _ & Hreject).
    apply (Hreject _ (statusMsg 1) _ _ eq_refl eq_refl eq_refl eq_refl).
    discriminate.
  - destruct
      (Run_publishes_once testOpts 1%N (peerRW 137 [newBlockMsg 12 200]) 5)
      as (_ & Haccept & _).
    apply (Haccept eq_refl).
Defined.

(** ** The counters *)

Create HintDb frame.

#[export] Hint Resolve getBlockData_count getParentBlock_count : frame.

Section Counting.

Context {RW DB : Type}.
Context `{ethp2p.MsgReadWriter RW} `{database.Database DB}.

Local Abbreviation conn := (conn RW DB).
Local Abbreviation M := (M RW DB).

Lemma rangeNewBlockHashes_count (packet : list (common.Hash * Z))
  (hashes : list common.Hash) :
  Preserves count (rangeNewBlockHashes packet hashes : M _).
Proof.
  revert hashes. induction packet as [| hash rest IH]; intros hashes; simpl.
  - apply Preserves_ret.
  - apply Preserves_bind; [| intros _; apply IH]. auto with frame.
Qed.

Lemma rangeHeaders_count (headers : list types.Header) :
  Preserves count (rangeHeaders headers : M unit).
Proof.
  induction headers as [| header rest IH]; simpl.
  - apply Preserves_ret.
  - apply Preserves_bind; [| intros _; apply IH]. auto with frame.
Qed.

(** What is left of a handler after its atomic add leaves the counters
    alone. *)
Ltac rest_keeps_count :=
  unfold logger, dbWrite;
  repeat lazymatch goal with
    | |- Preserves _ (match ?x with _ => _ end) => destruct x
    | |- Preserves _ (ret _) => apply Preserves_ret
    | |- Preserves _ (gets _) => apply Preserves_gets
    | |- Preserves _ (bind _ _) => apply Preserves_bind; [ | intro ]
    | |- Preserves _ (modify _) => apply Preserves_modify; intros; reflexivity
    | |- Preserves _ (Send _ _) => apply Preserves_Send; intros; reflexivity
    | |- Preserves _ (rangeNewBlockHashes _ _) => apply rangeNewBlockHashes_count
    | |- Preserves _ (rangeHeaders _) => apply rangeHeaders_count
    | |- Preserves _ _ => solve [auto with frame]
    end.

Lemma AddInt32_zero (x : Z) : IsInt32 x -> AddInt32 x (Int32 0) = x.
Proof.
  intros Hx. change (Int32 0) with 0. unfold AddInt32.
  rewrite Z.add_0_r. apply Int32_small, Hx.
Qed.

(** The counters after one message: the handler's atomic add of the
    number of items the message carries. *)
Lemma dispatch_count (msg : ethp2p.Msg) (c : conn) (k : Counter) :
  IsInt32 (counter k (count c)) ->
  counter k (count (snd (dispatch msg c))) =
    AddInt32 (counter k (count c)) (Int32 (carriedBy k msg)).
Proof.
  intros Hk. destruct msg as [code payload discard].
  unfold dispatch, carriedBy, carried. cbn [ethp2p.Code ethp2p.Payload].
  repeat match goal with
         | |- context [code =? ?X] =>
             destruct (Z.eqb_spec code X) as [-> | ?]
         end;
    cbn [Z.eqb Pos.eqb eth.NewBlockHashesMsg eth.TransactionsMsg
         eth.GetBlockHeadersMsg eth.BlockHeadersMsg eth.GetBlockBodiesMsg
         eth.BlockBodiesMsg eth.NewBlockMsg eth.NewPooledTransactionHashesMsg
         eth.GetPooledTransactionsMsg eth.PooledTransactionsMsg
         eth.GetReceiptsMsg];
    unfold handleNewBlockHashes, handleTransactions, handleGetBlockHeaders,
      handleBlockHeaders, handleGetBlockBodies, handleBlockBodies,
      handleNewBlock, handleNewPooledTransactionHashes,
      handleGetPooledTransactions, handlePooledTransactions,
      handleGetReceipts;
    cbn [ethp2p.Payload];
    destruct payload;
    try (cbn [snd throw logger modify count emit];
         rewrite (AddInt32_zero _ Hk); reflexivity).
  all: try (rewrite Preserves_tail by (intros; rest_keeps_count);
            destruct k; cbn [Counter_eqb];
            first [reflexivity | rewrite (AddInt32_zero _ Hk); reflexivity]).
  - destruct bodies as [| body0 more].
    + cbn [snd ret]. destruct k; exact (eq_sym (AddInt32_zero _ Hk)).
    + rewrite Preserves_tail by (intros; rest_keeps_count).
      destruct k; cbn [Counter_eqb];
        first [reflexivity | rewrite (AddInt32_zero _ Hk); reflexivity].
  - rewrite (Preserves_Send count) by (intros; reflexivity).
    rewrite (AddInt32_zero _ Hk). reflexivity.
Qed.

Lemma AddInt32_Int32 (x n : Z) : AddInt32 x (Int32 n) = Int32 (x + n).
Proof.
  unfold AddInt32, Int32. f_equal.
  replace (x + ((n + 2 ^ 31) mod 2 ^ 32 - 2 ^ 31) + 2 ^ 31)
    with (x + (n + 2 ^ 31) mod 2 ^ 32) by lia.
  rewrite Z.add_mod_idemp_r by discriminate. f_equal. lia.
Qed.

Lemma carriedBy_nonneg (k : Counter) (msg : ethp2p.Msg) :
  0 <= carriedBy k msg.
Proof.
  unfold carriedBy, carried.
  destruct (ethp2p.Payload msg);
    repeat match goal with
           | |- context [if ?b then _ else _] => destruct b
           end;
    try apply len_nonneg; lia.
Qed.

(** C8, amended: handling a message adds the number of items it carries
    to the counter of their category with an int32 atomic add, and
    leaves every other counter as it was; as long as the sum does not
    exceed the largest int32, the counter grows by exactly that number
    and no counter decreases. *)
Theorem counters_add_items (msg : ethp2p.Msg) (c : conn) (k : Counter) :
  IsInt32 (counter k (count c)) ->
  let c' := snd (dispatch msg c) in
  0 <= carriedBy k msg /\
  counter k (count c') =
    AddInt32 (counter k (count c)) (Int32 (carriedBy k msg)) /\
  (counter k (count c) + carriedBy k msg <= MaxInt32 ->
   counter k (count c') = counter k (count c) + carriedBy k msg /\
   counter k (count c) <= counter k (count c')).
Proof.
  intros Hk c'. subst c'. pose proof (carriedBy_nonneg k msg) as Hn.
  split; [exact Hn |]. split; [apply dispatch_count, Hk |].
  intros Hfit. rewrite (dispatch_count msg c k Hk), AddInt32_Int32.
  rewrite Int32_small; [lia |]. unfold IsInt32 in *. lia.
Qed.

End Counting.

(** An announcement of three hashes takes the counter of block hashes
    from 0 to 3 and leaves the counter of blocks at 0. *)
Lemma counters_add_items_witness :
  BlockHashes (count (snd (dispatch (hashesMsg [5%N; 6%N; 5%N]) testConn)))
    = 3 /\
  Blocks (count (snd (dispatch (hashesMsg [5%N; 6%N; 5%N]) testConn))) = 0.
Proof.
  split.
  - destruct
      (counters_add_items (hashesMsg [5%N; 6%N; 5%N]) testConn CBlockHashes)
      as (_ & _ & Hexact).
    + split; discriminate.
    + apply Hexact. discriminate.
  - destruct
      (counters_add_items (hashesMsg [5%N; 6%N; 5%N]) testConn CBlocks)
      as (_ & _ & Hexact).
    + split; discriminate.
    + apply Hexact. discriminate.
Defined.

(** C8 as stated fails at the end of the int32 range: with the counter
    of blocks at 2147483647, one more new-block message takes it to
    -2147483648. *)
Lemma counter_wraps :
  Blocks (count fullConn) = 2147483647 /\
  carried (newBlockMsg 12 90) = Some (CBlocks, 1) /\
  Blocks (count (snd (dispatch (newBlockMsg 12 90) fullConn))) = -2147483648.
Proof. repeat split. Qed.

(** * Further properties of the connection code *)

(** ** statusExchange *)

Section StatusExchange.

Context {RW DB : Type}.
Context `{ethp2p.MsgReadWriter RW} `{database.Database DB}.

Local Abbreviation conn := (conn RW DB).
Local Abbreviation M := (M RW DB).

(** statusExchange returns nil exactly when the status packet was sent,
    a message was read, its code is the status code, it decodes as a
    status packet and that packet has the network id of the local one.
    Nothing else of the peer's status is compared: not the protocol
    version, the genesis hash, the fork id, the head or the total
    difficulty.  Whatever it returns, the exchange leaves the head, the
    counters, the database and the request tracker as they were. *)
Theorem statusExchange_accepts (packet : eth.StatusPacket) (c : conn) :
  (fst (statusExchange packet c) = Ok tt <->
   exists rw1 msg rw2 status,
     ethp2p.WriteMsg (rw c) eth.StatusMsg (eth.Status packet) = (None, rw1) /\
     ethp2p.ReadMsg rw1 = (Ok msg, rw2) /\
     ethp2p.Code msg = eth.StatusMsg /\
     ethp2p.Payload msg = eth.Status status /\
     eth.NetworkID status = eth.NetworkID packet) /\
  head (snd (statusExchange packet c)) = head c /\
  count (snd (statusExchange packet c)) = count c /\
  db (snd (statusExchange packet c)) = db c /\
  requests (snd (statusExchange packet c)) = requests c /\
  requestNum (snd (statusExchange packet c)) = requestNum c /\
  oldestBlock (snd (statusExchange packet c)) = oldestBlock c.
Proof.
  split.
  - unfold statusExchange, bind, Send, ReadMsg, throw, logger, modify.
    destruct (ethp2p.WriteMsg (rw c) eth.StatusMsg (eth.Status packet))
      as [[e |] rw1] eqn:Hw; cbn [fst snd rw emit set_rw].
    { split; [discriminate |]. intros (? & ? & ? & ? & E & _). discriminate E. }
    destruct (ethp2p.ReadMsg rw1) as [[msg | e] rw2] eqn:Hr;
      cbn [fst snd rw emit set_rw].
    2:{ split; [discriminate |].
        intros (rw1' & ? & ? & ? & E1 & E2 & _).
        injection E1 as <-. rewrite Hr in E2. discriminate E2. }
    destruct (Z.eqb_spec (ethp2p.Code msg) eth.StatusMsg) as [Hc | Hc];
      cbn [negb].
    2:{ split; [discriminate |].
        intros (rw1' & msg' & ? & ? & E1 & E2 & E3 & _).
        injection E1 as <-. rewrite Hr in E2. injection E2 as <- _.
        contradiction. }
    destruct (ethp2p.Payload msg) as [status | | | | | | | | | | | | |] eqn:Hp;
      try (split; [discriminate |];
           intros (rw1' & msg' & ? & ? & E1 & E2 & _ & E4 & _);
           injection E1 as <-; rewrite Hr in E2; injection E2 as <- _;
           rewrite Hp in E4; discriminate E4).
    destruct (Z.eqb_spec (eth.NetworkID status) (eth.NetworkID packet))
      as [Hn | Hn]; cbn [negb fst].
    + split; [| reflexivity]. intros _.
      exists rw1, msg, rw2, status. repeat split; assumption.
    + split; [discriminate |].
      intros (rw1' & msg' & ? & status' & E1 & E2 & _ & E4 & E5).
      injection E1 as <-. rewrite Hr in E2. injection E2 as <- _.
      rewrite Hp in E4. injection E4 as <-. contradiction.
  - repeat split;
      match goal with
      | |- ?proj (snd _) = _ =>
          let P := fresh in
          assert (P : Preserves proj (statusExchange packet : M unit))
            by (unfold statusExchange; frame);
          apply P
      end.
Qed.

End StatusExchange.

(** A peer on another chain and protocol version is accepted as long as
    its network id is the sensor's. *)
Lemma statusExchange_accepts_witness :
  fst (statusExchange (localStatus testOpts)
         (set_rw (answering foreignStatus) testConn)) = Ok tt.
Proof.
  destruct
    (statusExchange_accepts (localStatus testOpts)
       (set_rw (answering foreignStatus) testConn)) as [[_ Haccept] _].
  apply Haccept. exists (answering foreignStatus), foreignStatus.
  eexists. eexists. repeat split; reflexivity.
Defined.

(** ** The shared head *)

(** The frame tactic, with the loops and calls already dealt with. *)
Ltac frame_calls known :=
  unfold logger, dbWrite, atomicAdd;
  repeat lazymatch goal with
    | |- Preserves _ (match ?x with _ => _ end) => destruct x
    | |- Preserves _ (ret _) => apply Preserves_ret
    | |- Preserves _ (throw _) => apply Preserves_throw
    | |- Preserves _ (gets _) => apply Preserves_gets
    | |- Preserves _ (bind _ _) => apply Preserves_bind; [ | intro ]
    | |- Preserves _ (modify _) => apply Preserves_modify; intros; reflexivity
    | |- Preserves _ (Send _ _) => apply Preserves_Send; intros; reflexivity
    | |- Preserves _ ReadMsg => apply Preserves_ReadMsg; intros; reflexivity
    | |- Preserves _ _ => known
    end.

Section SharedHead.

Context {RW DB : Type}.
Context `{ethp2p.MsgReadWriter RW} `{database.Database DB}.

Local Abbreviation conn := (conn RW DB).
Local Abbreviation M := (M RW DB).

Lemma getBlockData_head (h : common.Hash) :
  Preserves head (getBlockData h : M unit).
Proof. unfold getBlockData. frame. Qed.

Lemma rangeNewBlockHashes_head (packet : list (common.Hash * Z))
  (hashes : list common.Hash) :
  Preserves head (rangeNewBlockHashes packet hashes : M _).
Proof.
  revert hashes. induction packet as [| hash rest IH]; intros hashes; simpl.
  - apply Preserves_ret.
  - apply Preserves_bind; [apply getBlockData_head | intros _; apply IH].
Qed.

Lemma rangeHeaders_head (headers : list types.Header) :
  Preserves head (rangeHeaders headers : M unit).
Proof.
  induction headers as [| header rest IH]; simpl.
  - apply Preserves_ret.
  - apply Preserves_bind; [apply getParentBlock_head | intros _; apply IH].
Qed.

(** Of all the handlers only handleNewBlock writes the head, and only
    with a candidate that is strictly better in both respects. *)
Lemma dispatch_head (msg : ethp2p.Msg) (c : conn) :
  head (snd (dispatch msg c)) = head c \/
  exists block td,
    ethp2p.Code msg = eth.NewBlockMsg /\
    ethp2p.Payload msg = eth.NewBlockPacket block td /\
    head (snd (dispatch msg c)) = candidate block td /\
    Number (head c) < Number (candidate block td) /\
    TotalDifficulty (head c) < td.
Proof.
  destruct msg as [code payload discard].
  unfold dispatch. cbn [ethp2p.Code ethp2p.Payload].
  repeat match goal with
         | |- context [code =? ?X] =>
             destruct (Z.eqb_spec code X) as [-> | ?]
         end.
  7:{ destruct payload as [| | | | | | | block td | | | | | |];
        try (left; reflexivity).
      rewrite handleNewBlock_head.
      destruct (Z.ltb_spec (Number (head c)) (Number (candidate block td)));
        destruct (Z.ltb_spec (TotalDifficulty (head c)) td); cbn [andb];
        try (left; reflexivity).
      right. exists block, td. repeat split; assumption. }
  all: left;
    match goal with
    | |- head (snd (?m ?x)) = head ?x =>
        let P := fresh in
        assert (P : Preserves head (m : M unit));
        [ unfold handleNewBlockHashes, handleTransactions,
            handleGetBlockHeaders, handleBlockHeaders, handleGetBlockBodies,
            handleBlockBodies, handleNewPooledTransactionHashes,
            handleGetPooledTransactions, handlePooledTransactions,
            handleGetReceipts;
          frame_calls
            ltac:(first
                    [ apply rangeNewBlockHashes_head
                    | apply rangeHeaders_head ])
        | apply P ]
    end.
Qed.

(** Across a session, whichever connections handle whatever messages,
    the number and the total difficulty of the shared head never
    decrease, and the head is either the one it was or one whose number
    and total difficulty are both strictly greater. *)
Theorem head_never_goes_back (h h' : HeadBlock) :
  HeadSteps (RW := RW) (DB := DB) h h' ->
  Number h <= Number h' /\
  TotalDifficulty h <= TotalDifficulty h' /\
  (h' = h \/
   (Number h < Number h' /\ TotalDifficulty h < TotalDifficulty h')).
Proof.
  induction 1 as [h | h c msg _ IH].
  - repeat split; try lia. left. reflexivity.
  - destruct (dispatch_head msg c) as [E | (block & td & _ & _ & E & Hn & Ht)];
      rewrite E; [exact IH |].
    cbn [TotalDifficulty candidate] in *.
    destruct IH as (Hn0 & Ht0 & _).
    split; [lia |]. split; [cbn [TotalDifficulty]; lia |].
    right. cbn [TotalDifficulty]. lia.
Qed.

End SharedHead.

(** Two connections of a session: the first handles block 12 with total
    difficulty 200, the second block 13 with total difficulty 150, which
    the head, by then at 200, does not take. *)
Lemma head_never_goes_back_witness :
  Number (head testConn) <=
    Number
      (head (snd (dispatch (newBlockMsg 13 150)
                    (set_head
                       (head (snd (dispatch (newBlockMsg 12 200) testConn)))
                       pendingConn)))) /\
  head (snd (dispatch (newBlockMsg 13 150)
               (set_head
                  (head (snd (dispatch (newBlockMsg 12 200) testConn)))
                  pendingConn))) =
    {| Hash := 12%N; TotalDifficulty := 200; Number := 12 |}.
Proof.
  split; [| reflexivity].
  apply (head_never_goes_back (RW := script.RW) (DB := memdb.DB)).
  apply (HeadSteps_handle (head testConn)
           (set_head (head (snd (dispatch (newBlockMsg 12 200) testConn)))
              pendingConn)).
  apply (HeadSteps_handle (head testConn) testConn), HeadSteps_refl.
Defined.

(** ** Database writes and failed fetches *)

Lemma writes_app (l1 l2 : list Event) :
  writes (l1 ++ l2) = writes l1 ++ writes l2.
Proof.
  induction l1 as [| e l1 IH]; [reflexivity |].
  destruct e; simpl; rewrite IH; reflexivity.
Qed.

Section Writes.

Context {RW DB : Type}.
Context `{ethp2p.MsgReadWriter RW} `{database.Database DB}.

Local Abbreviation conn := (conn RW DB).
Local Abbreviation M := (M RW DB).

Lemma Unwritten_emit (d : DB) (n : enode.Node) (w : list Event) (e : Event)
  (c : conn) :
  writes [e] = [] -> Unwritten d n w c -> Unwritten d n w (emit e c).
Proof.
  intros He (Hd & Hn & Hw). repeat split; try assumption.
  cbn [events emit]. rewrite writes_app, He, app_nil_r. exact Hw.
Qed.

Ltac unwritten_step :=
  first [assumption | apply Unwritten_emit; [reflexivity | assumption]].

Lemma getBlockData_Unwritten (d : DB) (n : enode.Node) (w : list Event)
  (h : common.Hash) :
  Keeps (Unwritten d n w) (getBlockData h : M unit).
Proof. unfold getBlockData. keeps idtac unwritten_step. Qed.

Lemma getParentBlock_Unwritten (d : DB) (n : enode.Node) (w : list Event)
  (header : types.Header) :
  Keeps (Unwritten d n w) (getParentBlock header : M unit).
Proof.
  unfold getParentBlock.
  keeps ltac:(apply getBlockData_Unwritten) unwritten_step.
Qed.

Lemma rangeHeaders_Unwritten (d : DB) (n : enode.Node) (w : list Event)
  (headers : list types.Header) :
  Keeps (Unwritten d n w) (rangeHeaders headers : M unit).
Proof.
  induction headers as [| header rest IH]; simpl.
  - apply Keeps_ret.
  - apply Keeps_bind; [apply getParentBlock_Unwritten | intros _; apply IH].
Qed.

Lemma rangeNewBlockHashes_Unwritten (d : DB) (n : enode.Node)
  (w : list Event) (packet : list (common.Hash * Z))
  (hashes : list common.Hash) :
  Keeps (Unwritten d n w) (rangeNewBlockHashes packet hashes : M _).
Proof.
  revert hashes. induction packet as [| hash rest IH]; intros hashes; simpl.
  - apply Keeps_ret.
  - apply Keeps_bind; [apply getBlockData_Unwritten | intros _; apply IH].
Qed.

(** A computation that writes nothing, followed by one write: the write
    happens if and only if the computation returned no error. *)
Lemma then_write {A : Type} (m : M A) (f : A -> DB -> DB) (ev : A -> Event)
  (c : conn) :
  (forall d n w, Keeps (Unwritten d n w) m) ->
  (forall a, writes [ev a] = [ev a]) ->
  let r := bind m (fun a => dbWrite (f a) (ev a)) c in
  match fst (m c) with
  | Ok a =>
      fst r = Ok tt /\
      db (snd r) = f a (db c) /\
      writes (events (snd r)) = writes (events c) ++ [ev a] /\
      events (snd r) = events (snd (m c)) ++ [ev a]
  | Err e =>
      fst r = Err e /\
      db (snd r) = db c /\
      writes (events (snd r)) = writes (events c) /\
      snd r = snd (m c)
  end.
Proof.
  intros Hm Hev r. subst r. rewrite bind_run.
  destruct (Hm (db c) (node c) (writes (events c)) c
              (conj eq_refl (conj eq_refl eq_refl))) as (Hd & Hn & Hw).
  destruct (fst (m c)) as [a | e].
  - unfold dbWrite, modify. cbn [fst snd db events emit set_db].
    rewrite Hd, writes_app, Hw, Hev. repeat split.
  - cbn [fst snd]. repeat split; assumption.
Qed.

(** The same when the write names the node of the connection. *)
Lemma then_write_node {A : Type} (m : M A) (f : A -> enode.Node -> DB -> DB)
  (ev : A -> enode.Node -> Event) (c : conn) :
  (forall d n w, Keeps (Unwritten d n w) m) ->
  (forall a n, writes [ev a n] = [ev a n]) ->
  let r :=
    bind m (fun a => n <- gets node ;; dbWrite (f a n) (ev a n)) c in
  match fst (m c) with
  | Ok a =>
      fst r = Ok tt /\
      db (snd r) = f a (node c) (db c) /\
      writes (events (snd r)) = writes (events c) ++ [ev a (node c)] /\
      events (snd r) = events (snd (m c)) ++ [ev a (node c)]
  | Err e =>
      fst r = Err e /\
      db (snd r) = db c /\
      writes (events (snd r)) = writes (events c) /\
      snd r = snd (m c)
  end.
Proof.
  intros Hm Hev r. subst r. rewrite bind_run.
  destruct (Hm (db c) (node c) (writes (events c)) c
              (conj eq_refl (conj eq_refl eq_refl))) as (Hd & Hn & Hw).
  destruct (fst (m c)) as [a | e].
  - unfold bind, gets, dbWrite, modify. cbn [fst snd db events emit set_db].
    rewrite Hd, Hn, writes_app, Hw, Hev. repeat split.
  - cbn [fst snd]. repeat split; assumption.
Qed.

(** The fetches the loop of handleNewBlockHashes makes are for a prefix
    of the announced hashes, in order: all of them if it returns no
    error, and then it returns them all. *)
Lemma rangeNewBlockHashes_fetched (packet : list (common.Hash * Z))
  (hashes : list common.Hash) (c : conn) :
  exists done rest,
    map fst packet = done ++ rest /\
    fetched (events (snd (rangeNewBlockHashes packet hashes c))) =
      fetched (events c) ++ done /\
    (forall hs,
       fst (rangeNewBlockHashes packet hashes c) = Ok hs ->
       rest = [] /\ hs = hashes ++ map fst packet).
Proof.
  revert hashes c. induction packet as [| [h number] packet IH];
    intros hashes c.
  - exists [], []. cbn. rewrite !app_nil_r.
    split; [reflexivity | split; [reflexivity |]].
    intros hs E. injection E as <-. split; reflexivity.
  - cbn [rangeNewBlockHashes fst map]. rewrite bind_run, getBlockData_run.
    destruct (ethp2p.WriteMsg (rw c) eth.GetBlockHeadersMsg _)
      as [[e |] rw1].
    + exists [], (h :: map fst packet). cbn [fst snd events emit set_rw app].
      rewrite fetched_app. cbn [fetched headersRequest].
      rewrite !app_nil_r.
      split; [reflexivity | split; [reflexivity | discriminate]].
    + cbn zeta.
      destruct (ethp2p.WriteMsg rw1 eth.GetBlockBodiesMsg _) as [[e |] rw2];
        cbn [fst snd result].
      * exists [h], (map fst packet).
        cbn [events emit set_rw set_requests set_requestNum app].
        rewrite !fetched_app. cbn [fetched headersRequest bodiesRequest].
        rewrite Z.eqb_refl, !app_nil_r. cbn [eth.Hash].
        split; [reflexivity | split; [reflexivity | discriminate]].
      * match goal with
        | |- context [rangeNewBlockHashes packet ?acc ?c1] =>
            destruct (IH acc c1) as (done & rest & Hsplit & Hf & Hok)
        end.
        exists (h :: done), rest.
        split; [cbn [app]; f_equal; exact Hsplit |]. split.
        -- rewrite Hf.
           cbn [events emit set_rw set_requests set_requestNum].
           rewrite !fetched_app. cbn [fetched headersRequest bodiesRequest].
           rewrite Z.eqb_refl, !app_nil_r. cbn [eth.Hash].
           rewrite <- app_assoc. reflexivity.
        -- intros hs E. destruct (Hok hs E) as [-> ->].
           split; [reflexivity |]. rewrite <- app_assoc. reflexivity.
Qed.

(** handleNewBlockHashes fetches the announced hashes in order and stops
    at the first failed send; the hashes are written to the database
    only if no send failed, and then all of them in one write, in the
    order of the announcement.  After a failed send nothing is
    written. *)
Theorem handleNewBlockHashes_writes (code : Z)
  (packet : list (common.Hash * Z)) (d : option error) (c : conn) :
  let r :=
    handleNewBlockHashes
      {| ethp2p.Code := code;
         ethp2p.Payload := eth.NewBlockHashesPacket packet;
         ethp2p.Discard := d |} c in
  exists done rest,
    map fst packet = done ++ rest /\
    fetched (events (snd r)) = fetched (events c) ++ done /\
    (fst r = Ok tt ->
     rest = [] /\
     db (snd r) = database.WriteBlockHashes (db c) (node c) (map fst packet) /\
     writes (events (snd r)) =
       writes (events c) ++ [EvWriteBlockHashes (node c) (map fst packet)]) /\
    (forall e,
       fst r = Err e ->
       db (snd r) = db c /\ writes (events (snd r)) = writes (events c)).
Proof.
  intros r. subst r. unfold handleNewBlockHashes. cbn [ethp2p.Payload].
  rewrite bind_run. cbn [atomicAdd modify fst snd].
  set (c1 := set_count (add_BlockHashes (Int32 (len packet)) (count c)) c).
  pose proof
    (then_write_node (rangeNewBlockHashes packet [])
       (fun hashes n d => database.WriteBlockHashes d n hashes)
       (fun hashes n => EvWriteBlockHashes n hashes) c1
       (fun d n w => rangeNewBlockHashes_Unwritten d n w packet [])
       (fun _ _ => eq_refl)) as Hw.
  cbv zeta in Hw.
  destruct (rangeNewBlockHashes_fetched packet [] c1)
    as (done & rest & Hsplit & Hf & Hok).
  exists done, rest. split; [exact Hsplit |].
  assert (E1 : db c1 = db c /\ node c1 = node c /\ events c1 = events c)
    by (repeat split).
  destruct E1 as (Edb & Enode & Eev). rewrite Edb, Enode, Eev in *.
  destruct (fst (rangeNewBlockHashes packet [] c1)) as [hs | e] eqn:E.
  - destruct Hw as (R & D & W & Ev). destruct (Hok hs eq_refl) as [-> ->].
    cbn [app] in *. rewrite Ev, fetched_app, Hf. cbn [fetched].
    rewrite app_nil_r. split; [reflexivity |]. split.
    + intros _. split; [reflexivity |].
      split; [exact D | rewrite <- Ev; exact W].
    + intros e Herr. rewrite R in Herr. discriminate Herr.
  - destruct Hw as (R & D & W & S).
    split; [rewrite S; exact Hf |]. split.
    + intros Hok'. rewrite R in Hok'. discriminate Hok'.
    + intros e' _. split; assumption.
Qed.

(** handleBlockHeaders runs the backfill policy on the headers in order
    and stops at the first failed send; the headers are written to the
    database, all in one write, only if no send failed.  On a connection
    without a floor whose database stores blocks and block events, the
    first header of the response becomes the floor, whatever follows
    it. *)
Theorem handleBlockHeaders_writes (code id : Z) (headers : list types.Header)
  (d : option error) (c : conn) :
  let r :=
    handleBlockHeaders
      {| ethp2p.Code := code;
         ethp2p.Payload := eth.BlockHeadersPacket66 id headers;
         ethp2p.Discard := d |} c in
  (fst r = Ok tt ->
   db (snd r) = database.WriteBlockHeaders (db c) headers /\
   writes (events (snd r)) =
     writes (events c) ++ [EvWriteBlockHeaders headers]) /\
  (forall e,
     fst r = Err e ->
     db (snd r) = db c /\ writes (events (snd r)) = writes (events c)) /\
  (forall first rest,
     headers = first :: rest ->
     database.ShouldWriteBlocks (db c) = true ->
     database.ShouldWriteBlockEvents (db c) = true ->
     oldestBlock c = None ->
     oldestBlock (snd r) = Some first).
Proof.
  intros r. subst r. unfold handleBlockHeaders. cbn [ethp2p.Payload].
  rewrite bind_run. cbn [atomicAdd modify fst snd].
  set (c1 := set_count (add_BlockHeaders (Int32 (len headers)) (count c)) c).
  pose proof
    (then_write (rangeHeaders headers)
       (fun _ d => database.WriteBlockHeaders d headers)
       (fun _ => EvWriteBlockHeaders headers) c1
       (fun d n w => rangeHeaders_Unwritten d n w headers)
       (fun _ => eq_refl)) as Hw.
  cbv zeta in Hw.
  assert (E1 : db c1 = db c /\ events c1 = events c) by (split; reflexivity).
  destruct E1 as (Edb & Eev). rewrite Edb, Eev in Hw.
  split; [| split].
  - intros Hok. destruct (fst (rangeHeaders headers c1)) as [[] | e].
    + destruct Hw as (_ & D & W & _). split; assumption.
    + destruct Hw as (R & _). unfold M in *. rewrite R in Hok.
      discriminate Hok.
  - intros e Herr. destruct (fst (rangeHeaders headers c1)) as [[] | e'].
    + destruct Hw as (R & _). unfold M in *. rewrite R in Herr.
      discriminate Herr.
    + destruct Hw as (_ & D & W & _). split; assumption.
  - intros first rest -> W1 W2 Hnone.
    rewrite Preserves_tail by (intros; unfold dbWrite; frame).
    cbn [rangeHeaders]. rewrite bind_run, getParentBlock_run.
    assert (E2 : oldestBlock c1 = oldestBlock c) by reflexivity.
    rewrite Edb, E2, W1, W2, Hnone. cbn [negb orb fst snd].
    apply (rangeHeaders_keeps _ (Floor_Invariant first (events c1)) rest).
    split; [reflexivity |].
    exists [EvLog (LogSettingOldestBlock first)]. split; [reflexivity |].
    repeat constructor.
Qed.

(** getParentBlock returns an error only from the fetch of a missing
    parent, after logging the backfill. *)
Lemma getParentBlock_error (header : types.Header) (c : conn) (e : error) :
  fst (getParentBlock header c) = Err e ->
  backfills (events (snd (getParentBlock header c))) =
    backfills (events c) ++
    [(types.ParentHash header, types.Number header - 1)].
Proof.
  rewrite getParentBlock_run.
  destruct (negb (database.ShouldWriteBlocks (db c))
            || negb (database.ShouldWriteBlockEvents (db c)));
    [discriminate |].
  destruct (oldestBlock c) as [oldest |]; [| discriminate].
  destruct (database.HasBlock (db c) (types.ParentHash header)
            || negb (types.Number oldest <? types.Number header));
    [discriminate |].
  intros _. rewrite getBlockData_run. cbn [rw emit].
  destruct (ethp2p.WriteMsg (rw c) eth.GetBlockHeadersMsg _) as [[e1 |] rw1].
  - cbn [snd events emit set_rw]. rewrite !backfills_app. cbn [backfills].
    rewrite app_nil_r. reflexivity.
  - cbn zeta.
    destruct (ethp2p.WriteMsg rw1 eth.GetBlockBodiesMsg _) as [r rw2].
    cbn [snd events emit set_rw set_requests set_requestNum].
    rewrite !backfills_app. cbn [backfills]. rewrite !app_nil_r.
    reflexivity.
Qed.

(** handleNewBlock writes the block to the database only if the backfill
    of its parent did not fail.  The only error it returns for a decoded
    message is that of a failed send of this backfill, and then the
    block is not written, although the head has already been replaced if
    the block was better and the counter of blocks has been
    incremented. *)
Theorem handleNewBlock_writes (code : Z) (block : types.Block) (td : Z)
  (d : option error) (c : conn) :
  let r :=
    handleNewBlock
      {| ethp2p.Code := code;
         ethp2p.Payload := eth.NewBlockPacket block td;
         ethp2p.Discard := d |} c in
  (fst r = Ok tt ->
   db (snd r) = database.WriteBlock (db c) (node c) block td /\
   writes (events (snd r)) =
     writes (events c) ++ [EvWriteBlock (node c) block td]) /\
  (forall e,
     fst r = Err e ->
     db (snd r) = db c /\
     writes (events (snd r)) = writes (events c) /\
     backfills (events (snd r)) =
       backfills (events c) ++
       [(types.ParentHash (types.header block),
         types.Number (types.header block) - 1)] /\
     Blocks (count (snd r)) = AddInt32 (Blocks (count c)) 1 /\
     head (snd r) =
       if (Number (head c) <? Number (candidate block td))
          && (TotalDifficulty (head c) <? td)
       then candidate block td
       else head c).
Proof.
  intros r.
  assert (Hhead := handleNewBlock_head code block td d c). fold r in Hhead.
  assert (Hcount : count (snd r) = add_Blocks 1 (count c)).
  { subst r. unfold handleNewBlock. cbn [ethp2p.Payload].
    rewrite Preserves_tail; [reflexivity |]. intros _.
    unfold logger, dbWrite.
    frame_calls ltac:(apply getParentBlock_count). }
  revert Hhead Hcount. subst r. unfold handleNewBlock.
  cbn [ethp2p.Payload].
  rewrite bind_run. cbn [atomicAdd modify fst snd].
  rewrite bind_run. cbn [gets fst snd].
  set (c1 := set_count (add_Blocks 1 (count c)) c).
  rewrite bind_run.
  set (c2 :=
    snd ((if (Uint64 (types.BlockNumber block) >? Number (head c1))
             && (Cmp td (TotalDifficulty (head c1)) =? 1)
          then
            modify (set_head (candidate block td)) ;;
            new <- gets head ;; logger (LogSettingHead new)
          else ret tt) c1)).
  assert (E2 : db c2 = db c /\ node c2 = node c /\
               writes (events c2) = writes (events c) /\
               backfills (events c2) = backfills (events c)).
  { subst c2.
    destruct ((Uint64 (types.BlockNumber block) >? Number (head c1))
              && (Cmp td (TotalDifficulty (head c1)) =? 1)).
    - cbn. rewrite writes_app, backfills_app. cbn. rewrite !app_nil_r.
      repeat split.
    - repeat split. }
  destruct E2 as (Edb & Enode & Ew & Eb).
  assert (Eok :
    fst ((if (Uint64 (types.BlockNumber block) >? Number (head c1))
             && (Cmp td (TotalDifficulty (head c1)) =? 1)
          then
            modify (set_head (candidate block td)) ;;
            new <- gets head ;; logger (LogSettingHead new)
          else ret tt) c1) = Ok tt).
  { destruct ((Uint64 (types.BlockNumber block) >? Number (head c1))
              && (Cmp td (TotalDifficulty (head c1)) =? 1)); reflexivity. }
  unfold candidate in Eok, c2. rewrite Eok. fold c2.
  pose proof
    (then_write_node (getParentBlock (types.header block))
       (fun _ n d => database.WriteBlock d n block td)
       (fun _ n => EvWriteBlock n block td) c2
       (fun d n w => getParentBlock_Unwritten d n w (types.header block))
       (fun _ _ => eq_refl)) as Hw.
  cbv zeta in Hw. rewrite Edb, Enode, Ew in Hw.
  intros Hhead Hcount. split.
  - intros Hok.
    destruct (fst (getParentBlock (types.header block) c2)) as [[] | e].
    + destruct Hw as (_ & D & W & _). split; assumption.
    + destruct Hw as (R & _). unfold M in *. rewrite R in Hok.
      discriminate Hok.
  - intros e Herr.
    destruct (fst (getParentBlock (types.header block) c2)) as [[] | e']
      eqn:Eg.
    + destruct Hw as (R & _). unfold M in *. rewrite R in Herr.
      discriminate Herr.
    + destruct Hw as (_ & D & W & S).
      split; [exact D |]. split; [exact W |]. split.
      * unfold M in *. rewrite S.
        rewrite (getParentBlock_error _ _ _ Eg), Eb. reflexivity.
      * split; [| exact Hhead]. rewrite Hcount. reflexivity.
Qed.

End Writes.

(** Three announced hashes on a stream that refuses the third write: the
    first hash is fetched, the fetch of the second fails, nothing is
    written.  On a stream that accepts every write the three hashes are
    written at once. *)
Lemma handleNewBlockHashes_writes_witness :
  (fetched
     (events (snd (handleNewBlockHashes (hashesMsg [5%N; 6%N; 7%N])
                     (refusing [None; None; Some (ErrIO "closed")])))) = [5%N] /\
   writes
     (events (snd (handleNewBlockHashes (hashesMsg [5%N; 6%N; 7%N])
                     (refusing [None; None; Some (ErrIO "closed")])))) = []) /\
  writes (events (snd (handleNewBlockHashes (hashesMsg [5%N; 6%N; 7%N])
                         testConn))) =
    [EvWriteBlockHashes 1%N [5%N; 6%N; 7%N]].
Proof.
  split.
  - destruct
      (handleNewBlockHashes_writes eth.NewBlockHashesMsg
         [(5%N, 0); (6%N, 0); (7%N, 0)] None
         (refusing [None; None; Some (ErrIO "closed")]))
      as (done & rest & _ & _ & _ & Hfail).
    destruct (Hfail (ErrIO "closed") eq_refl) as (_ & W).
    split; [reflexivity | exact W].
  - destruct
      (handleNewBlockHashes_writes eth.NewBlockHashesMsg
         [(5%N, 0); (6%N, 0); (7%N, 0)] None testConn)
      as (done & rest & _ & _ & Hok & _).
    destruct (Hok eq_refl) as (_ & _ & W). exact W.
Defined.

(** A response with headers 1000 and 1005 to a connection without a
    floor: header 1000 becomes the floor, the parent of 1005 is fetched,
    the two headers are written. *)
Lemma handleBlockHeaders_writes_witness :
  oldestBlock (snd (handleBlockHeaders
                      (headersMsg [headerAt 1000; headerAt 1005]) testConn)) =
    Some (headerAt 1000) /\
  writes (events (snd (handleBlockHeaders
                         (headersMsg [headerAt 1000; headerAt 1005])
                         testConn))) =
    [EvWriteBlockHeaders [headerAt 1000; headerAt 1005]].
Proof.
  destruct
    (handleBlockHeaders_writes eth.BlockHeadersMsg 0
       [headerAt 1000; headerAt 1005] None testConn)
    as (Hok & _ & Hfloor).
  split.
  - apply (Hfloor (headerAt 1000) [headerAt 1005]); reflexivity.
  - destruct (Hok eq_refl) as (_ & W). exact W.
Defined.

(** Block 1005 with total difficulty 200 arrives on a connection whose
    floor is header 1000 while the stream refuses writes: the handler
    returns the error of the backfill, the block is not written, and the
    head is block 1005 all the same. *)
Lemma handleNewBlock_writes_witness :
  writes (events (snd (handleNewBlock (newBlockMsg 1005 200) fetchFailing))) =
    writes (events fetchFailing) /\
  head (snd (handleNewBlock (newBlockMsg 1005 200) fetchFailing)) =
    {| Hash := 1005%N; TotalDifficulty := 200; Number := 1005 |}.
Proof.
  destruct
    (handleNewBlock_writes eth.NewBlockMsg (blockAt 1005) 200 None
       fetchFailing) as (_ & Hfail).
  destruct (Hfail (ErrIO "closed") eq_refl) as (_ & W & _ & _ & Hd).
  split; [exact W | exact Hd].
Defined.

(** ** The request tracker *)

Section Subsequences.

Context {A : Type}.


Lemma Subseq_app_r (l l' more : list A) :
  Subseq l l' -> Subseq l (l' ++ more).
Proof.
  induction 1 as [| x l l' _ IH | x l l' _ IH]; cbn [app].
  - induction more; constructor; assumption.
  - apply Subseq_skip, IH.
  - apply Subseq_take, IH.
Qed.




Lemma Subseq_length (l l' : list A) :
  Subseq l l' -> (List.length l <= List.length l')%nat.
Proof. induction 1; cbn [List.length]; lia. Qed.


End Subsequences.






Section Tracker.

Context {RW DB : Type}.
Context `{ethp2p.MsgReadWriter RW} `{database.Database DB}.

Local Abbreviation conn := (conn RW DB).
Local Abbreviation M := (M RW DB).

Lemma rangeHeaders_Keeps (I : conn -> Prop) :
  (forall header, Keeps I (getParentBlock header)) ->
  forall headers, Keeps I (rangeHeaders headers).
Proof.
  intros Hg headers. induction headers as [| header rest IH]; simpl.
  - apply Keeps_ret.
  - apply Keeps_bind; [apply Hg | intros _; apply IH].
Qed.

Lemma rangeNewBlockHashes_Keeps (I : conn -> Prop) :
  (forall h, Keeps I (getBlockData h)) ->
  forall packet hashes, Keeps I (rangeNewBlockHashes packet hashes).
Proof.
  intros Hg packet. induction packet as [| hash rest IH]; intros hashes; simpl.
  - apply Keeps_ret.
  - apply Keeps_bind; [apply Hg | intros _; apply IH].
Qed.








End Tracker.

Section TrackerProperties.

Context {RW DB : Type}.
Context `{ethp2p.MsgReadWriter RW} `{database.Database DB}.

Local Abbreviation conn := (conn RW DB).
Local Abbreviation M := (M RW DB).



(** With distinct identifiers, the loop of handleBlockBodies leaves no
    entry under the identifier it looked for. *)
Lemma scanRequests_consumes (id : Z) (l : list request) :
  NoDup (map requestID l) ->
  forall r, In r (snd (scanRequests id l)) -> requestID r <> id.
Proof.
  induction l as [| r0 l IH]; cbn [scanRequests map]; intros Hnd r Hin.
  - destruct Hin.
  - inversion Hnd as [| x xs Hnotin Hnd']; subst.
    destruct (Z.eqb_spec (requestID r0) id) as [E | Hne].
    + cbn [snd] in Hin. intros Er. apply Hnotin. rewrite E, <- Er.
      apply in_map, Hin.
    + destruct (scanRequests id l) as [found rest]. cbn [snd] in *.
      destruct Hin as [<- | Hin]; [exact Hne | apply (IH Hnd' r Hin)].
Qed.

(** When the pending identifiers are pairwise distinct, a non-empty
    block-bodies response uses up its identifier: afterwards no pending
    entry has it, so a second response with the same identifier is
    dropped with the warning, leaving the pending sequence and the
    database as they are. *)
Theorem response_consumed_once (code code' id : Z)
  (body0 body1 : eth.BlockBody) (more more' : list eth.BlockBody)
  (d d' : option error) (c : conn) :
  NoDup (pendingIDs c) ->
  let c1 :=
    snd (handleBlockBodies
           {| ethp2p.Code := code;
              ethp2p.Payload := eth.BlockBodiesPacket66 id (body0 :: more);
              ethp2p.Discard := d |} c) in
  let c2 :=
    snd (handleBlockBodies
           {| ethp2p.Code := code';
              ethp2p.Payload := eth.BlockBodiesPacket66 id (body1 :: more');
              ethp2p.Discard := d' |} c1) in
  (forall r, In r (requests c1) -> requestID r <> id) /\
  requests c2 = requests c1 /\
  db c2 = db c1 /\
  events c2 = events c1 ++ [EvLog LogNoBlockHash].
Proof.
  intros Hnd c1 c2.
  assert (H1 : forall r, In r (requests c1) -> requestID r <> id).
  { subst c1. rewrite handleBlockBodies_run. cbn zeta.
    pose proof (scanRequests_consumes id (requests c) Hnd) as Hc.
    destruct (scanRequests id (requests c)) as [[h |] l']; exact Hc. }
  split; [exact H1 |]. subst c2. rewrite handleBlockBodies_run. cbn zeta.
  rewrite (scanRequests_missing id (requests c1) H1). repeat split.
Qed.

End TrackerProperties.



(** A second response to the request with identifier 2 finds nothing
    pending and is dropped with the warning. *)
Lemma response_consumed_once_witness :
  events
    (snd (handleBlockBodies (bodiesMsg 2 [body 22])
            (snd (handleBlockBodies (bodiesMsg 2 [body 21])
                    (snd (dispatch (hashesMsg [5%N; 6%N; 7%N]) testConn)))))) =
  events
    (snd (handleBlockBodies (bodiesMsg 2 [body 21])
            (snd (dispatch (hashesMsg [5%N; 6%N; 7%N]) testConn)))) ++
  [EvLog LogNoBlockHash].
Proof.
  destruct
    (response_consumed_once eth.BlockBodiesMsg eth.BlockBodiesMsg 2
       (body 21) (body 22) [] [] None None
       (snd (dispatch (hashesMsg [5%N; 6%N; 7%N]) testConn)))
    as (_ & _ & _ & E).
  - change (NoDup [1; 2; 3]).
    repeat (constructor; [cbn; intuition discriminate |]). constructor.
  - exact E.
Defined.

(** ** The dispatch loop *)

Section Loop.

Context {RW DB : Type}.
Context `{ethp2p.MsgReadWriter RW} `{database.Database DB}.

Local Abbreviation conn := (conn RW DB).
Local Abbreviation M := (M RW DB).

(** A message whose code has a handler but whose payload does not decode
    ends the connection: the handler returns the decode error without
    having changed anything, not even a counter, and the loop returns
    that error after logging it, without discarding the message and
    without reading further. *)
Theorem undecodable_message_ends_connection (msg : ethp2p.Msg) (c : conn) :
  handled (ethp2p.Code msg) = true ->
  decodes msg = false ->
  dispatch msg c = (Err ErrDecode, c) /\
  forall rw1 fuel,
    ethp2p.ReadMsg (rw c) = (Ok msg, rw1) ->
    loop (S fuel) c =
      (Some ErrDecode,
       emit (EvLog (LogError ErrDecode))
         (emit (EvRead (Ok msg)) (set_rw rw1 c))).
Proof.
  intros Hh Hd.
  assert (Hdis : forall c0 : conn, dispatch msg c0 = (Err ErrDecode, c0)).
  { intros c0. destruct msg as [code payload discard].
    unfold handled, decodes, dispatch in *.
    cbn [ethp2p.Code ethp2p.Payload existsb] in *.
    repeat match goal with
           | |- context [code =? ?X] =>
               destruct (Z.eqb_spec code X) as [-> | ?]
           end;
      try discriminate Hh;
      destruct payload; try discriminate Hd; reflexivity. }
  split; [apply Hdis |].
  intros rw1 fuel Hr. cbn [loop]. unfold iteration, bind at 1, ReadMsg.
  rewrite Hr. unfold bind. rewrite Hdis. reflexivity.
Qed.

(** A message whose code has no handler, such as a second status
    message, is logged and otherwise ignored: nothing changes but the
    log, and the loop goes on with the next message, unless discarding
    the message fails, which ends the connection with that error. *)
Theorem unhandled_message_is_ignored (msg : ethp2p.Msg) (c : conn) :
  handled (ethp2p.Code msg) = false ->
  dispatch msg c = (Ok tt, emit (EvLog (LogTrace msg)) c) /\
  forall rw1 fuel,
    ethp2p.ReadMsg (rw c) = (Ok msg, rw1) ->
    let c1 :=
      emit (EvLog (LogTrace msg)) (emit (EvRead (Ok msg)) (set_rw rw1 c)) in
    loop (S fuel) c =
      match ethp2p.Discard msg with
      | None => loop fuel c1
      | Some e => (Some e, c1)
      end.
Proof.
  intros Hh.
  assert (Hdis : forall c0 : conn,
            dispatch msg c0 = (Ok tt, emit (EvLog (LogTrace msg)) c0)).
  { intros c0. destruct msg as [code payload discard].
    unfold handled, dispatch in *. cbn [ethp2p.Code existsb] in *.
    repeat match goal with
           | |- context [code =? ?X] =>
               destruct (Z.eqb_spec code X) as [-> | ?]
           end;
      try discriminate Hh.
    reflexivity. }
  split; [apply Hdis |].
  intros rw1 fuel Hr c1. subst c1. cbn [loop].
  unfold iteration, bind at 1, ReadMsg. rewrite Hr. unfold bind.
  rewrite Hdis. destruct (ethp2p.Discard msg); reflexivity.
Qed.

End Loop.

(** A block-bodies message with a garbled payload ends the loop with the
    decode error and leaves the three pending requests alone. *)
Lemma undecodable_message_ends_connection_witness :
  fst (loop 3 (reading garbledMsg)) = Some ErrDecode /\
  requests (snd (loop 3 (reading garbledMsg))) = requests pendingConn.
Proof.
  destruct (undecodable_message_ends_connection garbledMsg
              (reading garbledMsg) eq_refl eq_refl) as [_ Hloop].
  rewrite (Hloop _ 2%nat eq_refl). split; reflexivity.
Defined.

(** A status message after the handshake is ignored: the loop reads on
    and ends at the end of the stream. *)
Lemma unhandled_message_is_ignored_witness :
  fst (loop 3 (reading (statusMsg 1))) = Some (ErrIO "EOF") /\
  requests (snd (loop 3 (reading (statusMsg 1)))) = requests pendingConn.
Proof.
  destruct (unhandled_message_is_ignored (statusMsg 1) (reading (statusMsg 1))
              eq_refl) as [_ Hloop].
  rewrite (Hloop _ 2%nat eq_refl). split; reflexivity.
Defined.

(** ** Requests of the peer, and what is never answered *)

Section Answers.

Context {RW DB : Type}.
Context `{ethp2p.MsgReadWriter RW} `{database.Database DB}.

Local Abbreviation conn := (conn RW DB).
Local Abbreviation M := (M RW DB).

(** A request of the peer for headers, bodies, pooled transactions or
    receipts is answered with one message: the response of its kind,
    with the request's identifier and no content.  The handler returns
    what sending it returned, and neither the database nor the head nor
    the request tracker nor the floor is touched. *)
Theorem requests_answered_empty (msg : ethp2p.Msg) (c : conn) (code : Z)
  (p : eth.Packet) :
  reply msg = Some (code, p) ->
  let c' := snd (dispatch msg c) in
  fst (dispatch msg c) = result (fst (ethp2p.WriteMsg (rw c) code p)) /\
  rw c' = snd (ethp2p.WriteMsg (rw c) code p) /\
  events c' =
    events c ++ [EvSend code p (fst (ethp2p.WriteMsg (rw c) code p))] /\
  db c' = db c /\ head c' = head c /\ requests c' = requests c /\
  requestNum c' = requestNum c /\ oldestBlock c' = oldestBlock c.
Proof.
  destruct msg as [mcode payload discard]. unfold reply, dispatch.
  cbn [ethp2p.Code ethp2p.Payload].
  destruct payload; try discriminate;
    match goal with
    | |- (if mcode =? ?X then _ else _) = _ -> _ =>
        destruct (Z.eqb_spec mcode X) as [-> | ?]; [| discriminate]
    end;
    intros E; injection E as <- <-; cbn;
    unfold bind, atomicAdd, modify, Send; cbn;
    match goal with
    | |- context [ethp2p.WriteMsg ?r ?k ?q] =>
        destruct (ethp2p.WriteMsg r k q) as [[e |] rw1]
    end;
    cbn; repeat split.
Qed.

(** ethp2p.Send in one equation. *)
Lemma Send_run (code : Z) (data : eth.Packet) (c : conn) :
  Send code data c =
    (result (fst (ethp2p.WriteMsg (rw c) code data)),
     emit (EvSend code data (fst (ethp2p.WriteMsg (rw c) code data)))
       (set_rw (snd (ethp2p.WriteMsg (rw c) code data)) c)).
Proof.
  unfold Send.
  destruct (ethp2p.WriteMsg (rw c) code data) as [[e |] rw1]; reflexivity.
Qed.

Lemma Silent_emit (s : list (Z * eth.Packet)) (r : RW) (n : Z) (e : Event)
  (c : conn) :
  sent [e] = [] -> Silent s r n c -> Silent s r n (emit e c).
Proof.
  intros He (Hs & Hr & Hn). repeat split; try assumption.
  cbn [events emit]. rewrite sent_app, He, app_nil_r. exact Hs.
Qed.

(** Transactions, pooled transactions and block bodies are never
    answered: whatever their payload, handling such a message sends
    nothing, leaves the stream alone and gives out no request
    identifier. *)
Theorem data_messages_are_not_answered (msg : ethp2p.Msg) (c : conn) :
  ethp2p.Code msg = eth.TransactionsMsg \/
  ethp2p.Code msg = eth.PooledTransactionsMsg \/
  ethp2p.Code msg = eth.BlockBodiesMsg ->
  sent (events (snd (dispatch msg c))) = sent (events c) /\
  rw (snd (dispatch msg c)) = rw c /\
  requestNum (snd (dispatch msg c)) = requestNum c.
Proof.
  intros Hcode.
  assert (Hk : Keeps (Silent (sent (events c)) (rw c) (requestNum c))
                 (dispatch msg : M unit)).
  { unfold dispatch. cbn zeta.
    destruct Hcode as [-> | [-> | ->]]; cbn [Z.eqb Pos.eqb eth.NewBlockHashesMsg
      eth.TransactionsMsg eth.GetBlockHeadersMsg eth.BlockHeadersMsg
      eth.GetBlockBodiesMsg eth.BlockBodiesMsg eth.NewBlockMsg
      eth.NewPooledTransactionHashesMsg eth.GetPooledTransactionsMsg
      eth.PooledTransactionsMsg];
      unfold handleTransactions, handlePooledTransactions, handleBlockBodies;
      keeps idtac
        ltac:(first
                [ assumption
                | apply Silent_emit; [reflexivity | assumption] ]). }
  apply Hk. repeat split.
Qed.

(** handleNewPooledTransactionHashes asks for the announced transactions
    only when the database stores transactions and transaction events;
    it then sends one get-pooled-transactions request with exactly the
    announced hashes, also when there are none, and returns what sending
    returned.  Otherwise it sends nothing.  The announcement is counted
    in both cases and the request tracker is not involved. *)
Theorem handleNewPooledTransactionHashes_policy (code : Z)
  (txs : list common.Hash) (d : option error) (c : conn) :
  let msg :=
    {| ethp2p.Code := code;
       ethp2p.Payload := eth.NewPooledTransactionHashesPacket txs;
       ethp2p.Discard := d |} in
  let r := handleNewPooledTransactionHashes msg c in
  let request := eth.GetPooledTransactionsPacket66 0 txs in
  let wanted :=
    database.ShouldWriteTransactions (db c) = true /\
    database.ShouldWriteTransactionEvents (db c) = true in
  (wanted ->
   fst r =
     result (fst (ethp2p.WriteMsg (rw c) eth.GetPooledTransactionsMsg
                    request)) /\
   sent (events (snd r)) =
     sent (events c) ++ [(eth.GetPooledTransactionsMsg, request)]) /\
  (~ wanted ->
   fst r = Ok tt /\ sent (events (snd r)) = sent (events c) /\
   rw (snd r) = rw c) /\
  TransactionHashes (count (snd r)) =
    AddInt32 (TransactionHashes (count c)) (Int32 (len txs)) /\
  requests (snd r) = requests c /\ requestNum (snd r) = requestNum c /\
  db (snd r) = db c.
Proof.
  intros msg r request wanted. subst msg r request wanted.
  unfold handleNewPooledTransactionHashes. cbn [ethp2p.Payload].
  unfold bind, atomicAdd, modify, gets, ret. cbn [db set_count].
  destruct (database.ShouldWriteTransactions (db c));
    destruct (database.ShouldWriteTransactionEvents (db c));
    cbn [negb orb].
  - rewrite Send_run.
    cbn [fst snd events emit set_rw set_count count requests requestNum db
         rw TransactionHashes add_TransactionHashes].
    rewrite sent_app. cbn [sent].
    split; [intros _; split; reflexivity |].
    split; [intros Hnot; exfalso; apply Hnot; split; reflexivity |].
    repeat split.
  - split; [intros [_ W]; discriminate W |].
    split; [intros _ |]; repeat split.
  - split; [intros [W _]; discriminate W |].
    split; [intros _ |]; repeat split.
  - split; [intros [W _]; discriminate W |].
    split; [intros _ |]; repeat split.
Qed.

End Answers.

(** A request for two bodies under identifier 9 is answered with an
    empty block-bodies response under identifier 9. *)
Lemma requests_answered_empty_witness :
  sent (events (snd (dispatch (getBodiesMsg 9) testConn))) =
    [(eth.BlockBodiesMsg, eth.BlockBodiesPacket66 9 [])].
Proof.
  destruct
    (requests_answered_empty (getBodiesMsg 9) testConn eth.BlockBodiesMsg
       (eth.BlockBodiesPacket66 9 []) eq_refl) as (_ & _ & E & _).
  rewrite E. reflexivity.
Defined.

(** Two transactions reach a connection with requests pending: nothing
    is sent. *)
Lemma data_messages_are_not_answered_witness :
  sent (events (snd (dispatch (transactionsMsg [31%N; 32%N]) pendingConn))) =
    [].
Proof.
  destruct
    (data_messages_are_not_answered (transactionsMsg [31%N; 32%N])
       pendingConn (or_introl eq_refl)) as (S & _).
  exact S.
Defined.

(** An empty announcement still brings a request, with no hashes, when
    the database stores transactions; an announcement of two hashes
    brings none when it does not. *)
Lemma handleNewPooledTransactionHashes_policy_witness :
  sent (events (snd (handleNewPooledTransactionHashes (pooledHashesMsg [])
                       testConn))) =
    [(eth.GetPooledTransactionsMsg, eth.GetPooledTransactionsPacket66 0 [])] /\
  sent (events (snd (handleNewPooledTransactionHashes
                       (pooledHashesMsg [31%N; 32%N]) blocksOnlyConn))) = [].
Proof.
  split.
  - destruct
      (handleNewPooledTransactionHashes_policy
         eth.NewPooledTransactionHashesMsg [] None testConn)
      as (Hask & _).
    destruct (Hask (conj eq_refl eq_refl)) as (_ & S). exact S.
  - destruct
      (handleNewPooledTransactionHashes_policy
         eth.NewPooledTransactionHashesMsg [31%N; 32%N] None blocksOnlyConn)
      as (_ & Hskip & _).
    destruct Hskip as (_ & S & _); [| exact S].
    intros [W _]. discriminate W.
Defined.

(** ** The counters over the dispatch loop *)

Lemma reads_app (l1 l2 : list Event) :
  reads (l1 ++ l2) = reads l1 ++ reads l2.
Proof.
  induction l1 as [| e l1 IH]; [reflexivity |].
  destruct e; simpl; rewrite IH; reflexivity.
Qed.

Lemma Int32_range (z : Z) : IsInt32 (Int32 z).
Proof.
  unfold IsInt32, MinInt32, MaxInt32, Int32.
  pose proof (Z.mod_pos_bound (z + 2 ^ 31) (2 ^ 32) eq_refl). lia.
Qed.

Lemma Int32_add_l (a b : Z) : Int32 (Int32 a + b) = Int32 (a + b).
Proof.
  unfold Int32. f_equal.
  replace ((a + 2 ^ 31) mod 2 ^ 32 - 2 ^ 31 + b + 2 ^ 31)
    with ((a + 2 ^ 31) mod 2 ^ 32 + b) by lia.
  rewrite Z.add_mod_idemp_l by discriminate. f_equal. lia.
Qed.

Lemma tally_nonneg (k : Counter) (rs : list (Res ethp2p.Msg)) :
  0 <= tally k rs.
Proof.
  induction rs as [| [msg | e] rs IH]; cbn [tally]; [lia | | exact IH].
  pose proof (carriedBy_nonneg k msg). lia.
Qed.

Section LoopCounters.

Context {RW DB : Type}.
Context `{ethp2p.MsgReadWriter RW} `{database.Database DB}.

Local Abbreviation conn := (conn RW DB).
Local Abbreviation M := (M RW DB).

Lemma Unread_emit (evs0 : list Event) (e : Event) (c : conn) :
  reads [e] = [] -> Unread evs0 c -> Unread evs0 (emit e c).
Proof.
  intros He (new & E & R). exists (new ++ [e]). cbn [events emit].
  rewrite E, app_assoc, reads_app, R, He. split; reflexivity.
Qed.

Ltac unread_step :=
  first [assumption | apply Unread_emit; [reflexivity | assumption]].

Lemma getBlockData_Unread (evs0 : list Event) (h : common.Hash) :
  Keeps (Unread evs0) (getBlockData h : M unit).
Proof. unfold getBlockData. keeps idtac unread_step. Qed.

Lemma getParentBlock_Unread (evs0 : list Event) (header : types.Header) :
  Keeps (Unread evs0) (getParentBlock header : M unit).
Proof.
  unfold getParentBlock. keeps ltac:(apply getBlockData_Unread) unread_step.
Qed.

(** No handler reads from the stream. *)
Lemma dispatch_Unread (evs0 : list Event) (msg : ethp2p.Msg) :
  Keeps (Unread evs0) (dispatch msg : M unit).
Proof.
  unfold dispatch, handleNewBlockHashes, handleTransactions,
    handleGetBlockHeaders, handleBlockHeaders, handleGetBlockBodies,
    handleBlockBodies, handleNewBlock, handleNewPooledTransactionHashes,
    handleGetPooledTransactions, handlePooledTransactions, handleGetReceipts.
  cbn zeta.
  repeat match goal with
         | |- Keeps _ (if ?b then _ else _) => destruct b
         end;
    keeps
      ltac:(first
              [ apply getBlockData_Unread
              | apply getParentBlock_Unread
              | apply rangeNewBlockHashes_Keeps; apply getBlockData_Unread
              | apply rangeHeaders_Keeps; apply getParentBlock_Unread ])
      unread_step.
Qed.

(** One turn of the loop, case by case. *)
Lemma iteration_run (c : conn) :
  iteration c =
    match ethp2p.ReadMsg (rw c) with
    | (Err e, rw1) => (Err e, emit (EvRead (Err e)) (set_rw rw1 c))
    | (Ok msg, rw1) =>
        match dispatch msg (emit (EvRead (Ok msg)) (set_rw rw1 c)) with
        | (Err e, c2) => (Err e, emit (EvLog (LogError e)) c2)
        | (Ok _, c2) => (result (ethp2p.Discard msg), c2)
        end
    end.
Proof.
  unfold iteration, bind at 1, ReadMsg.
  destruct (ethp2p.ReadMsg (rw c)) as [[msg | e] rw1]; [| reflexivity].
  unfold bind.
  destruct (dispatch msg (emit (EvRead (Ok msg)) (set_rw rw1 c)))
    as [[[] | e] c2]; [| reflexivity].
  destruct (ethp2p.Discard msg); reflexivity.
Qed.

(** Over the dispatch loop every counter accounts for every message
    read: it ends at its starting value plus the items carried by all
    the messages read, the one whose handler or discard ended the loop
    included, in int32 arithmetic; exactly so when the sum does not
    exceed the largest int32. *)
Theorem loop_counts_every_message (k : Counter) (fuel : nat) (c : conn) :
  IsInt32 (counter k (count c)) ->
  exists new,
    events (snd (loop fuel c)) = events c ++ new /\
    counter k (count (snd (loop fuel c))) =
      Int32 (counter k (count c) + tally k (reads new)) /\
    (counter k (count c) + tally k (reads new) <= MaxInt32 ->
     counter k (count (snd (loop fuel c))) =
       counter k (count c) + tally k (reads new)).
Proof.
  assert (Hmain : forall c0 : conn,
    IsInt32 (counter k (count c0)) ->
    exists new,
      events (snd (loop fuel c0)) = events c0 ++ new /\
      counter k (count (snd (loop fuel c0))) =
        Int32 (counter k (count c0) + tally k (reads new))).
  { induction fuel as [| fuel IH]; intros c0 Hk.
    - exists []. cbn. rewrite app_nil_r, Z.add_0_r, Int32_small by exact Hk.
      split; reflexivity.
    - cbn [loop]. rewrite iteration_run.
      destruct (ethp2p.ReadMsg (rw c0)) as [[msg | e] rw1].
      2:{ exists [EvRead (Err e)]. cbn.
          rewrite Z.add_0_r, Int32_small by exact Hk. split; reflexivity. }
      set (c1 := emit (EvRead (Ok msg)) (set_rw rw1 c0)).
      pose proof (dispatch_count msg c1 k Hk) as Hcount.
      rewrite AddInt32_Int32 in Hcount.
      change (count c1) with (count c0) in Hcount.
      destruct (dispatch_Unread (events c1) msg c1)
        as (new2 & E2 & R2).
      { exists []. rewrite app_nil_r. split; reflexivity. }
      change (events c1) with (events c0 ++ [EvRead (Ok msg)]) in E2.
      rewrite <- app_assoc in E2. cbn [app] in E2.
      destruct (dispatch msg c1) as [[[] | e] c2]; cbn [snd] in *.
      + destruct (ethp2p.Discard msg) as [e |]; cbn [result].
        * exists (EvRead (Ok msg) :: new2). cbn [snd reads tally].
          rewrite R2. cbn [tally]. rewrite Z.add_0_r.
          split; assumption.
        * destruct (IH c2) as (new3 & E3 & C3).
          { rewrite Hcount. apply Int32_range. }
          exists (EvRead (Ok msg) :: new2 ++ new3).
          rewrite E3, E2, <- app_assoc. cbn [app]. split; [reflexivity |].
          cbn [reads tally]. rewrite reads_app, R2. cbn [app].
          rewrite C3, Hcount, Int32_add_l, Z.add_assoc. reflexivity.
      + exists (EvRead (Ok msg) :: new2 ++ [EvLog (LogError e)]).
        cbn [snd events emit count]. rewrite E2, <- app_assoc. cbn [app].
        split; [reflexivity |].
        cbn [reads tally]. rewrite reads_app, R2. cbn [reads app tally].
        rewrite Z.add_0_r. exact Hcount. }
  intros Hk. destruct (Hmain c Hk) as (new & E & C).
  exists new. split; [exact E |]. split; [exact C |].
  intros Hfit. rewrite C. apply Int32_small.
  pose proof (tally_nonneg k (reads new)). unfold IsInt32 in *. lia.
Qed.

End LoopCounters.

(** The loop reads an announcement of two hashes and then a message that
    does not decode, which ends it: the counter of block hashes stands
    at 2, and the third message was never read. *)
Lemma loop_counts_every_message_witness :
  BlockHashes (count (snd (loop 5 busyConn))) = 2 /\
  exists new,
    events (snd (loop 5 busyConn)) = events busyConn ++ new /\
    BlockHashes (count (snd (loop 5 busyConn))) =
      Int32 (0 + tally CBlockHashes (reads new)).
Proof.
  split; [reflexivity |].
  destruct (loop_counts_every_message CBlockHashes 5 busyConn)
    as (new & E & C & _).
  - split; discriminate.
  - exists new. split; [exact E | exact C].
Defined.

(** ** The backfills of a block-headers response *)

Lemma UpToLast_refl {A : Type} (l : list A) : UpToLast l l.
Proof. left. reflexivity. Qed.

Lemma UpToLast_app {A : Type} (p s l : list A) :
  UpToLast s l -> UpToLast (p ++ s) (p ++ l).
Proof.
  intros [-> | (x & ->)]; [left; reflexivity |].
  right. exists x. apply app_assoc.
Qed.

Section Backfills.

Context {RW DB : Type}.
Context `{ethp2p.MsgReadWriter RW} `{database.Database DB}.

Local Abbreviation conn := (conn RW DB).
Local Abbreviation M := (M RW DB).

(** One call of getParentBlock, by what it hands to ethp2p.Send: nothing,
    with no backfill logged and the request counter as it was; or, for a
    header above the floor whose parent the database does not have, the
    backfill is logged and the requests of one fetch of the parent hash
    are sent, the second only if the first was accepted. *)
Lemma getParentBlock_requests (header : types.Header) (c : conn) :
  let r := getParentBlock header c in
  let parent := types.ParentHash header in
  (forall f, oldestBlock c = Some f -> oldestBlock (snd r) = Some f) /\
  ((fst r = Ok tt /\
    backfills (events (snd r)) = backfills (events c) /\
    sent (events (snd r)) = sent (events c) /\
    fetched (events (snd r)) = fetched (events c) /\
    requestNum (snd r) = requestNum c) \/
   ((exists f,
       oldestBlock c = Some f /\ types.Number f < types.Number header) /\
    database.HasBlock (db c) parent = false /\
    backfills (events (snd r)) = backfills (events c) ++ [parentOf header] /\
    (((exists e, fst r = Err e) /\
      sent (events (snd r)) =
        sent (events c) ++ [(eth.GetBlockHeadersMsg, headersRequest parent)] /\
      fetched (events (snd r)) = fetched (events c)) \/
     (sent (events (snd r)) =
        sent (events c) ++ fetchRequests (requestNum c) [parent] /\
      fetched (events (snd r)) = fetched (events c) ++ [parent] /\
      requestNum (snd r) = incr64 (requestNum c))))).
Proof.
  intros r parent. subst r parent. rewrite getParentBlock_run.
  destruct (negb (database.ShouldWriteBlocks (db c))
            || negb (database.ShouldWriteBlockEvents (db c))).
  { split; [auto | left; repeat split; reflexivity]. }
  destruct (oldestBlock c) as [oldest |] eqn:Hold.
  2:{ split; [intros f Hf; discriminate Hf | left].
      cbn [fst snd events emit set_oldestBlock requestNum].
      rewrite backfills_app, sent_app, fetched_app. cbn.
      rewrite !app_nil_r. repeat split; reflexivity. }
  destruct (database.HasBlock (db c) (types.ParentHash header)) eqn:Hhas.
  { cbn [orb fst snd].
    split; [intros f Hf; rewrite <- Hf; exact Hold |].
    left; repeat split; reflexivity. }
  destruct (Z.ltb_spec (types.Number oldest) (types.Number header))
    as [Hlt | Hge]; cbn [negb orb].
  2:{ cbn [fst snd].
      split; [intros f Hf; rewrite <- Hf; exact Hold |].
      left; repeat split; reflexivity. }
  rewrite getBlockData_run. cbn [rw emit db].
  destruct (ethp2p.WriteMsg (rw c) eth.GetBlockHeadersMsg _) as [[e |] rw1].
  - cbn [fst snd events emit set_rw oldestBlock].
    split; [intros f Hf; rewrite <- Hf; exact Hold |]. right.
    split; [exists oldest; split; [reflexivity | exact Hlt] |].
    split; [reflexivity |].
    rewrite <- !app_assoc, backfills_app, sent_app, fetched_app.
    cbn [app backfills sent fetched parentOf]. rewrite !app_nil_r.
    split; [reflexivity |]. left.
    split; [exists e; reflexivity |]. split; reflexivity.
  - cbn zeta. cbn [requestNum emit].
    destruct (ethp2p.WriteMsg rw1 eth.GetBlockBodiesMsg _) as [r rw2].
    cbn [fst snd events emit set_rw set_requests set_requestNum oldestBlock
         requestNum].
    split; [intros f Hf; rewrite <- Hf; exact Hold |]. right.
    split; [exists oldest; split; [reflexivity | exact Hlt] |].
    split; [reflexivity |].
    rewrite <- !app_assoc, backfills_app, sent_app, fetched_app.
    cbn [app backfills sent fetched parentOf fetchRequests headersRequest
         bodiesRequest eth.Hash].
    rewrite Z.eqb_refl.
    split; [reflexivity |]. right. repeat split; reflexivity.
Qed.

(** The loop of handleBlockHeaders, by what it hands to ethp2p.Send: the
    backfills it logs are for parents of the headers, in their order,
    none below the floor, and the messages it sends are the requests of
    the fetches of those parents and nothing else; the last request is
    missing when the get-headers request of the last fetch was
    refused. *)
Lemma rangeHeaders_requests (headers : list types.Header) (c : conn) :
  let c' := snd (rangeHeaders headers c) in
  exists l s g,
    backfills (events c') = backfills (events c) ++ l /\
    sent (events c') = sent (events c) ++ s /\
    fetched (events c') = fetched (events c) ++ g /\
    Subseq l (map parentOf headers) /\
    (forall f,
       oldestBlock c = Some f ->
       oldestBlock c' = Some f /\
       Forall (fun b => types.Number f <= snd b) l) /\
    UpToLast s (fetchRequests (requestNum c) (map fst l)) /\
    UpToLast g (map fst l).
Proof.
  revert c. induction headers as [| header rest IH]; intros c; cbv zeta.
  - exists [], [], []. cbn. rewrite !app_nil_r.
    split; [reflexivity |]. split; [reflexivity |]. split; [reflexivity |].
    split; [constructor |].
    split; [intros f Hf; split; [exact Hf | constructor] |].
    split; apply UpToLast_refl.
  - cbn [rangeHeaders map]. rewrite bind_run.
    destruct (getParentBlock_requests header c) as (Hold & Hcall).
    cbv zeta in Hold, Hcall.
    assert (Hskip : Subseq (@nil (common.Hash * Z)) (map parentOf rest)).
    { clear. induction (map parentOf rest); constructor; assumption. }
    destruct Hcall
      as [(Hok & B1 & S1 & G1 & N1)
         | ((f0 & Hf0 & Hlt) & _ & B1 &
            [((e & He) & S1 & G1) | (S1 & G1 & N1)])].
    + rewrite Hok.
      destruct (IH (snd (getParentBlock header c)))
        as (l & s & g & B2 & S2 & G2 & Sub & Hfl & Us & Ug).
      cbv zeta in B2, S2, G2, Hfl.
      exists l, s, g. rewrite B2, S2, G2, B1, S1, G1.
      rewrite N1 in Us.
      split; [reflexivity |]. split; [reflexivity |].
      split; [reflexivity |]. split; [apply Subseq_skip, Sub |].
      split; [| split; assumption].
      intros f Hf. apply Hfl, Hold, Hf.
    + rewrite He. cbn [snd].
      exists [parentOf header],
        [(eth.GetBlockHeadersMsg, headersRequest (types.ParentHash header))],
        [].
      rewrite app_nil_r.
      split; [exact B1 |]. split; [exact S1 |]. split; [exact G1 |].
      split; [apply Subseq_take, Hskip |].
      split; [| split].
      * intros f Hf. split; [apply Hold, Hf |].
        rewrite Hf0 in Hf. injection Hf as <-.
        constructor; [cbn [snd parentOf]; lia | constructor].
      * right. eexists. cbn [map fst parentOf fetchRequests app].
        reflexivity.
      * right. eexists. cbn [map fst parentOf app]. reflexivity.
    + destruct (IH (snd (getParentBlock header c)))
        as (l & s & g & B2 & S2 & G2 & Sub & Hfl & Us & Ug).
      cbv zeta in B2, S2, G2, Hfl.
      assert (E : snd (match fst (getParentBlock header c) with
                       | Ok a => rangeHeaders rest (snd (getParentBlock header c))
                       | Err e => (Err e, snd (getParentBlock header c))
                       end) =
                  snd (rangeHeaders rest (snd (getParentBlock header c))) \/
                  snd (match fst (getParentBlock header c) with
                       | Ok a => rangeHeaders rest (snd (getParentBlock header c))
                       | Err e => (Err e, snd (getParentBlock header c))
                       end) = snd (getParentBlock header c)).
      { destruct (fst (getParentBlock header c)); [left | right];
          reflexivity. }
      destruct E as [E | E]; rewrite E.
      * exists (parentOf header :: l),
          (fetchRequests (requestNum c) [types.ParentHash header] ++ s),
          (types.ParentHash header :: g).
        rewrite B2, S2, G2, B1, S1, G1, <- !app_assoc. rewrite N1 in Us.
        split; [reflexivity |]. split; [reflexivity |].
        split; [reflexivity |]. split; [apply Subseq_take, Sub |].
        split; [| split].
        -- intros f Hf. destruct (Hfl f (Hold f Hf)) as [Hf' Hall].
           split; [exact Hf' |].
           rewrite Hf0 in Hf. injection Hf as <-.
           constructor; [cbn [snd parentOf]; lia | exact Hall].
        -- cbn [map fst parentOf].
           change (fetchRequests (requestNum c)
                     (types.ParentHash header :: map fst l))
             with (fetchRequests (requestNum c) [types.ParentHash header] ++
                   fetchRequests (incr64 (requestNum c)) (map fst l)).
           apply UpToLast_app, Us.
        -- cbn [map fst parentOf].
           apply (UpToLast_app [types.ParentHash header]), Ug.
      * exists [parentOf header],
          (fetchRequests (requestNum c) [types.ParentHash header]),
          [types.ParentHash header].
        split; [exact B1 |]. split; [exact S1 |]. split; [exact G1 |].
        split; [apply Subseq_take, Hskip |].
        split; [| split; apply UpToLast_refl].
        intros f Hf. split; [apply Hold, Hf |].
        rewrite Hf0 in Hf. injection Hf as <-.
        constructor; [cbn [snd parentOf]; lia | constructor].
Qed.

(** One call of getParentBlock is the loop over its one header. *)
Lemma getParentBlock_rangeHeaders (header : types.Header) (c : conn) :
  snd (rangeHeaders [header] c) = snd (getParentBlock header c).
Proof.
  cbn [rangeHeaders]. rewrite bind_run.
  destruct (fst (getParentBlock header c)); reflexivity.
Qed.

Lemma handleBlockHeaders_requests (code id : Z)
  (headers : list types.Header) (d : option error) (c : conn) :
  let c' :=
    snd (handleBlockHeaders
           {| ethp2p.Code := code;
              ethp2p.Payload := eth.BlockHeadersPacket66 id headers;
              ethp2p.Discard := d |} c) in
  exists l s g,
    backfills (events c') = backfills (events c) ++ l /\
    sent (events c') = sent (events c) ++ s /\
    fetched (events c') = fetched (events c) ++ g /\
    Subseq l (map parentOf headers) /\
    (forall f,
       oldestBlock c = Some f ->
       oldestBlock c' = Some f /\
       Forall (fun b => types.Number f <= snd b) l) /\
    UpToLast s (fetchRequests (requestNum c) (map fst l)) /\
    UpToLast g (map fst l).
Proof.
  intros c'. subst c'. unfold handleBlockHeaders. cbn [ethp2p.Payload].
  rewrite bind_run. cbn [atomicAdd modify fst snd].
  set (c1 := set_count (add_BlockHeaders (Int32 (len headers)) (count c)) c).
  destruct (rangeHeaders_requests headers c1)
    as (l & s & g & B & S & G & Sub & Hfl & Us & Ug).
  cbv zeta in B, S, G, Hfl. exists l, s, g.
  rewrite bind_run.
  destruct (fst (rangeHeaders headers c1)) as [[] | e]; cbn [snd].
  - unfold dbWrite, modify. cbn [snd events emit set_db oldestBlock].
    rewrite backfills_app, sent_app, fetched_app, B, S, G.
    cbn [backfills sent fetched]. rewrite !app_nil_r.
    split; [reflexivity |]. split; [reflexivity |].
    split; [reflexivity |]. split; [exact Sub |].
    split; [exact Hfl |]. split; [exact Us | exact Ug].
  - split; [exact B |]. split; [exact S |]. split; [exact G |].
    split; [exact Sub |]. split; [exact Hfl |].
    split; [exact Us | exact Ug].
Qed.

Lemma handleNewBlock_requests (code : Z) (block : types.Block) (td : Z)
  (d : option error) (c : conn) :
  let c' :=
    snd (handleNewBlock
           {| ethp2p.Code := code;
              ethp2p.Payload := eth.NewBlockPacket block td;
              ethp2p.Discard := d |} c) in
  exists l s g,
    backfills (events c') = backfills (events c) ++ l /\
    sent (events c') = sent (events c) ++ s /\
    fetched (events c') = fetched (events c) ++ g /\
    Subseq l (map parentOf [types.header block]) /\
    (forall f,
       oldestBlock c = Some f ->
       oldestBlock c' = Some f /\
       Forall (fun b => types.Number f <= snd b) l) /\
    UpToLast s (fetchRequests (requestNum c) (map fst l)) /\
    UpToLast g (map fst l).
Proof.
  intros c'. subst c'. unfold handleNewBlock. cbn [ethp2p.Payload].
  rewrite bind_run. cbn [atomicAdd modify fst snd].
  rewrite bind_run. cbn [gets fst snd].
  set (c1 := set_count (add_Blocks 1 (count c)) c).
  rewrite bind_run.
  set (c2 :=
    snd ((if (Uint64 (types.BlockNumber block) >? Number (head c1))
             && (Cmp td (TotalDifficulty (head c1)) =? 1)
          then
            modify (set_head (candidate block td)) ;;
            new <- gets head ;; logger (LogSettingHead new)
          else ret tt) c1)).
  assert (E2 : backfills (events c2) = backfills (events c) /\
               sent (events c2) = sent (events c) /\
               fetched (events c2) = fetched (events c) /\
               requestNum c2 = requestNum c /\
               oldestBlock c2 = oldestBlock c).
  { subst c2.
    destruct ((Uint64 (types.BlockNumber block) >? Number (head c1))
              && (Cmp td (TotalDifficulty (head c1)) =? 1)).
    - cbn. rewrite backfills_app, sent_app, fetched_app. cbn.
      rewrite !app_nil_r. repeat split.
    - repeat split. }
  destruct E2 as (Eb & Es & Eg & En & Eo).
  assert (Eok :
    fst ((if (Uint64 (types.BlockNumber block) >? Number (head c1))
             && (Cmp td (TotalDifficulty (head c1)) =? 1)
          then
            modify (set_head (candidate block td)) ;;
            new <- gets head ;; logger (LogSettingHead new)
          else ret tt) c1) = Ok tt).
  { destruct ((Uint64 (types.BlockNumber block) >? Number (head c1))
              && (Cmp td (TotalDifficulty (head c1)) =? 1)); reflexivity. }
  unfold candidate in Eok, c2. rewrite Eok. fold c2.
  destruct (rangeHeaders_requests [types.header block] c2)
    as (l & s & g & B & S & G & Sub & Hfl & Us & Ug).
  cbv zeta in B, S, G, Hfl.
  rewrite getParentBlock_rangeHeaders in B, S, G, Hfl.
  rewrite Eb in B. rewrite Es in S. rewrite Eg in G. rewrite En in Us.
  rewrite Eo in Hfl.
  exists l, s, g. rewrite bind_run.
  destruct (fst (getParentBlock (types.header block) c2)) as [[] | e];
    cbn [snd].
  - rewrite bind_run. cbn [gets fst snd]. unfold dbWrite, modify.
    cbn [snd events emit set_db oldestBlock].
    rewrite backfills_app, sent_app, fetched_app, B, S, G.
    cbn [backfills sent fetched]. rewrite !app_nil_r.
    split; [reflexivity |]. split; [reflexivity |].
    split; [reflexivity |]. split; [exact Sub |].
    split; [exact Hfl |]. split; [exact Us | exact Ug].
  - split; [exact B |]. split; [exact S |]. split; [exact G |].
    split; [exact Sub |]. split; [exact Hfl |].
    split; [exact Us | exact Ug].
Qed.

(** What a block-headers response makes the connection ask for: the
    backfills logged while handling it are for parents of the headers it
    carries (parent hash, and number minus one), at most one per header
    and in the order of the headers; and the messages handed to
    ethp2p.Send while handling it are the get-headers and get-bodies
    requests of the fetches of those parents, in that order and under
    consecutive identifiers, and nothing else.  The last request is
    missing when the get-headers request of the last fetch was refused,
    and the fetches the stream took are those of the logged parents,
    but for the last when its get-headers request was refused. *)
Theorem handleBlockHeaders_backfills (code id : Z)
  (headers : list types.Header) (d : option error) (c : conn) :
  let c' :=
    snd (handleBlockHeaders
           {| ethp2p.Code := code;
              ethp2p.Payload := eth.BlockHeadersPacket66 id headers;
              ethp2p.Discard := d |} c) in
  exists l,
    backfills (events c') = backfills (events c) ++ l /\
    Subseq l (map parentOf headers) /\
    (List.length l <= List.length headers)%nat /\
    (exists s,
       sent (events c') = sent (events c) ++ s /\
       UpToLast s (fetchRequests (requestNum c) (map fst l))) /\
    (exists g,
       fetched (events c') = fetched (events c) ++ g /\
       UpToLast g (map fst l)).
Proof.
  intros c'. subst c'.
  destruct (handleBlockHeaders_requests code id headers d c)
    as (l & s & g & B & S & G & Sub & _ & Us & Ug).
  cbv zeta in B, S, G. exists l.
  split; [exact B |]. split; [exact Sub |].
  split; [apply Subseq_length in Sub; rewrite length_map in Sub; exact Sub |].
  split; [exists s; split; [exact S | exact Us] |].
  exists g. split; [exact G | exact Ug].
Qed.

(** C2, amended: once the floor of a connection is a header numbered F,
    it stays that header whatever messages the connection handles and
    whatever the other connections do to the shared objects, and from
    then on no backfill request is issued for a block numbered below F.
    Every backfill logged since is for a block numbered F or more.  For
    a header whose parent is numbered below F getParentBlock returns nil
    and does nothing: it sends nothing, logs nothing and changes
    nothing.  And whatever getParentBlock, handleBlockHeaders and
    handleNewBlock hand to ethp2p.Send is the get-headers and get-bodies
    requests of fetches of parents whose backfill they log, every one
    numbered F or more, and nothing else. *)
Theorem backfill_never_below_floor (f : types.Header) (c c' : conn) :
  oldestBlock c = Some f ->
  Steps c c' ->
  oldestBlock c' = Some f /\
  (exists new,
     events c' = events c ++ new /\
     forall h n, In (h, n) (backfills new) -> types.Number f <= n) /\
  (forall header,
     types.Number header - 1 < types.Number f ->
     getParentBlock header c' = (Ok tt, c')) /\
  (forall header,
     Backfilled (types.Number f) [header] c'
       (snd (getParentBlock header c'))) /\
  (forall code id headers d,
     Backfilled (types.Number f) headers c'
       (snd (handleBlockHeaders
               {| ethp2p.Code := code;
                  ethp2p.Payload := eth.BlockHeadersPacket66 id headers;
                  ethp2p.Discard := d |} c'))) /\
  (forall code block td d,
     Backfilled (types.Number f) [types.header block] c'
       (snd (handleNewBlock
               {| ethp2p.Code := code;
                  ethp2p.Payload := eth.NewBlockPacket block td;
                  ethp2p.Discard := d |} c'))).
Proof.
  intros Hf HS.
  assert (H0c : Floor f (events c) c).
  { split; [exact Hf |]. exists []. rewrite app_nil_r. auto. }
  destruct (Steps_keeps _ (Floor_Invariant f (events c)) c c' HS H0c)
    as (Hf' & new & E & F).
  split; [exact Hf' |].
  split; [exists new; split; [exact E | apply backfills_fromFloor, F] |].
  split; [| split; [| split]].
  - intros header Hlow. rewrite getParentBlock_run, Hf'.
    destruct (negb (database.ShouldWriteBlocks (db c'))
              || negb (database.ShouldWriteBlockEvents (db c')));
      [reflexivity |].
    destruct (Z.ltb_spec (types.Number f) (types.Number header)); [lia |].
    rewrite orb_true_r. reflexivity.
  - intros header.
    destruct (rangeHeaders_requests [header] c')
      as (l & s & g & B & S & G & Sub & Hfl & Us & Ug).
    cbv zeta in B, S, G, Hfl.
    rewrite getParentBlock_rangeHeaders in B, S, G, Hfl.
    exists l. split; [exact B |]. split; [exact Sub |].
    split; [apply (Hfl f Hf') |].
    split; [exists s; split; [exact S | exact Us] |].
    exists g. split; [exact G | exact Ug].
  - intros code id headers d.
    destruct (handleBlockHeaders_requests code id headers d c')
      as (l & s & g & B & S & G & Sub & Hfl & Us & Ug).
    cbv zeta in B, S, G, Hfl.
    exists l. split; [exact B |]. split; [exact Sub |].
    split; [apply (Hfl f Hf') |].
    split; [exists s; split; [exact S | exact Us] |].
    exists g. split; [exact G | exact Ug].
  - intros code block td d.
    destruct (handleNewBlock_requests code block td d c')
      as (l & s & g & B & S & G & Sub & Hfl & Us & Ug).
    cbv zeta in B, S, G, Hfl.
    exists l. split; [exact B |]. split; [exact Sub |].
    split; [apply (Hfl f Hf') |].
    split; [exists s; split; [exact S | exact Us] |].
    exists g. split; [exact G | exact Ug].
Qed.

End Backfills.

(** With the floor at header 1000, a response with headers 1005 and 990
    keeps the floor and logs no backfill below 1000.  After it, header
    1000, whose parent is the block numbered 999, makes getParentBlock
    do nothing; and what a response with headers 990 and 1001 sends is
    the requests of the backfills it logs, none below 1000. *)
Lemma backfill_never_below_floor_witness :
  oldestBlock backfilledConn = Some (headerAt 1000) /\
  (exists new,
     events backfilledConn = events floorConn ++ new /\
     forall h n, In (h, n) (backfills new) -> 1000 <= n) /\
  getParentBlock (headerAt 1000) backfilledConn = (Ok tt, backfilledConn) /\
  Backfilled 1000 [headerAt 990; headerAt 1001] backfilledConn
    (snd (handleBlockHeaders (headersMsg [headerAt 990; headerAt 1001])
            backfilledConn)).
Proof.
  destruct
    (backfill_never_below_floor (headerAt 1000) floorConn backfilledConn
       eq_refl
       (Steps_handle _ _ (headersMsg [headerAt 1005; headerAt 990])
          (Steps_refl _)))
    as (Hf & Hlog & Hstop & _ & Hresp & _).
  split; [exact Hf |]. split; [exact Hlog |].
  split; [apply Hstop; reflexivity |].
  exact (Hresp eth.BlockHeadersMsg 0 [headerAt 990; headerAt 1001] None).
Defined.
